(** * Pokemon Showdown chat commands: [dexsearch] and [learn]

    A shallow embedding of the two lookup commands of
    [config/commands.js] that carry algorithmic structure: the
    multi-criteria species search ([dexsearch], lines 606-802) and the
    learnset query ([learn], lines 808-866), followed by the properties
    that the specification states about them.

    The other commands of the file whose behaviour does not rest on the
    server around them are embedded after these: the challenge queue of
    the league and the opening of the gyms, [dice], [smogdex],
    [weakness], [effectiveness], [faq] and [tiers], with properties that
    their code shows.

    Conventions of the embedding.
    - JavaScript strings are [string]s.  The keywords and the data of
      the commands are ASCII, and [trim], [toLowerCase] and
      [toUpperCase] are those of JavaScript on strings of ASCII
      characters ([JS.isAscii]); they leave other bytes as they are,
      where JavaScript knows more white space and more letters.  What
      is proved of a text that goes through them is stated for ASCII
      text.
    - A plain JavaScript object used as a dictionary is an association
      list in insertion order, which is the order [for ... in] visits
      string keys.  The [in] operator also sees the properties inherited
      from [Object.prototype].
    - The command context ([this.sendReply], [this.sendReplyBox],
      [this.parse]) becomes the constructor of the returned [Reply].
    - The game data ([Tools]) is read-only and external: it is a set of
      section variables. *)

From Stdlib Require Import String Ascii List Bool Arith ZArith Lia Permutation.
Import ListNotations.
Open Scope list_scope.
Open Scope string_scope.
Open Scope nat_scope.

(** ** JavaScript string primitives *)

Module JS.

(** a string of ASCII characters: every code is below 128 *)
Fixpoint isAscii (s : string) : bool :=
  match s with
  | EmptyString => true
  | String c r => (nat_of_ascii c <? 128) && isAscii r
  end.

(** the white space of the ASCII range: tab, line feed, vertical tab,
    form feed, carriage return and space *)
Definition isWhiteSpace (c : ascii) : bool :=
  match nat_of_ascii c with
  | 9 | 10 | 11 | 12 | 13 | 32 => true
  | _ => false
  end.

Fixpoint trimLeft (s : string) : string :=
  match s with
  | EmptyString => EmptyString
  | String c r => if isWhiteSpace c then trimLeft r else s
  end.

Fixpoint rev_onto (s acc : string) : string :=
  match s with
  | EmptyString => acc
  | String c r => rev_onto r (String c acc)
  end.

Definition reverse (s : string) : string := rev_onto s EmptyString.

Definition trimRight (s : string) : string := reverse (trimLeft (reverse s)).

(** [String.prototype.trim], on ASCII text *)
Definition trim (s : string) : string := trimRight (trimLeft s).

Definition isUpper (c : ascii) : bool :=
  (65 <=? nat_of_ascii c) && (nat_of_ascii c <=? 90).

Definition isLower (c : ascii) : bool :=
  (97 <=? nat_of_ascii c) && (nat_of_ascii c <=? 122).

Definition lowerChar (c : ascii) : ascii :=
  if isUpper c then ascii_of_nat (nat_of_ascii c + 32) else c.

Definition upperChar (c : ascii) : ascii :=
  if isLower c then ascii_of_nat (nat_of_ascii c - 32) else c.

(** [String.prototype.toLowerCase], on ASCII text *)
Fixpoint toLowerCase (s : string) : string :=
  match s with
  | EmptyString => EmptyString
  | String c r => String (lowerChar c) (toLowerCase r)
  end.

(** [String.prototype.toUpperCase], on ASCII text *)
Fixpoint toUpperCase (s : string) : string :=
  match s with
  | EmptyString => EmptyString
  | String c r => String (upperChar c) (toUpperCase r)
  end.

(** [s.charAt(0)]: the first character as a string, [""] when there is none *)
Definition charAt0 (s : string) : string :=
  match s with
  | EmptyString => EmptyString
  | String c _ => String c EmptyString
  end.

(** [s.substr(start, len)] and [s.substr(start)] for non-negative arguments *)
Definition substr (start len : nat) (s : string) : string := substring start len s.

Definition substrFrom (start : nat) (s : string) : string :=
  substring start (String.length s) s.

(** [s.slice(from, to)] for [0 <= from] and [0 <= to]; empty when [to <= from] *)
Definition slice (from to : nat) (s : string) : string := substring from (to - from) s.

(** [s.indexOf(needle)]: [None] stands for [-1] *)
Definition indexOf (needle s : string) : option nat := index 0 needle s.

(** [s.split(sep)] for a one-character separator *)
Fixpoint split (sep : ascii) (s : string) : list string :=
  match s with
  | EmptyString => [EmptyString]
  | String c r =>
      if Ascii.eqb c sep then EmptyString :: split sep r
      else match split sep r with
           | h :: t => String c h :: t
           | [] => [String c EmptyString]
           end
  end.

(** [Array.prototype.join(sep)] on an array of strings *)
Fixpoint join (sep : string) (l : list string) : string :=
  match l with
  | [] => EmptyString
  | [x] => x
  | x :: r => x ++ sep ++ join sep r
  end.

(** Decimal rendering of a non-negative integer ([String(n)], [''+n]). *)
Definition digitChar (d : nat) : ascii := ascii_of_nat (48 + d).

Fixpoint digitsOnto (fuel n : nat) (acc : string) : string :=
  match fuel with
  | 0 => acc
  | S f =>
      let acc' := String (digitChar (n mod 10)) acc in
      if n <? 10 then acc' else digitsOnto f (n / 10) acc'
  end.

Definition numToString (n : nat) : string := digitsOnto (S n) n EmptyString.

(** *** [parseInt(s)] with no radix argument (ECMAScript 5, 15.1.2.2)

    Leading white space is skipped, one sign is read, a [0x] or [0X]
    prefix selects radix 16, and the longest prefix of digits of the
    radix is the value.  [None] stands for [NaN]. *)

Definition digitValue (c : ascii) : option nat :=
  let n := nat_of_ascii c in
  if (48 <=? n) && (n <=? 57) then Some (n - 48)
  else if (97 <=? n) && (n <=? 122) then Some (n - 87)
  else if (65 <=? n) && (n <=? 90) then Some (n - 55)
  else None.

Definition radixDigit (radix : nat) (c : ascii) : option nat :=
  match digitValue c with
  | Some d => if d <? radix then Some d else None
  | None => None
  end.

(** value of the longest prefix of radix digits; [None] when it is empty *)
Fixpoint parseDigits (radix : nat) (s : string) (acc : option Z) : option Z :=
  match s with
  | EmptyString => acc
  | String c r =>
      match radixDigit radix c with
      | Some d =>
          let a := match acc with Some a => a | None => 0%Z end in
          parseDigits radix r (Some (a * Z.of_nat radix + Z.of_nat d)%Z)
      | None => acc
      end
  end.

(** the rest of a string after a [0x] or [0X] prefix *)
Definition hexPrefix (s : string) : option string :=
  match s with
  | String c1 (String c2 r) =>
      if Ascii.eqb c1 "0" && (Ascii.eqb c2 "x" || Ascii.eqb c2 "X") then Some r else None
  | _ => None
  end.

Definition parseUnsigned (s : string) : option Z :=
  match hexPrefix s with
  | Some r => parseDigits 16 r None
  | None => parseDigits 10 s None
  end.

Definition parseInt (s : string) : option Z :=
  match trimLeft s with
  | String c r =>
      if Ascii.eqb c "-" then option_map Z.opp (parseUnsigned r)
      else if Ascii.eqb c "+" then parseUnsigned r
      else parseUnsigned (String c r)
  | EmptyString => parseUnsigned EmptyString
  end.

(** ** Plain objects used as dictionaries *)

Definition obj := list (string * nat).

Fixpoint get (o : obj) (k : string) : option nat :=
  match o with
  | [] => None
  | (k', v) :: r => if String.eqb k k' then Some v else get r k
  end.

(** the own keys in the order [for ... in] visits them: the order of
    insertion (keys that are array indices would come first; the
    objects of the commands that are enumerated hold none) *)
Definition keys (o : obj) : list string := map fst o.

Definition mem (k : string) (l : list string) : bool := existsb (String.eqb k) l.

(** the properties every plain object inherits from [Object.prototype] *)
Definition objectPrototypeKeys : list string :=
  [ "constructor"; "toString"; "toLocaleString"; "valueOf"; "hasOwnProperty";
    "isPrototypeOf"; "propertyIsEnumerable"; "__proto__";
    "__defineGetter__"; "__defineSetter__"; "__lookupGetter__"; "__lookupSetter__" ].

(** [k in o] *)
Definition has (k : string) (o : obj) : bool :=
  mem k (keys o) || mem k objectPrototypeKeys.

Fixpoint put (o : obj) (k : string) (v : nat) : obj :=
  match o with
  | [] => [(k, v)]
  | (k', v') :: r =>
      if String.eqb k k' then (k, v) :: r else (k', v') :: put r k v
  end.

(** [o[k] = v]; assigning a number to [__proto__] leaves the object as it is *)
Definition set (o : obj) (k : string) (v : nat) : obj :=
  if String.eqb k "__proto__" then o else put o k v.

(** truthiness of the number-or-undefined read [o.count] *)
Definition truthy (v : option nat) : bool :=
  match v with
  | Some (S _) => true
  | _ => false
  end.

End JS.

(** ** The data the commands read *)

(** What [Tools.getMove] and [Tools.getAbility] return: the fields the
    commands read.  Used as a property key or in a string concatenation,
    such an object stands for its [name] (its [toString]). *)
Record Effect := mkEffect {
  e_exists : bool;
  e_id : string;
  e_name : string
}.

(** What [Tools.getTemplate] returns.  [types] has one or two entries,
    [abilities] is the object of ability slots in [for ... in] order. *)
Record Template := mkTemplate {
  t_exists : bool;
  t_id : string;
  t_name : string;
  species : string;
  types : list string;
  tier : string;
  color : string;
  abilities : list (string * string);
  gen : nat;
  maleOnlyHidden : bool
}.

(** What a command hands back to the chat: [this.sendReply(text)],
    [this.sendReplyBox(html)] or [this.parse(command)]. *)
Inductive Reply :=
| SendReply (text : string)
| SendReplyBox (html : string)
| Parse (command : string).

(** the double quote and the line feed inside the messages *)
Definition dq : string := String (ascii_of_nat 34) EmptyString.
Definition nl : string := String (ascii_of_nat 10) EmptyString.

(** [a[i]] used as a property key: a missing slot reads [undefined] *)
Definition slot (l : list string) (i : nat) : string := nth i l "undefined".

(** The six filter objects of [dexsearch], the number of populated ones
    and the [all] flag (lines 611-615). *)
Record Query := mkQuery {
  moves : JS.obj;
  ability : JS.obj;
  tiers : JS.obj;
  colours : JS.obj;
  gens : JS.obj;
  qtypes : JS.obj;
  count : nat;
  showAll : bool
}.

Definition emptyQuery : Query := mkQuery [] [] [] [] [] [] 0 false.

Definition allTiers : JS.obj :=
  [("uber", 1); ("ou", 1); ("uu", 1); ("ru", 1); ("nu", 1); ("lc", 1);
   ("cap", 1); ("bl", 1); ("bl2", 1); ("nfe", 1); ("limbo", 1)].

Definition allColours : JS.obj :=
  [("green", 1); ("red", 1); ("blue", 1); ("white", 1); ("brown", 1);
   ("yellow", 1); ("purple", 1); ("pink", 1); ("gray", 1); ("black", 1)].

Definition output : nat := 10.

(** [o.count], a number or [undefined] *)
Definition countOf (o : JS.obj) : option nat := JS.get o "count".

(** [if (!o.count) { count++; o.count = 0; }] *)
Definition populate (o : JS.obj) (n : nat) : JS.obj * nat :=
  if JS.truthy (countOf o) then (o, n) else (JS.set o "count" 0, S n).

(** [o.count++]; the field is a number whenever this runs, since
    [populate] has run just before *)
Definition bump (o : JS.obj) : JS.obj :=
  JS.set o "count" (S (match countOf o with Some c => c | None => 0 end)).

(** [o[k] = 1; o.count++] *)
Definition addMember (o : JS.obj) (k : string) : JS.obj := bump (JS.set o k 1).

(** [o.count === n] *)
Definition countIs (o : JS.obj) (n : nat) : bool :=
  match countOf o with
  | Some c => c =? n
  | None => false
  end.

(** [o.count > 0] *)
Definition populated (o : JS.obj) : bool := JS.truthy (countOf o).

(** [0 < targetInt && targetInt < 6] *)
Definition isGen (targetInt : option Z) : bool :=
  match targetInt with
  | Some z => (0 <? z)%Z && (z <? 6)%Z
  | None => false
  end.

Definition genKey (targetInt : option Z) : string :=
  match targetInt with
  | Some z => JS.numToString (Z.to_nat z)
  | None => "NaN"
  end.

Definition msgMoveLimit : string := "Specify a maximum of 4 moves.".
Definition msgAbilityLimit : string := "Specify only one ability.".
Definition msgTypeLimit : string := "Specify a maximum of two types.".
Definition msgBroadcastAll : string :=
  "A search with the parameter " ++ dq ++ "all" ++ dq ++ " cannot be broadcast.".
Definition msgNotFound (token : string) : string :=
  dq ++ token ++ dq ++ " could not be found in any of the search categories.".
Definition msgOnlyAll : string :=
  "No search parameters other than " ++ dq ++ "all" ++ dq ++ " were found." ++ nl ++
  "Try " ++ dq ++ "/help dexsearch" ++ dq ++ " for more information on this command.".
Definition msgUnknownMove (move : string) : string :=
  dq ++ move ++ dq ++ " is not a known move.".
Definition msgNoPokemon : string := "No Pokémon found.".
Definition msgMore (hidden : string) : string :=
  ", and " ++ hidden ++ " more. Redo the search with " ++ dq ++ "all" ++ dq ++
  " as a search parameter to show all results.".

(** The type name a token asks for: the text before the first [" type"],
    its first character in upper case (line 684). *)
Definition typeName (target : string) (idx : nat) : string :=
  JS.toUpperCase (JS.charAt0 target) ++ JS.slice 1 idx target.

Section Dexsearch.

(** The read-only data facade. *)
Variable getMove : string -> Effect.
Variable getAbility : string -> Effect.
(** [name in Tools.data.TypeChart] *)
Variable inTypeChart : string -> bool.
(** the keys of [Tools.data.Pokedex] in enumeration order *)
Variable pokedex : list string.
Variable getTemplate : string -> Template.
(** The legality engine: [Tools.checkLearnset(move, template, lsetData)]
    returns a problem or nothing and records what it found in [lsetData];
    here it returns whether there is a problem and the updated record. *)
Variable LsetData : Type.
Variable checkLearnset : Effect -> Template -> LsetData -> bool * LsetData.
(** the fresh [{set:{}}] *)
Variable newLsetData : LsetData.
(** [this.broadcasting] *)
Variable broadcasting : bool.
(** [results.sort(function(a,b) {return Math.round(Math.random());})]:
    the order the random comparator leaves the names in *)
Variable shuffle : list string -> list string.

(** *** Token classification (the body of the loop of lines 618-700)

    [inl q'] is the query after the token ([continue], or the end of
    the body), [inr r] is a [return]. *)
Definition classify (q : Query) (raw : string) : Query + Reply :=
  let target := getMove raw in
  if e_exists target then
    let (o, n) := populate (moves q) (count q) in
    if countIs o 4 then inr (SendReply msgMoveLimit)
    else inl (mkQuery (addMember o (e_name target)) (ability q) (tiers q)
                      (colours q) (gens q) (qtypes q) n (showAll q))
  else
  let target := getAbility raw in
  if e_exists target then
    let (o, n) := populate (ability q) (count q) in
    if countIs o 1 then inr (SendReply msgAbilityLimit)
    else inl (mkQuery (moves q) (addMember o (e_name target)) (tiers q)
                      (colours q) (gens q) (qtypes q) n (showAll q))
  else
  let target := JS.toLowerCase (JS.trim raw) in
  if JS.has target allTiers then
    let (o, n) := populate (tiers q) (count q) in
    inl (mkQuery (moves q) (ability q) (addMember o target)
                 (colours q) (gens q) (qtypes q) n (showAll q))
  else if JS.has target allColours then
    let (o, n) := populate (colours q) (count q) in
    inl (mkQuery (moves q) (ability q) (tiers q)
                 (addMember o target) (gens q) (qtypes q) n (showAll q))
  else
  let targetInt := JS.parseInt target in
  if isGen targetInt then
    let (o, n) := populate (gens q) (count q) in
    inl (mkQuery (moves q) (ability q) (tiers q)
                 (colours q) (addMember o (genKey targetInt)) (qtypes q) n (showAll q))
  else if String.eqb target "all" then
    if broadcasting then inr (SendReply msgBroadcastAll)
    else inl (mkQuery (moves q) (ability q) (tiers q)
                      (colours q) (gens q) (qtypes q) (count q) true)
  else
  match JS.indexOf " type" target with
  | Some idx =>
      let target := typeName target idx in
      if inTypeChart target then
        let (o, n) := populate (qtypes q) (count q) in
        if countIs o 2 then inr (SendReply msgTypeLimit)
        else inl (mkQuery (moves q) (ability q) (tiers q)
                          (colours q) (gens q) (addMember o target) n (showAll q))
      else inl q
  | None => inr (SendReply (msgNotFound (JS.trim raw)))
  end.

(** [for (var i in targets) { ... }] *)
Fixpoint classifyAll (q : Query) (targets : list string) : Query + Reply :=
  match targets with
  | [] => inl q
  | raw :: rest =>
      match classify q raw with
      | inl q' => classifyAll q' rest
      | inr r => inr r
      end
  end.

(** *** Evaluation (the loop of lines 704-784) *)

(** [if (c) results.add(mon)]: [add] is the array extension that appends
    its argument to the array.

    Modelled from the spec: [Array.prototype.add] is not defined in this
    file; the evaluator narrows the working set, so [add] puts the
    species at the end of the array it is called on. *)
Definition addIf (c : bool) (mon : Template) : list Template :=
  if c then [mon] else [].

(** the first pass over [Tools.data.Pokedex] (lines 708-713) *)
Definition initialResults (q : Query) : list Template :=
  flat_map (fun key =>
    let pokemon := getTemplate key in
    addIf (negb (String.eqb (tier pokemon) "Illegal")
           && (negb (String.eqb (tier pokemon) "CAP") || JS.has "cap" (tiers q)))
          pokemon) pokedex.

(** lines 720-726 *)
Definition byTypes (o : JS.obj) (tempResults : list Template) : list Template :=
  flat_map (fun mon =>
    if countIs o 1
    then addIf (JS.has (slot (types mon) 0) o || JS.has (slot (types mon) 1) o) mon
    else addIf (JS.has (slot (types mon) 0) o && JS.has (slot (types mon) 1) o) mon)
    tempResults.

(** lines 732-734 *)
Definition byTiers (o : JS.obj) (tempResults : list Template) : list Template :=
  flat_map (fun mon => addIf (JS.has (JS.toLowerCase (tier mon)) o) mon) tempResults.

(** lines 740-744: one [add] for each ability slot that matches *)
Definition byAbility (o : JS.obj) (tempResults : list Template) : list Template :=
  flat_map (fun mon =>
    flat_map (fun monAbility =>
      addIf (JS.has (e_name (getAbility (snd monAbility))) o) mon) (abilities mon))
    tempResults.

(** lines 750-752 *)
Definition byColours (o : JS.obj) (tempResults : list Template) : list Template :=
  flat_map (fun mon => addIf (JS.has (JS.toLowerCase (color mon)) o) mon) tempResults.

(** lines 778-780 *)
Definition byGens (o : JS.obj) (tempResults : list Template) : list Template :=
  flat_map (fun mon => addIf (JS.has (JS.numToString (gen mon)) o) mon) tempResults.

(** The loop over the keys of [moves] for one species (lines 763-770).
    [problem] is the function-level variable, which keeps its value from
    one species to the next; [inl] is its value when the loop ends,
    [inr] the [return] on an unknown move. *)
Fixpoint checkMoves (ks : list string) (template : Template)
    (lsetData : LsetData) (problem : bool) : bool + Reply :=
  match ks with
  | [] => inl problem
  | i :: rest =>
      let move := getMove i in
      if negb (String.eqb (e_id move) "count") then
        if negb (e_exists move) then inr (SendReplyBox (msgUnknownMove (e_name move)))
        else
          let (p, lsetData') := checkLearnset move template lsetData in
          if p then inl true else checkMoves rest template lsetData' false
      else checkMoves rest template lsetData problem
  end.

(** lines 760-772 *)
Fixpoint movesLoop (o : JS.obj) (tempResults : list Template) (problem : bool)
    (results : list Template) : list Template + Reply :=
  match tempResults with
  | [] => inl results
  | mon :: rest =>
      match checkMoves (JS.keys o) (getTemplate (t_id mon)) newLsetData problem with
      | inr r => inr r
      | inl p => movesLoop o rest p (results ++ addIf (negb p) mon)%list
      end
  end.

Definition byMoves (o : JS.obj) (tempResults : list Template) : list Template + Reply :=
  movesLoop o tempResults false [].

(** [o.count = 0] *)
Definition reset (o : JS.obj) : JS.obj := JS.set o "count" 0.

Definition setTypes (q : Query) (o : JS.obj) : Query :=
  mkQuery (moves q) (ability q) (tiers q) (colours q) (gens q) o (count q) (showAll q).
Definition setTiers (q : Query) (o : JS.obj) : Query :=
  mkQuery (moves q) (ability q) o (colours q) (gens q) (qtypes q) (count q) (showAll q).
Definition setAbility (q : Query) (o : JS.obj) : Query :=
  mkQuery (moves q) o (tiers q) (colours q) (gens q) (qtypes q) (count q) (showAll q).
Definition setColours (q : Query) (o : JS.obj) : Query :=
  mkQuery (moves q) (ability q) (tiers q) o (gens q) (qtypes q) (count q) (showAll q).
Definition setMoves (q : Query) (o : JS.obj) : Query :=
  mkQuery o (ability q) (tiers q) (colours q) (gens q) (qtypes q) (count q) (showAll q).
Definition setGens (q : Query) (o : JS.obj) : Query :=
  mkQuery (moves q) (ability q) (tiers q) (colours q) o (qtypes q) (count q) (showAll q).

(** [while (count > 0) { count--; ... }]: the recursion is on [count];
    [results] is [None] while the variable is still [undefined]. *)
Fixpoint evalLoop (count : nat) (q : Query) (results : option (list Template))
    : option (list Template) + Reply :=
  match count with
  | 0 => inl results
  | S count' =>
      let tempResults :=
        match results with
        | None => initialResults q
        | Some rs => rs
        end in
      if populated (qtypes q) then
        evalLoop count' (setTypes q (reset (qtypes q))) (Some (byTypes (qtypes q) tempResults))
      else if populated (tiers q) then
        evalLoop count' (setTiers q (reset (tiers q))) (Some (byTiers (tiers q) tempResults))
      else if populated (ability q) then
        evalLoop count' (setAbility q (reset (ability q)))
                 (Some (byAbility (ability q) tempResults))
      else if populated (colours q) then
        evalLoop count' (setColours q (reset (colours q)))
                 (Some (byColours (colours q) tempResults))
      else if populated (moves q) then
        match byMoves (moves q) tempResults with
        | inr r => inr r
        | inl rs => evalLoop count' (setMoves q (reset (moves q))) (Some rs)
        end
      else if populated (gens q) then
        evalLoop count' (setGens q (reset (gens q))) (Some (byGens (gens q) tempResults))
      else evalLoop count' q (Some [])
  end.

Definition evaluate (q : Query) : option (list Template) + Reply :=
  evalLoop (count q) q None.

(** *** Rendering (lines 786-801) *)

(** Modelled from the spec: the global helper [string] is defined outside
    this file; the trailer reports the hidden count, so [string] of a
    number is its decimal rendering. *)
Definition stringOf (n : nat) : string := JS.numToString n.

Definition render (all : bool) (results : option (list Template)) : string :=
  match results with
  | Some ((_ :: _) as rs) =>
      let names := map species rs in
      if all || (length names <=? output) then JS.join ", " names
      else
        let hidden := stringOf (length names - output) in
        let shown := firstn 10 (shuffle names) in
        JS.join ", " shown ++ msgMore hidden
  | _ => msgNoPokemon
  end.

(** The command, after the [canBroadcast] check of line 607. *)
Definition dexsearch (target : string) : Reply :=
  if String.eqb target "" then Parse "/help dexsearch"
  else
    match classifyAll emptyQuery (JS.split "," target) with
    | inr r => r
    | inl q =>
        if showAll q && (count q =? 0) then SendReply msgOnlyAll
        else
          match evaluate q with
          | inr r => r
          | inl results => SendReplyBox (render (showAll q) results)
          end
    end.

End Dexsearch.

(** ** The learnset query (lines 808-866) *)

Definition sourceNames (key : string) : string :=
  if String.eqb key "E" then "egg"
  else if String.eqb key "S" then "event"
  else if String.eqb key "D" then "dream world"
  else "undefined".

Definition nonEmpty (s : string) : bool :=
  match s with
  | EmptyString => false
  | _ => true
  end.

(** [Array.prototype.sort()] on strings: ascending in the order of the
    character codes. *)
Fixpoint insertSorted (x : string) (l : list string) : list string :=
  match l with
  | [] => [x]
  | y :: r => if String.leb x y then x :: l else y :: insertSorted x r
  end.

Definition sort (l : list string) : list string := fold_right insertSorted [] l.

(** The variables of the loop over the sources: [prevSourceType] (a
    string or [undefined]), [prevSourceCount] and [buffer]. *)
Record Listing := mkListing {
  prevSourceType : option string;
  prevSourceCount : Z;
  buffer : string
}.

(** the body of the loop of lines 846-860 *)
Definition listSource (all hidden : bool) (st : Listing) (source : string) : Listing :=
  let sameType :=
    match prevSourceType st with
    | Some p => String.eqb (JS.substr 0 2 source) p
    | None => false
    end in
  if sameType then
    let buffer' :=
      if (prevSourceCount st <? 0)%Z then buffer st ++ ": " ++ JS.substrFrom 2 source
      else if all || (prevSourceCount st <? 3)%Z then buffer st ++ ", " ++ JS.substrFrom 2 source
      else if (prevSourceCount st =? 3)%Z then buffer st ++ ", ..."
      else buffer st in
    mkListing (prevSourceType st) (prevSourceCount st + 1)%Z buffer'
  else
    let prevType := JS.substr 0 2 source in
    let prevCount := if nonEmpty (JS.substrFrom 2 source) then 0%Z else (-1)%Z in
    let b1 := buffer st ++ "<li>gen " ++ JS.substr 0 1 source ++ " "
              ++ sourceNames (JS.substr 1 1 source) in
    let b2 := if String.eqb prevType "5E" && hidden
              then b1 ++ " (cannot have hidden ability)" else b1 in
    let b3 := if nonEmpty (JS.substrFrom 2 source)
              then b2 ++ ": " ++ JS.substrFrom 2 source else b2 in
    mkListing (Some prevType) prevCount b3.

(** The loop of lines 846-860 over the sorted sources.  [prevSourceCount]
    is written before it is first read, so its initial value is
    immaterial. *)
Definition listSources (all hidden : bool) (buffer0 : string) (sources : list string) : string :=
  buffer (fold_left (listSource all hidden) (sort sources) (mkListing None 0 buffer0)).

Definition msgNoPokemonNamed (id : string) : string :=
  "Pokemon " ++ dq ++ id ++ dq ++ " not found.".
Definition msgNoMove : string := "You must specify at least one move.".
Definition msgNoMoveNamed (id : string) : string :=
  "Move " ++ dq ++ id ++ dq ++ " not found.".
Definition spanCannot : string :=
  " <span class=" ++ dq ++ "message-learn-cannotlearn" ++ dq ++ ">can't</span> learn ".
Definition spanCan : string :=
  " <span class=" ++ dq ++ "message-learn-canlearn" ++ dq ++ ">can</span> learn ".
Definition listOpen : string :=
  " only when obtained from:<ul class=" ++ dq ++ "message-learn-list" ++ dq ++ ">".

Section Learn.

Variable getMove : string -> Effect.
Variable getTemplate : string -> Template.
Variable LsetData : Type.
Variable checkLearnset : Effect -> Template -> LsetData -> bool * LsetData.
(** the fresh [{set:{}}], [lsetData.set.level = n] and
    [lsetData.format = {noPokebank: true}] *)
Variable newLsetData : LsetData.
Variable setLevel : nat -> LsetData -> LsetData.
Variable setNoPokebank : LsetData -> LsetData.
(** [lsetData.sources] (an array or [undefined]) and
    [lsetData.sourcesBefore] (a number or [undefined]) *)
Variable sources : LsetData -> option (list string).
Variable sourcesBefore : LsetData -> option nat.

(** What the loop of lines 830-837 leaves behind: [problem], the last
    [move] it looked up and [lsetData]. *)
Record Checked := mkChecked {
  problem : bool;
  lastMove : Effect;
  lset : LsetData
}.

Fixpoint checkAll (targets : list string) (template : Template)
    (move : Effect) (lsetData : LsetData) : Checked + Reply :=
  match targets with
  | [] => inl (mkChecked false move lsetData)
  | t :: rest =>
      let move := getMove t in
      if negb (e_exists move) then inr (SendReply (msgNoMoveNamed (e_id move)))
      else
        let (p, lsetData') := checkLearnset move template lsetData in
        if p then inl (mkChecked true move lsetData')
        else checkAll rest template move lsetData'
  end.

(** [lsetData] as the command prepares it (lines 813-820) *)
Definition initialLset (cmd : string) : LsetData :=
  let l := newLsetData in
  let l := if String.eqb cmd "learn5" then setLevel 5 l else l in
  if String.eqb cmd "g6learn" then setNoPokebank l else l.

(** lines 839-864: the list of sources of a learnable set of moves *)
Definition listLearnable (all : bool) (template : Template) (l : LsetData)
    (buffer0 : string) : string :=
  let b1 :=
    match sources l, sourcesBefore l with
    | None, None | None, Some 0 => buffer0
    | _, _ => buffer0 ++ listOpen
    end in
  let b2 :=
    match sources l with
    | Some srcs => listSources all (maleOnlyHidden template) b1 srcs
    | None => b1
    end in
  let b3 :=
    match sourcesBefore l with
    | Some (S n) => b2 ++ "<li>any generation before " ++ JS.numToString (S n + 1)
    | _ => b2
    end in
  b3 ++ "</ul>".

(** The command, after the [canBroadcast] check of line 811; [move] is
    [{}] before the loop and is never read in that state. *)
Definition learn (target cmd : string) : Reply :=
  if String.eqb target "" then Parse "/help learn"
  else
    let targets := JS.split "," target in
    let template := getTemplate (hd "" targets) in
    let all := String.eqb cmd "learnall" in
    if negb (t_exists template) then SendReply (msgNoPokemonNamed (t_id template))
    else if length targets <? 2 then SendReply msgNoMove
    else
      match checkAll (tl targets) template (mkEffect false "" "undefined")
                     (initialLset cmd) with
      | inr r => r
      | inl c =>
          let buffer0 :=
            t_name template ++ (if problem c then spanCannot else spanCan)
            ++ (if 2 <? length targets then "these moves" else e_name (lastMove c)) in
          SendReplyBox
            (if problem c then buffer0
             else listLearnable all template (lset c) buffer0)
      end.

End Learn.

Arguments mkChecked {LsetData} _ _ _.
Arguments problem {LsetData} _.
Arguments lastMove {LsetData} _.
Arguments lset {LsetData} _.

(** ** A small data set

    A stand-in for the game data, used to run the commands on concrete
    queries: five moves, three abilities, six types and seven species. *)

Module Demo.

Definition isIdChar (c : ascii) : bool :=
  JS.isLower c || ((48 <=? nat_of_ascii c) && (nat_of_ascii c <=? 57)).

(** [toId]: lower case, letters and digits only *)
Fixpoint toId (s : string) : string :=
  match s with
  | EmptyString => EmptyString
  | String c r =>
      let c' := JS.lowerChar c in
      if isIdChar c' then String c' (toId r) else toId r
  end.

Definition lookup (table : list (string * string)) (raw : string) : Effect :=
  let id := toId raw in
  match find (fun e => String.eqb (fst e) id) table with
  | Some (_, name) => mkEffect true id name
  | None => mkEffect false id (JS.trim raw)
  end.

Definition Movedex : list (string * string) :=
  [("tackle", "Tackle"); ("ember", "Ember"); ("fly", "Fly"); ("surf", "Surf");
   ("fireblast", "Fire Blast"); ("growl", "Growl")].

Definition Abilities : list (string * string) :=
  [("blaze", "Blaze"); ("torrent", "Torrent"); ("levitate", "Levitate")].

Definition getMove : string -> Effect := lookup Movedex.
Definition getAbility : string -> Effect := lookup Abilities.

Definition TypeChart : JS.obj :=
  [("Fire", 1); ("Water", 1); ("Grass", 1); ("Flying", 1); ("Ghost", 1); ("Ice", 1)].

Definition inTypeChart (name : string) : bool := JS.has name TypeChart.

Definition charizard : Template :=
  mkTemplate true "charizard" "Charizard" "Charizard" ["Fire"; "Flying"] "OU" "Red"
             [("0", "Blaze")] 1 false.
Definition charmander : Template :=
  mkTemplate true "charmander" "Charmander" "Charmander" ["Fire"] "LC" "Red"
             [("0", "Blaze")] 1 false.
Definition moltres : Template :=
  mkTemplate true "moltres" "Moltres" "Moltres" ["Fire"; "Flying"] "UU" "Yellow"
             [("0", "Pressure")] 1 false.
Definition hooh : Template :=
  mkTemplate true "hooh" "Ho-Oh" "Ho-Oh" ["Fire"; "Flying"] "Uber" "Red"
             [("0", "Pressure")] 2 false.
Definition squirtle : Template :=
  mkTemplate true "squirtle" "Squirtle" "Squirtle" ["Water"] "LC" "Blue"
             [("0", "Torrent")] 1 false.
Definition gastly : Template :=
  mkTemplate true "gastly" "Gastly" "Gastly" ["Ghost"] "LC" "Purple"
             [("0", "Levitate")] 1 false.
Definition syclant : Template :=
  mkTemplate true "syclant" "Syclant" "Syclant" ["Ice"] "CAP" "Blue"
             [("0", "Compoundeyes")] 4 false.
Definition missingno : Template :=
  mkTemplate true "missingno" "Missingno." "Missingno." ["Flying"] "Illegal" "Gray"
             [("0", "Levitate")] 1 false.

Definition allSpecies : list Template :=
  [charizard; charmander; moltres; hooh; squirtle; gastly; syclant; missingno].

Definition pokedex : list string := map t_id allSpecies.

Definition getTemplate (raw : string) : Template :=
  let id := toId raw in
  match find (fun t => String.eqb (t_id t) id) allSpecies with
  | Some t => t
  | None => mkTemplate false id (JS.trim raw) (JS.trim raw) [] "" "" [] 0 false
  end.

(** The stand-in legality engine keeps the sources it has found, with
    [sourcesBefore]; a species learns a move when the pair is listed. *)
Record Lset := mkLset {
  lsources : option (list string);
  lbefore : option nat
}.

Definition learnsets : list (string * string * list string) :=
  [("charizard", "ember", []); ("charizard", "fly", []);
   ("charizard", "fireblast", []);
   ("charmander", "ember", []); ("charmander", "growl", []);
   ("moltres", "ember", []); ("moltres", "fly", []);
   ("hooh", "fly", []); ("hooh", "fireblast", []);
   ("squirtle", "tackle", []); ("squirtle", "surf", []);
   ("gastly", "growl", ["5E"; "4Sa"; "4Sb"; "4Sc"; "4Sd"; "4Se"; "3S1"])].

Definition checkLearnset (move : Effect) (template : Template) (l : Lset)
    : bool * Lset :=
  match find (fun e => String.eqb (fst (fst e)) (t_id template)
                       && String.eqb (snd (fst e)) (e_id move)) learnsets with
  | Some (_, srcs) =>
      (false,
       match srcs with
       | [] => l
       | _ => mkLset (Some (srcs ++ match lsources l with Some s => s | None => [] end)%list)
                     (lbefore l)
       end)
  | None => (true, l)
  end.

Definition newLsetData : Lset := mkLset None None.
Definition setLevel (n : nat) (l : Lset) : Lset := l.
Definition setNoPokebank (l : Lset) : Lset := l.

(** the display sample: the names in reverse order *)
Definition shuffle (names : list string) : list string := rev names.

Definition dexsearch (broadcasting : bool) (target : string) : Reply :=
  dexsearch getMove getAbility inTypeChart pokedex getTemplate Lset checkLearnset
            newLsetData broadcasting shuffle target.

Definition learn (target cmd : string) : Reply :=
  learn getMove getTemplate Lset checkLearnset newLsetData setLevel setNoPokebank
        lsources lbefore target cmd.

End Demo.

(** ** A larger catalog

    The Water species of the first generation up to Staryu, with
    Charizard and Gastly: 23 of its 25 species have the type Water.
    Moves, abilities, the type chart and the legality engine are those
    of the small data set. *)

Module DemoWater.

Definition entry (name : string) (types : list string) (tier color : string)
    (slots : list (string * string)) : Template :=
  mkTemplate true (Demo.toId name) name name types tier color slots 1 false.

Definition allSpecies : list Template :=
  [ entry "Squirtle" ["Water"] "LC" "Blue" [("0", "Torrent"); ("DW", "Rain Dish")];
    entry "Wartortle" ["Water"] "NFE" "Blue" [("0", "Torrent"); ("DW", "Rain Dish")];
    entry "Blastoise" ["Water"] "UU" "Blue" [("0", "Torrent"); ("DW", "Rain Dish")];
    Demo.charizard;
    entry "Psyduck" ["Water"] "LC" "Yellow"
          [("0", "Damp"); ("1", "Cloud Nine"); ("DW", "Swift Swim")];
    entry "Golduck" ["Water"] "NU" "Blue"
          [("0", "Damp"); ("1", "Cloud Nine"); ("DW", "Swift Swim")];
    entry "Poliwag" ["Water"] "LC" "Blue"
          [("0", "Water Absorb"); ("1", "Damp"); ("DW", "Swift Swim")];
    entry "Poliwhirl" ["Water"] "NFE" "Blue"
          [("0", "Water Absorb"); ("1", "Damp"); ("DW", "Swift Swim")];
    entry "Poliwrath" ["Water"; "Fighting"] "RU" "Blue"
          [("0", "Water Absorb"); ("1", "Damp"); ("DW", "Swift Swim")];
    entry "Tentacool" ["Water"; "Poison"] "LC" "Blue"
          [("0", "Clear Body"); ("1", "Liquid Ooze"); ("DW", "Rain Dish")];
    entry "Tentacruel" ["Water"; "Poison"] "OU" "Blue"
          [("0", "Clear Body"); ("1", "Liquid Ooze"); ("DW", "Rain Dish")];
    entry "Slowpoke" ["Water"; "Psychic"] "LC" "Pink"
          [("0", "Oblivious"); ("1", "Own Tempo"); ("DW", "Regenerator")];
    entry "Slowbro" ["Water"; "Psychic"] "UU" "Pink"
          [("0", "Oblivious"); ("1", "Own Tempo"); ("DW", "Regenerator")];
    Demo.gastly;
    entry "Seel" ["Water"] "LC" "White"
          [("0", "Thick Fat"); ("1", "Hydration"); ("DW", "Ice Body")];
    entry "Dewgong" ["Water"; "Ice"] "NU" "White"
          [("0", "Thick Fat"); ("1", "Hydration"); ("DW", "Ice Body")];
    entry "Shellder" ["Water"] "LC" "Purple"
          [("0", "Shell Armor"); ("1", "Skill Link"); ("DW", "Overcoat")];
    entry "Cloyster" ["Water"; "Ice"] "OU" "Purple"
          [("0", "Shell Armor"); ("1", "Skill Link"); ("DW", "Overcoat")];
    entry "Krabby" ["Water"] "LC" "Red"
          [("0", "Hyper Cutter"); ("1", "Shell Armor"); ("DW", "Sheer Force")];
    entry "Kingler" ["Water"] "NU" "Red"
          [("0", "Hyper Cutter"); ("1", "Shell Armor"); ("DW", "Sheer Force")];
    entry "Horsea" ["Water"] "LC" "Blue"
          [("0", "Swift Swim"); ("1", "Sniper"); ("DW", "Damp")];
    entry "Seadra" ["Water"] "NFE" "Blue"
          [("0", "Poison Point"); ("1", "Sniper"); ("DW", "Damp")];
    entry "Goldeen" ["Water"] "LC" "Red"
          [("0", "Swift Swim"); ("1", "Water Veil"); ("DW", "Lightningrod")];
    entry "Seaking" ["Water"] "NU" "Red"
          [("0", "Swift Swim"); ("1", "Water Veil"); ("DW", "Lightningrod")];
    entry "Staryu" ["Water"] "LC" "Brown"
          [("0", "Illuminate"); ("1", "Natural Cure"); ("DW", "Analytic")] ].

Definition pokedex : list string := map t_id allSpecies.

Definition getTemplate (raw : string) : Template :=
  let id := Demo.toId raw in
  match find (fun t => String.eqb (t_id t) id) allSpecies with
  | Some t => t
  | None => mkTemplate false id (JS.trim raw) (JS.trim raw) [] "" "" [] 0 false
  end.

(** the names as they are, for a second run next to [Demo.shuffle] *)
Definition unshuffled (names : list string) : list string := names.

Definition dexsearch (shuffle : list string -> list string) (target : string) : Reply :=
  dexsearch Demo.getMove Demo.getAbility Demo.inTypeChart pokedex getTemplate Demo.Lset
            Demo.checkLearnset Demo.newLsetData false shuffle target.

End DemoWater.

(** ** A catalog that lists an ability twice

    Six species whose one ability is Levitate, in a catalog that gives
    it for the first slot and again for the hidden one. *)

Module DemoSlots.

Definition entry (name : string) (types : list string) (tier color : string) : Template :=
  mkTemplate true (Demo.toId name) name name types tier color
             [("0", "Levitate"); ("DW", "Levitate")] 1 false.

Definition allSpecies : list Template :=
  [ entry "Gastly" ["Ghost"; "Poison"] "LC" "Purple";
    entry "Haunter" ["Ghost"; "Poison"] "NFE" "Purple";
    entry "Gengar" ["Ghost"; "Poison"] "OU" "Purple";
    entry "Koffing" ["Poison"] "LC" "Purple";
    entry "Weezing" ["Poison"] "NU" "Purple";
    entry "Misdreavus" ["Ghost"] "NU" "Gray" ].

Definition pokedex : list string := map t_id allSpecies.

Definition getTemplate (raw : string) : Template :=
  let id := Demo.toId raw in
  match find (fun t => String.eqb (t_id t) id) allSpecies with
  | Some t => t
  | None => mkTemplate false id (JS.trim raw) (JS.trim raw) [] "" "" [] 0 false
  end.

Definition dexsearch (target : string) : Reply :=
  dexsearch Demo.getMove Demo.getAbility Demo.inTypeChart pokedex getTemplate Demo.Lset
            Demo.checkLearnset Demo.newLsetData false Demo.shuffle target.

End DemoSlots.

(** ** The vocabulary of the specification *)

(** The six filter categories. *)
Inductive Kind := KMove | KAbility | KTier | KColour | KGen | KType.

(** What a token can be classified as: a member of a category, or the
    [all] flag. *)
Inductive Class := Member (k : Kind) | AllFlag.

Definition Kind_eqb (a b : Kind) : bool :=
  match a, b with
  | KMove, KMove | KAbility, KAbility | KTier, KTier
  | KColour, KColour | KGen, KGen | KType, KType => true
  | _, _ => false
  end.

Definition allKinds : list Kind := [KMove; KAbility; KTier; KColour; KGen; KType].

(** the object that holds a category *)
Definition category (k : Kind) (q : Query) : JS.obj :=
  match k with
  | KMove => moves q
  | KAbility => ability q
  | KTier => tiers q
  | KColour => colours q
  | KGen => gens q
  | KType => qtypes q
  end.

Definition setCategory (k : Kind) (q : Query) (o : JS.obj) (n : nat) : Query :=
  match k with
  | KMove => mkQuery o (ability q) (tiers q) (colours q) (gens q) (qtypes q) n (showAll q)
  | KAbility => mkQuery (moves q) o (tiers q) (colours q) (gens q) (qtypes q) n (showAll q)
  | KTier => mkQuery (moves q) (ability q) o (colours q) (gens q) (qtypes q) n (showAll q)
  | KColour => mkQuery (moves q) (ability q) (tiers q) o (gens q) (qtypes q) n (showAll q)
  | KGen => mkQuery (moves q) (ability q) (tiers q) (colours q) o (qtypes q) n (showAll q)
  | KType => mkQuery (moves q) (ability q) (tiers q) (colours q) (gens q) o n (showAll q)
  end.

(** the cardinality limit of a category and the reply when a token
    would exceed it *)
Definition limit (k : Kind) : option (nat * string) :=
  match k with
  | KMove => Some (4, msgMoveLimit)
  | KAbility => Some (1, msgAbilityLimit)
  | KType => Some (2, msgTypeLimit)
  | _ => None
  end.

(** the members of a category object: its own keys apart from the
    counter that shares the object *)
Definition members (o : JS.obj) : list string :=
  filter (fun k => negb (String.eqb k "count")) (JS.keys o).

(** the names that are never members: the counter and what every object
    inherits *)
Definition reserved (k : string) : bool :=
  String.eqb k "count" || JS.mem k JS.objectPrototypeKeys.

(** the number of populated categories *)
Definition npop (q : Query) : nat :=
  length (filter (fun k => populated (category k q)) allKinds).

(** the order in which the evaluator applies the categories *)
Definition evalOrder : list Kind := [KType; KTier; KAbility; KColour; KMove; KGen].

Section Vocabulary.

Variable getMove : string -> Effect.
Variable getAbility : string -> Effect.
Variable inTypeChart : string -> bool.
Variable broadcasting : bool.

(** the trimmed, lower-case token of line 647 *)
Definition normal (raw : string) : string := JS.toLowerCase (JS.trim raw).

(** does a token pass the test of a class? *)
Definition recognises (c : Class) (raw : string) : bool :=
  match c with
  | Member KMove => e_exists (getMove raw)
  | Member KAbility => e_exists (getAbility raw)
  | Member KTier => JS.has (normal raw) allTiers
  | Member KColour => JS.has (normal raw) allColours
  | Member KGen => isGen (JS.parseInt (normal raw))
  | AllFlag => String.eqb (normal raw) "all"
  | Member KType =>
      match JS.indexOf " type" (normal raw) with
      | Some idx => inTypeChart (typeName (normal raw) idx)
      | None => false
      end
  end.

(** the priority order of the classes *)
Definition priority : list Class :=
  [Member KMove; Member KAbility; Member KTier; Member KColour; Member KGen;
   AllFlag; Member KType].

(** the class of a token: the first one in priority order that
    recognises it *)
Definition classOf (raw : string) : option Class :=
  find (fun c => recognises c raw) priority.

(** the key under which a token of a category is stored *)
Definition memberKey (k : Kind) (raw : string) : string :=
  match k with
  | KMove => e_name (getMove raw)
  | KAbility => e_name (getAbility raw)
  | KTier | KColour => normal raw
  | KGen => genKey (JS.parseInt (normal raw))
  | KType =>
      match JS.indexOf " type" (normal raw) with
      | Some idx => typeName (normal raw) idx
      | None => EmptyString
      end
  end.

(** adding one member to a category, with its limit *)
Definition accumulate (k : Kind) (key : string) (q : Query) : Query + Reply :=
  let (o, n) := populate (category k q) (count q) in
  match limit k with
  | Some (m, msg) =>
      if countIs o m then inr (SendReply msg)
      else inl (setCategory k q (addMember o key) n)
  | None => inl (setCategory k q (addMember o key) n)
  end.

(** the tokens of a list that belong to a category *)
Definition isOf (k : Kind) (raw : string) : bool :=
  match classOf raw with
  | Some (Member k') => Kind_eqb k k'
  | _ => false
  end.

Definition tokensOf (k : Kind) (targets : list string) : list string :=
  filter (isOf k) targets.

(** the tokens that set the [all] flag *)
Definition isAllToken (raw : string) : bool :=
  match classOf raw with
  | Some AllFlag => true
  | _ => false
  end.

End Vocabulary.

Definition setAll (q : Query) : Query :=
  mkQuery (moves q) (ability q) (tiers q) (colours q) (gens q) (qtypes q) (count q) true.

(** a category object after [n] tokens of its kind *)
Definition objInv (o : JS.obj) (n : nat) : Prop :=
  match n with
  | 0 => o = []
  | S _ => countOf o = Some n /\ NoDup (JS.keys o) /\ length (members o) <= n
  end.

(** a query after [c k] tokens of each kind [k] *)
Definition queryInv (q : Query) (c : Kind -> nat) : Prop :=
  (forall k, objInv (category k q) (c k))
  /\ count q = length (filter (fun k => 0 <? c k) allKinds).

(** a species that is not shut out of every search: never tier
    [Illegal], and tier [CAP] only when [cap] is a requested tier *)
Definition admissible (q : Query) (sp : Template) : bool :=
  negb (String.eqb (tier sp) "Illegal")
  && (negb (String.eqb (tier sp) "CAP") || JS.mem "cap" (members (tiers q))).

(** the result of the loop, wrapped as the variable [results] *)
Definition wrap (r : list Template + Reply) : option (list Template) + Reply :=
  match r with
  | inl rs => inl (Some rs)
  | inr e => inr e
  end.

(** the type slots of a species hold one proper type name, or two
    different ones *)
Definition typesOk (sp : Template) : bool :=
  match types sp with
  | [a] => negb (reserved a)
  | [a; b] => negb (reserved a) && negb (reserved b) && negb (String.eqb a b)
  | _ => false
  end.

Section Stages.

Variable getMove : string -> Effect.
Variable getAbility : string -> Effect.
Variable pokedex : list string.
Variable getTemplate : string -> Template.
Variable LsetData : Type.
Variable checkLearnset : Effect -> Template -> LsetData -> bool * LsetData.
Variable newLsetData : LsetData.

(** the filter of a category, applied to a working set *)
Definition stage (k : Kind) (o : JS.obj) (temp : list Template) : list Template + Reply :=
  match k with
  | KType => inl (byTypes o temp)
  | KTier => inl (byTiers o temp)
  | KAbility => inl (byAbility getAbility o temp)
  | KColour => inl (byColours o temp)
  | KMove => byMoves getMove getTemplate LsetData checkLearnset newLsetData o temp
  | KGen => inl (byGens o temp)
  end.

(** Apply the populated categories of a list, each once, in the order
    of the list; an abort ends the run. *)
Fixpoint runStages (ks : list Kind) (q : Query) (temp : list Template)
    : list Template + Reply :=
  match ks with
  | [] => inl temp
  | k :: rest =>
      if populated (category k q) then
        match stage k (category k q) temp with
        | inl temp' => runStages rest q temp'
        | inr r => inr r
        end
      else runStages rest q temp
  end.

(** the moves a [moves] object asks for, in the order they were given:
    what [Tools.getMove] returns for its keys, the counter left out *)
Definition requestedOf (ks : list string) : list Effect :=
  filter (fun m => negb (String.eqb (e_id m) "count")) (map getMove ks).

Definition requested (o : JS.obj) : list Effect := requestedOf (JS.keys o).

(** The legality engine accepts every move of a list for a species,
    asked in order with the record it keeps between the calls. *)
Fixpoint learnsAll (ms : list Effect) (template : Template) (l : LsetData) : bool :=
  match ms with
  | [] => true
  | m :: rest =>
      let (p, l') := checkLearnset m template l in
      if p then false else learnsAll rest template l'
  end.

(** How many times the filter of a category puts a species of the
    working set into the result (lines 720-780): once when its test
    holds, and for the abilities once for each slot whose test holds. *)
Definition adds (k : Kind) (q : Query) (sp : Template) : nat :=
  match k with
  | KType =>
      if (if countIs (qtypes q) 1
          then JS.has (slot (types sp) 0) (qtypes q) || JS.has (slot (types sp) 1) (qtypes q)
          else JS.has (slot (types sp) 0) (qtypes q) && JS.has (slot (types sp) 1) (qtypes q))
      then 1 else 0
  | KTier => if JS.has (JS.toLowerCase (tier sp)) (tiers q) then 1 else 0
  | KAbility =>
      length (filter (fun a => JS.has (e_name (getAbility (snd a))) (ability q))
                     (abilities sp))
  | KColour => if JS.has (JS.toLowerCase (color sp)) (colours q) then 1 else 0
  | KMove =>
      if learnsAll (requested (moves q)) (getTemplate (t_id sp)) newLsetData then 1 else 0
  | KGen => if JS.has (JS.numToString (gen sp)) (gens q) then 1 else 0
  end.

(** how many times a species of the working set is in the result after
    the populated categories of a list *)
Fixpoint weight (ks : list Kind) (q : Query) (sp : Template) : nat :=
  match ks with
  | [] => 1
  | k :: rest =>
      (if populated (category k q) then adds k q sp else 1) * weight rest q sp
  end.

(** The list that the evaluator returns for a query with a populated
    category when it does not abort: the species of the first pass, in
    the order of the catalog, each as often as the filters add it. *)
Definition entries (q : Query) : list Template :=
  flat_map (fun sp => repeat sp (weight evalOrder q sp))
           (filter (admissible q) (map getTemplate pokedex)).

(** A species satisfies a category, as the specification has it: it has
    every requested type; its tier, its colour or its generation is a
    member of the category; one of its ability slots holds a requested
    ability; the legality engine accepts every requested move. *)
Definition satisfies (k : Kind) (q : Query) (sp : Template) : bool :=
  let ms := members (category k q) in
  match k with
  | KType => forallb (fun T => JS.mem T (types sp)) ms
  | KTier => JS.mem (JS.toLowerCase (tier sp)) ms
  | KAbility =>
      existsb (fun a => JS.mem (e_name (getAbility (snd a))) ms) (abilities sp)
  | KColour => JS.mem (JS.toLowerCase (color sp)) ms
  | KMove => learnsAll (requested (moves q)) (getTemplate (t_id sp)) newLsetData
  | KGen => JS.mem (JS.numToString (gen sp)) ms
  end.

(** a species satisfies every populated category *)
Definition satisfiesAll (q : Query) (sp : Template) : bool :=
  forallb (fun k => negb (populated (category k q)) || satisfies k q sp) allKinds.

(** the ability slots of a species that hold a requested ability *)
Definition matchingSlots (q : Query) (sp : Template) : list (string * string) :=
  filter (fun a => JS.mem (e_name (getAbility (snd a))) (members (ability q)))
         (abilities sp).

(** how many times the result lists a species that satisfies the query:
    once, and once for each matching slot when an ability is requested *)
Definition copies (q : Query) (sp : Template) : nat :=
  if populated (ability q) then length (matchingSlots q sp) else 1.

(** the species of the catalog that a query asks for, in the order of
    the catalog, and the list in which the evaluator returns them *)
Definition matching (q : Query) : list Template :=
  filter (fun sp => admissible q sp && satisfiesAll q sp) (map getTemplate pokedex).

Definition listing (q : Query) : list Template :=
  flat_map (fun sp => repeat sp (copies q sp)) (matching q).

(** The attributes of a species are proper names: none is [count] or a
    name that every object inherits. *)
Definition speciesOk (sp : Template) : bool :=
  negb (reserved (JS.toLowerCase (tier sp)))
  && negb (reserved (JS.toLowerCase (color sp)))
  && negb (reserved (slot (types sp) 0))
  && negb (reserved (slot (types sp) 1))
  && forallb (fun a => negb (reserved (e_name (getAbility (snd a))))) (abilities sp).

(** A record of the catalog as the game data has them: proper names for
    its attributes, one type or two different ones, and a tier and a
    colour in ASCII. *)
Definition wellFormed (sp : Template) : bool :=
  speciesOk sp && typesOk sp && JS.isAscii (tier sp) && JS.isAscii (color sp).

End Stages.

(** a list of strings without a repetition *)
Fixpoint distinct (l : list string) : bool :=
  match l with
  | [] => true
  | x :: r => negb (JS.mem x r) && distinct r
  end.

(** the names of the abilities in the slots of a species *)
Definition slotNames (getAbility : string -> Effect) (sp : Template) : list string :=
  map (fun a => e_name (getAbility (snd a))) (abilities sp).

(** the names of a list, each one but the first after a comma and a
    space *)
Definition commaSeparated (names : list string) : string :=
  match names with
  | [] => EmptyString
  | x :: rest => x ++ String.concat EmptyString (map (fun y => ", " ++ y) rest)
  end.

(** the keywords of the tiers and of the colours *)
Definition tierKeywords : list string :=
  ["uber"; "ou"; "uu"; "ru"; "nu"; "lc"; "cap"; "bl"; "bl2"; "nfe"; "limbo"].

Definition colourKeywords : list string :=
  ["green"; "red"; "blue"; "white"; "brown"; "yellow"; "purple"; "pink"; "gray"; "black"].

Section Tests.

Variable getMove : string -> Effect.
Variable getAbility : string -> Effect.
Variable inTypeChart : string -> bool.

(** The test of a class as the specification has it: the lookup of the
    token as a move or as an ability; the trimmed token in lower case is
    a keyword of the tiers or of the colours; the integer at its head is
    between 1 and 5; it is [all]; it has [" type"] in it after the name
    of a type of the chart. *)
Definition passes (c : Class) (raw : string) : bool :=
  match c with
  | Member KMove => e_exists (getMove raw)
  | Member KAbility => e_exists (getAbility raw)
  | Member KTier => JS.mem (normal raw) tierKeywords
  | Member KColour => JS.mem (normal raw) colourKeywords
  | Member KGen => isGen (JS.parseInt (normal raw))
  | AllFlag => String.eqb (normal raw) "all"
  | Member KType =>
      match JS.indexOf " type" (normal raw) with
      | Some idx => inTypeChart (typeName (normal raw) idx)
      | None => false
      end
  end.

End Tests.

(** *** Decimal numerals *)

Definition isDecimalDigit (c : ascii) : bool :=
  (48 <=? nat_of_ascii c) && (nat_of_ascii c <=? 57).

Fixpoint allDigits (s : string) : bool :=
  match s with
  | EmptyString => true
  | String c r => isDecimalDigit c && allDigits r
  end.

(** does a string begin with a decimal digit? *)
Definition startsWithDigit (s : string) : bool :=
  match s with
  | EmptyString => false
  | String c _ => isDecimalDigit c
  end.

(** the number that a string of decimal digits writes, after [a] *)
Fixpoint valueOnto (s : string) (a : Z) : Z :=
  match s with
  | EmptyString => a
  | String c r => valueOnto r (a * 10 + Z.of_nat (nat_of_ascii c - 48))%Z
  end.

Definition decimalValue (s : string) : Z := valueOnto s 0%Z.

(** *** Runs of sources *)

(** A run: the sources of one generation and one acquisition method,
    each with its detail (the text after the two characters). *)
Record Run := mkRun {
  r_gen : ascii;
  r_method : ascii;
  r_details : list string
}.

Definition tag (g m : ascii) (detail : string) : string := String g (String m detail).

Definition runType (r : Run) : string := String (r_gen r) (String (r_method r) EmptyString).

Definition tagsOf (r : Run) : list string := map (tag (r_gen r) (r_method r)) (r_details r).

(** the details that a run lists: all of them, but for an empty first one *)
Definition shownDetails (details : list string) : list string :=
  match details with
  | EmptyString :: rest => rest
  | _ => details
  end.

(** The line of a run when at most [k] details are listed before the
    ellipsis; in exhaustive mode all of them are listed. *)
Definition renderRunUpTo (k : nat) (all hidden : bool) (r : Run) : string :=
  "<li>gen " ++ String (r_gen r) EmptyString ++ " "
  ++ sourceNames (String (r_method r) EmptyString)
  ++ (if String.eqb (runType r) "5E" && hidden then " (cannot have hidden ability)"
      else EmptyString)
  ++ match shownDetails (r_details r) with
     | [] => EmptyString
     | shown =>
         ": " ++ JS.join ", " (if all then shown else firstn k shown)
         ++ (if negb all && (k <? length shown) then ", ..." else EmptyString)
     end.

(** the line of a run as the command writes it *)
Definition renderRun : bool -> bool -> Run -> string := renderRunUpTo 4.

(** Modelled from the spec: the line of a run as the specification words
    it, "truncating same-generation/method runs after 3 entries with an
    ellipsis". *)
Definition renderRunSpec : bool -> bool -> Run -> string := renderRunUpTo 3.

(** a list of runs, none empty, no two neighbours of the same type, the
    first one of another type than [prev] *)
Fixpoint properRuns (prev : option string) (runs : list Run) : bool :=
  match runs with
  | [] => true
  | r :: rest =>
      match r_details r with [] => false | _ => true end
      && match prev with
         | Some p => negb (String.eqb (runType r) p)
         | None => true
         end
      && properRuns (Some (runType r)) rest
  end.

(** what the loop appends for the further sources of a run when the
    counter of the run stands at [c] *)
Fixpoint extra (all : bool) (c : nat) (details : list string) : string :=
  match details with
  | [] => EmptyString
  | d :: rest =>
      (if all || (c <? 3) then ", " ++ d
       else if c =? 3 then ", ..." else EmptyString)
      ++ extra all (S c) rest
  end.

Section Legal.

Variable getMove : string -> Effect.
Variable LsetData : Type.
Variable checkLearnset : Effect -> Template -> LsetData -> bool * LsetData.

(** The moves of a list are all moves of the data set and the legality
    engine, asked for each in the order of the list with the record it
    keeps, accepts each: the record after the last one, or [None]. *)
Fixpoint legalRun (ts : list string) (template : Template) (l : LsetData)
    : option LsetData :=
  match ts with
  | [] => Some l
  | t :: rest =>
      if e_exists (getMove t) then
        let (p, l') := checkLearnset (getMove t) template l in
        if p then None else legalRun rest template l'
      else None
  end.

End Legal.

(** ** The challenge queue of the league (lines 364-418 and 447-502)

    A gym leader keeps the list [challengers] of the users that wait
    for a battle.  The user objects are external ([Users.get]); what the
    commands read and write of them is kept in a [UserState] for each
    user id. *)

Record UserState := mkUser {
  u_name : string;
  u_connected : bool;
  u_gymopen : bool;
  u_noinscription : bool;
  (** [challengers]: an array, or [undefined] while none was made *)
  u_challengers : option (list string)
}.

(** the user objects, by [userid] *)
Definition Users := string -> UserState.

(** [user.challengers = c] for the user object with the id [id] *)
Definition setChallengers (users : Users) (id : string) (c : option (list string)) : Users :=
  fun x =>
    if String.eqb x id
    then mkUser (u_name (users id)) (u_connected (users id)) (u_gymopen (users id))
                (u_noinscription (users id)) c
    else users x.

(** [a.indexOf(x)]: [None] stands for [-1] *)
Fixpoint indexOf (x : string) (a : list string) : option nat :=
  match a with
  | [] => None
  | y :: r => if String.eqb y x then Some 0 else option_map S (indexOf x r)
  end.

(** [a.splice(i, 1)] *)
Fixpoint removeAt (i : nat) (a : list string) : list string :=
  match i, a with
  | _, [] => []
  | 0, _ :: r => r
  | S i', y :: r => y :: removeAt i' r
  end.

(** [a.toString()] on an array of strings *)
Definition arrayToString (a : list string) : string := JS.join "," a.

Definition msgSolo (name : string) : string :=
  "Solo " ++ name ++ " esta aceptando desafios ahora.".
Definition msgDisponibles (names : string) : string :=
  "Los siguientes lideres estan aceptando desafios ahora: " ++ names.
Definition msgNingunLider : string := "Ningun lider esta aceptando desafios.".
Definition msgNoDisponible : string :=
  "El lider que quieres retar no esta disponible o no existe. Para consultar los lideres existentes, escribe /lideres. Para ver los lideres disponibles, escribe /retarlider".
Definition msgErrorDesafio : string := "Ocurrio un error al intentar enviar el desafio.".
Definition msgInscripcionCerrada : string :=
  "El lider que quieres desafiar tiene una larga lista de retadores y ha decidido cerrar la inscripcion a su gimnasio por hoy".
Definition msgDesafioEnviado (name : string) (turno : nat) : string :=
  "Has enviado tu desafio al lider " ++ name ++ ". Tu turno es: " ++ JS.numToString turno.
Definition msgDesafioYaEnviado (name : string) (turno : nat) : string :=
  "Tu desafio ya ha sido enviado. Espera pacientemente. Tu turno es: "
  ++ JS.numToString turno
  ++ ". Si deseas cancelar tu desafio, utiliza el comando /cancelardesafio " ++ name.
Definition msgNadieDesafio (abierto : bool) : string :=
  "Nadie te ha desafiado. El estado de tu gimnasio es "
  ++ (if abierto then "abierto." else "cerrado.").
Definition msgRetos (nombres : string) : string :=
  "Los siguientes usuarios te han desafiado, del mas antiguo al mas reciente: " ++ nombres.
Definition msgNoExiste : string := "Ese usuario no existe o no esta presente.".
Definition msgSinRetadores : string := "Este usuario no tiene retadores.".
Definition msgNoDesafiabas (name : string) : string := "No estabas desafiando a " ++ name.
Definition msgCancelado (name : string) : string := "Has cancelado tu desafio a " ++ name.
Definition msgNadieDesafiaba : string := "Nadie te estaba desafiando".
Definition msgNoTeDesafiaba (target : string) : string :=
  target ++ " no te estaba desafiando. Revisa tu lista de espera con el comando /retos".
Definition msgEliminado (target : string) : string :=
  "El usuario " ++ target ++ " ha sido eliminado de tu lista de espera".
Definition msgTodaviaEsta : string :=
  "Ese usuario todavia esta en el servidor. Si deseas, puedes cederle el turno a otro de tus retadores hasta que regrese.".
Definition msgEliminados (cleared : string) : string :=
  "Los siguientes retadores han sido eliminados de tu lista de espera: " ++ cleared.
Definition msgVaciada : string := "Tu lista de espera ha sido vaciada".
Definition msgParametro (target : string) : string :=
  target ++ " no es un parametro valido. Si deseas eliminar toda tu lista de espera, utiliza el comando /clearlist all. Si quieres eliminar de tu lista a un retador en particular, utiliza el comando /cancelardesafio [nombre]".

Section League.

(** the global [toId] *)
Variable toId : string -> string.
(** [tour.lideres()], the ids of the gym leaders, and [tour.username] *)
Variable lideres : list string.
Variable username : string -> string.
(** [Users.get(x)]: the id of the user object it returns, if any *)
Variable who : string -> option string.
(** [this.canBroadcast()] *)
Variable canBroadcast : bool.

(** the names of the leaders whose gym is open (lines 365-371) *)
Definition disponibles (users : Users) : list string :=
  flat_map (fun lider =>
    match who lider with
    | Some id => if u_gymopen (users id) then [u_name (users id)] else []
    | None => []
    end) lideres.

(** [lideresdisponibles], run by the user [userid]: the users after the
    command and its reply, if there is one (lines 364-405) *)
Definition lideresdisponibles (users : Users) (userid target : string)
    : Users * option Reply :=
  let disp := disponibles users in
  if String.eqb target "" then
    if negb canBroadcast then (users, None)
    else if length disp =? 1 then (users, Some (SendReply (msgSolo (hd "" disp))))
    else if negb (length disp =? 0)
         then (users, Some (SendReply (msgDisponibles (arrayToString disp))))
    else (users, Some (SendReply msgNingunLider))
  else
    let target := toId target in
    let matched := existsb (fun d => String.eqb (toId d) target) disp in
    if negb matched then (users, Some (SendReply msgNoDisponible))
    else
      match who target with
      | None => (users, Some (SendReply msgErrorDesafio))
      | Some rid =>
          let retado := users rid in
          let ch := match u_challengers retado with Some c => c | None => [] end in
          match indexOf userid ch with
          | None =>
              if u_noinscription retado
              then (setChallengers users rid (Some ch), Some (SendReply msgInscripcionCerrada))
              else (setChallengers users rid (Some (ch ++ [userid])%list),
                    Some (SendReply (msgDesafioEnviado (u_name retado) (length ch + 1))))
          | Some index =>
              (setChallengers users rid (Some ch),
               Some (SendReply (msgDesafioYaEnviado (u_name retado) (index + 1))))
          end
      end.

(** [retos], run by the user [userid] (lines 411-418); the comparison
    [user.challengers === []] of an array with a fresh one is false *)
Definition retos (users : Users) (userid : string) : Reply :=
  match u_challengers (users userid) with
  | None => SendReply (msgNadieDesafio (u_gymopen (users userid)))
  | Some ch => SendReply (msgRetos (arrayToString (map username ch)))
  end.

(** [!targetUser || !targetUser.connected] for [targetUser = Users.get(id)] *)
Definition unfound (users : Users) (id : string) : bool :=
  match who id with
  | Some tid => negb (u_connected (users tid))
  | None => true
  end.

(** [cancelarreto], run by the user [userid] (lines 447-475) *)
Definition cancelarreto (users : Users) (userid target : string) : Users * Reply :=
  let user := users userid in
  if negb (u_gymopen user) then
    let target := toId target in
    match who target with
    | None => (users, SendReply msgNoExiste)
    | Some tid =>
        match u_challengers (users tid) with
        | None => (users, SendReply msgSinRetadores)
        | Some ch =>
            match indexOf userid ch with
            | None => (users, SendReply (msgNoDesafiabas (u_name (users tid))))
            | Some index =>
                (setChallengers users tid (Some (removeAt index ch)),
                 SendReply (msgCancelado (u_name (users tid))))
            end
        end
    end
  else
    let target := toId target in
    match u_challengers user with
    | None => (users, SendReply msgNadieDesafiaba)
    | Some ch =>
        match indexOf target ch with
        | None => (users, SendReply (msgNoTeDesafiaba target))
        | Some index =>
            if unfound users target
            then (setChallengers users userid (Some (removeAt index ch)),
                  SendReply (msgEliminado target))
            else (users, SendReply msgTodaviaEsta)
        end
    end.

(** The loop of lines 483-493: [i] walks through [challengers]; an
    inactive challenger is moved to [cleared] and spliced out, so the
    next one takes its index.  Every round removes an element or moves
    [i] forward: the length of the array is fuel enough. *)
Fixpoint clearLoop (fuel i : nat) (users : Users) (challengers cleared : list string)
    : list string * list string :=
  match fuel with
  | 0 => (challengers, cleared)
  | S fuel' =>
      if i <? length challengers then
        let loopid := nth i challengers "" in
        if unfound users loopid
        then clearLoop fuel' i users (removeAt i challengers) (cleared ++ [loopid])%list
        else clearLoop fuel' (i + 1) users challengers cleared
      else (challengers, cleared)
  end.

(** [clearlist], run by the user [userid] (lines 479-502); the
    comparison [cleared === []] is false *)
Definition clearlist (users : Users) (userid target : string) : Users * Reply :=
  match u_challengers (users userid) with
  | None => (users, SendReply msgNadieDesafiaba)
  | Some ch =>
      if String.eqb target "" then
        let (kept, cleared) := clearLoop (length ch) 0 users ch [] in
        (setChallengers users userid (Some kept),
         SendReply (msgEliminados (arrayToString cleared)))
      else if String.eqb target "all" then
        (setChallengers users userid (Some []), SendReply msgVaciada)
      else (users, SendReply (msgParametro target))
  end.

End League.

(** The commands that write a list of challengers, each with the id of
    the user that runs it and its target, and the users after a series
    of them. *)
Inductive QueueCommand :=
  | Retar (userid target : string)
  | Cancelar (userid target : string)
  | Limpiar (userid target : string).

Section QueueRuns.

Variable toId : string -> string.
Variable lideres : list string.
Variable who : string -> option string.
Variable canBroadcast : bool.

Definition runQueue (users : Users) (c : QueueCommand) : Users :=
  match c with
  | Retar userid target => fst (lideresdisponibles toId lideres who canBroadcast users userid target)
  | Cancelar userid target => fst (cancelarreto toId who users userid target)
  | Limpiar userid target => fst (clearlist who users userid target)
  end.

Definition runQueues (users : Users) (cs : list QueueCommand) : Users :=
  fold_left runQueue cs users.

End QueueRuns.

(** the list of a user, empty while it was not made *)
Definition queueOf (users : Users) (id : string) : list string :=
  match u_challengers (users id) with
  | Some c => c
  | None => []
  end.

(** what one command makes of the list of the user [id]: the list as it
    was, the list with one more challenger at its end, the list without
    one of its elements, or a part of the list in the same order *)
Inductive QueueChange (old : list string) : list string -> Prop :=
  | QueueKept : QueueChange old old
  | QueueJoined x : ~ In x old -> QueueChange old (old ++ [x])%list
  | QueueLeft i : QueueChange old (removeAt i old)
  | QueueCleared p : QueueChange old (filter p old).

(** ** Opening and closing a gym and its inscription: [abrirliga]
    (lines 321-336, which replace the same text of lines 302-317),
    [cerrarliga] (lines 340-354), [closereg] (lines 523-539) and
    [openreg] (lines 544-560) *)

(** the two rooms the commands announce in *)
Inductive Room := Lobby | Liga.

(** [user.gymopen = b] and [user.noinscription = b] for the user object
    with the id [id] *)
Definition setGymopen (users : Users) (id : string) (b : bool) : Users :=
  fun x =>
    if String.eqb x id
    then mkUser (u_name (users id)) (u_connected (users id)) b
                (u_noinscription (users id)) (u_challengers (users id))
    else users x.

Definition setNoinscription (users : Users) (id : string) (b : bool) : Users :=
  fun x =>
    if String.eqb x id
    then mkUser (u_name (users id)) (u_connected (users id)) (u_gymopen (users id))
                b (u_challengers (users id))
    else users x.

(** [a[i]] inside a concatenation for the result [i] of an [indexOf]:
    [undefined] for [-1] and past the end *)
Definition at_ (a : list string) (i : option nat) : string :=
  match i with
  | Some n => slot a n
  | None => "undefined"
  end.

Definition msgDesdeCuando (userid : string) : string :=
  "Desde cuando eres lider? Verifica si tu ID esta registrado ante la Liga con el comando /lideresid. Tu ID actual es " ++ userid.
Definition msgDesdeCuandoCerrar (userid : string) : string :=
  "Desde cuando eres lider? Verifica si tu ID esta  registrado ante la Liga con el comando /lideresid. Tu ID actual es " ++ userid.
Definition msgAhoraDisponible : string :=
  "Ahora estas disponible para desafios. Utiliza el comando /retos para ver quienes quieren luchar contra ti y en que orden.".
Definition msgInscripcionCerradaGimnasio : string :=
  "Has cerrado la inscripcion para luchar en tu gimnasio. Si deseas reabrirla, utiliza el comando /abririnscripcion".
Definition msgInscripcionCerradaElite : string :=
  "Has cerrado la inscripcion para luchar contra ti. Si deseas reabrirla, utiliza el comando /abririnscripcion".
Definition msgInscripcionAbiertaGimnasio : string :=
  "Has abierto la inscripcion para luchar en tu gimnasio. Si deseas cerrarla, utiliza el comando /cerrarinscripcion".
Definition msgInscripcionAbiertaElite : string :=
  "Has abierto la inscripcion para luchar contra ti.  Si deseas cerrarla, utiliza el comando /cerrarinscripcion".

Section Gym.

(** [tour.lideres()], [tour.altomando()] and [tour.cargos()] *)
Variable lideres altomando cargos : list string.
(** whether [Rooms.rooms.lobby] and [Rooms.rooms.ligapokemonhispano] exist *)
Variable lobby liga : bool.

(** what a command adds to the rooms that exist, the lobby first *)
Definition addRaw (inLobby inLiga : string) : list (Room * string) :=
  ((if lobby then [(Lobby, inLobby)] else [])
     ++ (if liga then [(Liga, inLiga)] else []))%list.

Definition abrirliga (users : Users) (userid : string)
    : Users * list (Room * string) * option Reply :=
  let user := users userid in
  let auxlider := indexOf userid lideres in
  let auxelite := indexOf userid altomando in
  match auxlider, auxelite with
  | Some _, _ =>
      (setGymopen users userid true,
       addRaw ("<b>" ++ u_name user ++ ", " ++ at_ cargos auxlider
               ++ ", esta disponible para desafios.</b> Utiliza el comando /retarlider "
               ++ u_name user ++ " si quieres luchar contra el.")
              ("<b>" ++ u_name user ++ ", " ++ at_ cargos auxlider
               ++ ", esta disponible para desafios.</b> Utiliza el comando /retarlider "
               ++ u_name user ++ " si quieres luchar contra el."),
       Some (SendReply msgAhoraDisponible))
  | None, Some _ =>
      (setGymopen users userid true,
       addRaw ("<b>" ++ u_name user
               ++ ", Miembro del Alto Mando de la Liga Pokemon Hispano, esta disponible para  desafios.</b> Utiliza el comando /retarlider "
               ++ u_name user ++ " si quieres luchar contra el.")
              ("<b>" ++ u_name user
               ++ ", Miembro del Alto Mando de la Liga Pokemon Hispano, esta disponible para  desafios.</b> Utiliza el comando /retarlider "
               ++ u_name user ++ " si quieres luchar contra el."),
       None)
  | None, None => (users, [], Some (SendReply (msgDesdeCuando userid)))
  end.

Definition cerrarliga (users : Users) (userid : string)
    : Users * list (Room * string) * option Reply :=
  let user := users userid in
  let auxlider := indexOf userid lideres in
  let auxelite := indexOf userid altomando in
  match auxlider, auxelite with
  | Some _, _ =>
      (setGymopen users userid false,
       addRaw ("<b>" ++ u_name user ++ ", " ++ at_ cargos auxlider
               ++ ", ya no esta disponible para  desafios.</b>")
              ("<b>" ++ u_name user ++ ", " ++ at_ cargos auxlider
               ++ ", ya no esta disponible para desafios.</b>"),
       None)
  | None, Some _ =>
      (setGymopen users userid false,
       addRaw ("<b>" ++ u_name user
               ++ ", Miembro del Alto Mando de la Liga Pokemon Hispano, ya no esta  disponible para  desafios.</b>")
              ("<b>" ++ u_name user
               ++ ",  Miembro del Alto Mando de la Liga Pokemon Hispano, ya no esta disponible para   desafios.</b>"),
       None)
  | None, None => (users, [], Some (SendReply (msgDesdeCuando userid)))
  end.

(** [i > -1] for the result [i] of an [indexOf] *)
Definition found (i : option nat) : bool :=
  match i with
  | Some _ => true
  | None => false
  end.

(** [closereg] (lines 523-539), with its three arms as they are written *)
Definition closereg (users : Users) (userid : string)
    : Users * list (Room * string) * option Reply :=
  let user := users userid in
  let auxlider := indexOf userid lideres in
  let auxelite := indexOf userid altomando in
  if found auxlider || found auxelite then
    (setNoinscription users userid true,
     addRaw ("<b>" ++ u_name user ++ ", " ++ at_ cargos auxlider
             ++ ", solo luchara contra aquellos que se han inscrito apropiadamente hasta ahora.")
            ("<b>" ++ u_name user ++ ", " ++ at_ cargos auxlider
             ++ ", solo luchara contra aquellos que se han  inscrito apropiadamente hasta ahora."),
     Some (SendReply msgInscripcionCerradaGimnasio))
  else if found auxelite then
    (setNoinscription users userid true,
     addRaw ("<b>" ++ u_name user
             ++ ", Miembro del Alto Mando de la Liga Pokemon Hispano, solo luchara contra aquellos que se han inscrito apropiadamente hasta ahora.")
            ("<b>" ++ u_name user
             ++ ", Miembro del Alto Mando de la Liga Pokemon Hispano, solo luchara contra aquellos que se han inscrito apropiadamente hasta ahora."),
     Some (SendReply msgInscripcionCerradaElite))
  else (users, [], Some (SendReply (msgDesdeCuandoCerrar userid))).

(** [openreg] (lines 544-560), with its three arms as they are written *)
Definition openreg (users : Users) (userid : string)
    : Users * list (Room * string) * option Reply :=
  let user := users userid in
  let auxlider := indexOf userid lideres in
  let auxelite := indexOf userid altomando in
  if found auxlider || found auxelite then
    (setNoinscription users userid false,
     addRaw ("<b>" ++ u_name user ++ ", " ++ at_ cargos auxlider
             ++ ", ha reabierto la inscripcion para luchar contra el.")
            ("<b>" ++ u_name user ++ ", " ++ at_ cargos auxlider
             ++ ", ha reabierto la inscripcion para luchar contra el."),
     Some (SendReply msgInscripcionAbiertaGimnasio))
  else if found auxelite then
    (setNoinscription users userid false,
     addRaw ("<b>" ++ u_name user
             ++ ", Miembro del Alto Mando de la Liga Pokemon Hispano, ha reabierto la inscripcion para luchar contra el.")
            ("<b>" ++ u_name user
             ++ ",  Miembro del Alto Mando de la Liga Pokemon Hispano, ha reabierto la inscripcion para luchar contra el."),
     Some (SendReply msgInscripcionAbiertaElite))
  else (users, [], Some (SendReply (msgDesdeCuando userid))).

End Gym.

(** ** Rolling dice: [dice] (lines 1314-1337) *)

Definition msgFacesInteger : string := "The number of faces must be a valid integer.".
Definition msgFacesRange : string := "The number of faces must be between 1 and 1000".
Definition msgDiceRange : string := "The number of dice must be between 1 and 20".
Definition msgMaxRoll : string := "The max roll must be a number under 21 digits.".
Definition msgDice (num faces : nat) (rolls : list nat) (total : nat) : string :=
  "Random number " ++ JS.numToString num ++ "x(1 - " ++ JS.numToString faces ++ "): "
  ++ JS.join ", " (map JS.numToString rolls) ++ "<br />Total: " ++ JS.numToString total.
Definition msgRoll (maxRoll rand : string) : string :=
  "Random number (1 - " ++ maxRoll ++ "): " ++ rand.

Section Dice.

Variable canBroadcast : bool.
(** [Math.floor(faces * Math.random())] at the [i]-th round of the loop *)
Variable random : nat -> nat -> nat.
(** [isNaN(target)] for a string *)
Variable isNaN : string -> bool.
(** the text of [Math.floor(maxRoll * Math.random()) + 1] *)
Variable randText : string -> string.

(** the loop of lines 1327-1330, from round [i] on *)
Fixpoint diceLoop (rounds i faces : nat) (rolls : list nat) (total : nat)
    : list nat * nat :=
  match rounds with
  | 0 => (rolls, total)
  | S rounds' =>
      let r := random i faces + 1 in
      diceLoop rounds' (i + 1) faces (rolls ++ [r])%list (total + r)
  end.

Definition dice (target : string) : option Reply :=
  if negb canBroadcast then None
  else
    match JS.indexOf "d" target with
    | Some d =>
        let num := JS.parseInt (substring 0 d target) in
        let faces := JS.parseInt (JS.substrFrom (d + 1) target) in
        let num := match num with Some n => n | None => 1%Z end in
        match faces with
        | None => Some (SendReply msgFacesInteger)
        | Some faces =>
            if ((faces <? 1) || (faces >? 1000))%Z then Some (SendReply msgFacesRange)
            else if ((num <? 1) || (num >? 20))%Z then Some (SendReply msgDiceRange)
            else
              let (rolls, total) := diceLoop (Z.to_nat num) 0 (Z.to_nat faces) [] 0 in
              Some (SendReplyBox (msgDice (Z.to_nat num) (Z.to_nat faces) rolls total))
        end
    | None =>
        if (negb (String.eqb target "") && isNaN target) || (21 <? String.length target)
        then Some (SendReply msgMaxRoll)
        else
          let maxRoll := if String.eqb target "" then "6" else target in
          Some (SendReplyBox (msgRoll maxRoll (randText maxRoll)))
    end.

End Dice.

(** ** Links to the analyses: [smogdex] (lines 1194-1289) *)

(** [s.replace(from, to)] for one-character strings: the first
    occurrence only *)
Fixpoint replaceFirst (from to : ascii) (s : string) : string :=
  match s with
  | EmptyString => EmptyString
  | String c r => if Ascii.eqb c from then String to r else String c (replaceFirst from to r)
  end.

(** [a[i] || dflt]: a missing or empty entry gives the default *)
Definition orElse (a : list string) (i : nat) (dflt : string) : string :=
  match nth_error a i with
  | Some s => if String.eqb s "" then dflt else s
  | None => dflt
  end.

(** [!a[i]] *)
Definition missing (a : list string) (i : nat) : bool :=
  match nth_error a i with
  | Some s => String.eqb s ""
  | None => true
  end.

(** [(targets[1] || "bw").trim().toLowerCase()] (line 1203) *)
Definition generationText (targets : list string) : string :=
  JS.toLowerCase (JS.trim (orElse targets 1 "bw")).

Definition doublesFormats : JS.obj := [("vgc2012", 1); ("vgc2013", 1); ("doubles", 1)].

(** the name and the number of the generation (lines 1204 and 1208-1224) *)
Definition generationOf (generation : string) : string * nat :=
  if JS.mem generation ["bw"; "bw2"; "5"; "five"] then ("bw", 5)
  else if JS.mem generation ["dp"; "dpp"; "4"; "four"] then ("dp", 4)
  else if JS.mem generation ["adv"; "rse"; "rs"; "3"; "three"] then ("rs", 3)
  else if JS.mem generation ["gsc"; "gs"; "2"; "two"] then ("gs", 2)
  else if JS.mem generation ["rby"; "rb"; "1"; "one"] then ("rb", 1)
  else ("bw", 5).

(** the renaming of the species for the link (lines 1245-1260), one
    test after the other *)
Definition pokeOf (name : string) : string :=
  let poke := JS.toLowerCase name in
  let poke := if String.eqb poke "nidoranm" then "nidoran-m" else poke in
  let poke := if String.eqb poke "nidoranf" then "nidoran-f" else poke in
  let poke := if String.eqb poke "farfetch'd" then "farfetchd" else poke in
  let poke := if String.eqb poke "mr. mime" then "mr_mime" else poke in
  let poke := if String.eqb poke "mime jr." then "mime_jr" else poke in
  let poke := if JS.mem poke ["deoxys-attack"; "deoxys-defense"; "deoxys-speed";
                              "kyurem-black"; "kyurem-white"]
              then JS.substr 0 8 poke else poke in
  let poke := if String.eqb poke "wormadam-trash" then "wormadam-s" else poke in
  let poke := if String.eqb poke "wormadam-sandy" then "wormadam-g" else poke in
  let poke := if JS.mem poke ["rotom-wash"; "rotom-frost"; "rotom-heat"]
              then JS.substr 0 7 poke else poke in
  let poke := if String.eqb poke "rotom-mow" then "rotom-c" else poke in
  let poke := if String.eqb poke "rotom-fan" then "rotom-s" else poke in
  let poke := if JS.mem poke ["giratina-origin"; "tornadus-therian"; "landorus-therian"]
              then JS.substr 0 10 poke else poke in
  let poke := if String.eqb poke "shaymin-sky" then "shaymin-s" else poke in
  let poke := if String.eqb poke "arceus" then "arceus-normal" else poke in
  let poke := if String.eqb poke "thundurus-therian" then "thundurus-t" else poke in
  poke.

Definition smogon : string :=
  ", brought to you by <a href=" ++ dq ++ "http://www.smogon.com" ++ dq
  ++ ">Smogon University</a>".

Definition msgDidNotExist (name generation : string) : string :=
  name ++ " did not exist in " ++ JS.toUpperCase generation ++ "!".

Definition msgPokemon (generation poke doublesFormat doublesText name : string) : string :=
  "<a href=" ++ dq ++ "http://www.smogon.com/" ++ generation ++ "/pokemon/" ++ poke
  ++ doublesFormat ++ dq ++ ">" ++ JS.toUpperCase generation ++ " " ++ doublesText
  ++ name ++ " analysis</a>" ++ smogon.

(** the links to an item, an ability or a move: [kind] is [items],
    [abilities] or [moves], and [word] is [item], [ability] or [move] *)
Definition msgEffect (kind word generation name : string) : string :=
  "<a href=" ++ dq ++ "http://www.smogon.com/" ++ generation ++ "/" ++ kind ++ "/"
  ++ replaceFirst " " "_" (JS.toLowerCase name) ++ dq ++ ">" ++ JS.toUpperCase generation
  ++ " " ++ name ++ " " ++ word ++ " analysis</a>" ++ smogon.

Definition msgNoAnalysis (generation : string) : string :=
  "Pokemon, item, move, or ability not found for generation "
  ++ JS.toUpperCase generation ++ ".".

Section Smogdex.

Variable canBroadcast : bool.
Variable getTemplate : string -> Template.
Variable getItem getMove getAbility : string -> Effect.
(** the [gen] of what [Tools.getItem], [Tools.getMove] and
    [Tools.getAbility] return for a name *)
Variable itemGen moveGen abilityGen : string -> nat.
(** the text of a property that an object literal inherits, as a string
    concatenation shows it *)
Variable inheritedText : string -> string.

(** [{'vgc2012':'VGC 2012 ','vgc2013':'VGC 2013 ','doubles':'Doubles '}[k]]
    inside a concatenation, for [k in doublesFormats] *)
Definition doublesTextOf (k : string) : string :=
  if String.eqb k "vgc2012" then "VGC 2012 "
  else if String.eqb k "vgc2013" then "VGC 2013 "
  else if String.eqb k "doubles" then "Doubles "
  else inheritedText k.

(** the generation, its number, the suffix of the link and the text for
    a doubles format (lines 1203-1233) *)
Definition smogdexFormat (targets : list string) : string * nat * string * string :=
  let generation := generationText targets in
  let doublesFormat :=
    if missing targets 2 && JS.has generation doublesFormats then generation
    else JS.toLowerCase (JS.trim (orElse targets 2 "")) in
  let (generation, genNumber) := generationOf generation in
  if String.eqb doublesFormat "" then (generation, genNumber, "", "")
  else if negb (JS.has generation [("bw", 1); ("xy", 1)])
          || negb (JS.has doublesFormat doublesFormats)
  then (generation, genNumber, "", "")
  else (generation, genNumber, "/" ++ doublesFormat, doublesTextOf doublesFormat).

(** the replies of [smogdex], in the order they are sent *)
Definition smogdex (target : string) : list Reply :=
  if negb canBroadcast then []
  else
    let targets := JS.split "," target in
    let name := nth 0 targets "" in
    let pokemon := getTemplate name in
    let item := getItem name in
    let move := getMove name in
    let ability := getAbility name in
    let '(generation, genNumber, doublesFormat, doublesText) := smogdexFormat targets in
    if t_exists pokemon && (genNumber <? gen pokemon)
    then [SendReplyBox (msgDidNotExist (t_name pokemon) generation)]
    else
      let generation' :=
        if t_exists pokemon
           && (String.eqb (tier pokemon) "G4CAP" || String.eqb (tier pokemon) "G5CAP")
        then "cap" else generation in
      let forPokemon :=
        if t_exists pokemon
        then [SendReplyBox (msgPokemon generation' (pokeOf (t_name pokemon))
                                       doublesFormat doublesText (t_name pokemon))]
        else [] in
      let forItem :=
        if e_exists item && (1 <? genNumber) && (itemGen name <=? genNumber)
        then [SendReplyBox (msgEffect "items" "item" generation' (e_name item))]
        else [] in
      let forAbility :=
        if e_exists ability && (2 <? genNumber) && (abilityGen name <=? genNumber)
        then [SendReplyBox (msgEffect "abilities" "ability" generation' (e_name ability))]
        else [] in
      let forMove :=
        if e_exists move && (moveGen name <=? genNumber)
        then [SendReplyBox (msgEffect "moves" "move" generation' (e_name move))]
        else [] in
      let replies := (forPokemon ++ forItem ++ forAbility ++ forMove)%list in
      match replies with
      | [] => [SendReplyBox (msgNoAnalysis generation')]
      | _ => replies
      end.

End Smogdex.

(** ** Type matchups: [weakness] (lines 869-903) and [effectiveness]
    (lines 906-948) *)

(** [s.split(re)] for a character class [re]: [seps] are its characters *)
Fixpoint splitAny (seps : list ascii) (s : string) : list string :=
  match s with
  | EmptyString => [EmptyString]
  | String c r =>
      if existsb (Ascii.eqb c) seps then EmptyString :: splitAny seps r
      else match splitAny seps r with
           | h :: t => String c h :: t
           | [] => [String c EmptyString]
           end
  end.

Definition msgUnrecognizedType (target : string) : string :=
  target ++ " isn't a recognized type or pokemon.".
Definition msgNoWeaknesses (target : string) : string := target ++ " has no weaknesses.".
Definition msgWeakTo (target : string) (weaknesses : list string) : string :=
  target ++ " is weak to: " ++ JS.join ", " weaknesses ++ " (not counting abilities).".
Definition msgSeparated : string := "Attacker and defender must be separated with a comma.".
Definition msgCombination (a b : string) : string :=
  "'" ++ JS.trim a ++ "' and '" ++ JS.trim b ++ "' aren't a recognized combination.".
Definition msgEffective (type factor defender : string) : string :=
  type ++ " attacks are " ++ factor ++ "x effective against " ++ defender ++ ".".

Section Matchups.

(** [Tools.getTemplate] and [Tools.getType]; the argument is an entry
    of [targets], [None] where the array has none ([undefined]) *)
Variable getTemplate : option string -> Template.
Variable getType : option string -> Effect.
(** [Object.keys(Tools.data.TypeChart)] *)
Variable typeChart : list string.
(** Modelled from the spec: [typeImmunity(attackType, defenderTypes)]
    and [typeEffectiveness(attackType, defenderTypes)] of the dataset
    facade (section 6), which [Tools.getImmunity] and
    [Tools.getEffectiveness] are given the defender for; its [types] is
    what they read.  [getImmunity] is true for a defender that is not
    immune. *)
Variable getImmunity : string -> list string -> bool.
Variable getEffectiveness : string -> list string -> Z.
Variable canBroadcast : bool.
(** the text of [Math.pow(2, typeMod)] in a concatenation *)
Variable powText : Z -> string.

(** what the loop of lines 889-896 pushes for one type of the chart *)
Definition weaknessOf (types : list string) (type : string) : list string :=
  if getImmunity type types then
    let typeMod := getEffectiveness type types in
    app (if Z.eqb typeMod 1 then [type] else [])
        (if Z.eqb typeMod 2 then ["<b>" ++ type ++ "</b>"] else [])
  else [].

Definition weakness (target : string) : Reply :=
  let targets := splitAny [" "; ","; "/"]%char target in
  let pokemon := getTemplate (Some target) in
  let type1 := getType (nth_error targets 0) in
  let type2 := getType (nth_error targets 1) in
  let resolved :=
    if t_exists pokemon then Some (species pokemon, types pokemon)
    else if e_exists type1 && e_exists type2
         then Some (e_id type1 ++ "/" ++ e_id type2, [e_id type1; e_id type2])
    else if e_exists type1 then Some (e_id type1, [e_id type1])
    else None in
  match resolved with
  | None => SendReplyBox (msgUnrecognizedType target)
  | Some (target, types) =>
      let weaknesses := flat_map (weaknessOf types) typeChart in
      if length weaknesses =? 0 then SendReplyBox (msgNoWeaknesses target)
      else SendReplyBox (msgWeakTo target weaknesses)
  end.

(** the attacking type, the text for the defender and the types of the
    defender, or the reply that ends the command (lines 907-936) *)
Definition matchupOf (targets : list string) : (Effect * string * list string) + Reply :=
  let t0 := nth_error targets 0 in
  let t1 := nth_error targets 1 in
  let t2 := nth_error targets 2 in
  let type := getType t1 in
  let pokemon := getTemplate t0 in
  let (pokemon, type) :=
    if negb (t_exists pokemon) || negb (e_exists type)
    then (getTemplate t1, getType t0) else (pokemon, type) in
  if negb (t_exists pokemon) || negb (e_exists type) then
    if e_exists (getType t0) && e_exists (getType t1) then
      if e_exists (getType t2)
      then inl (getType t0, e_id (getType t1) ++ "/" ++ e_id (getType t2),
                [e_id (getType t1); e_id (getType t2)])
      else inl (getType t0, e_id (getType t1), [e_id (getType t1)])
    else if missing targets 1 then inr (SendReply msgSeparated)
    else inr (SendReply (msgCombination (nth 0 targets "") (nth 1 targets "")))
  else inl (type, species pokemon ++ " (not counting abilities)", types pokemon).

Definition effectiveness (target : string) : option Reply :=
  match matchupOf (splitAny [","; "/"]%char target) with
  | inr reply => Some reply
  | inl (type, defender, types) =>
      if negb canBroadcast then None
      else
        let typeMod := getEffectiveness (e_id type) types in
        let notImmune := getImmunity (e_id type) types in
        let factor := if notImmune then powText typeMod else "0" in
        Some (SendReplyBox (msgEffective (e_id type) factor defender))
  end.

(** a type of the chart counts as a weakness of a defender that is not
    immune to it and takes it with the modifier 1 or 2 *)
Definition isWeakness (types : list string) (type : string) : bool :=
  getImmunity type types
  && (Z.eqb (getEffectiveness type types) 1 || Z.eqb (getEffectiveness type types) 2).

(** a weakness with the modifier 2 is shown in bold *)
Definition shownWeakness (types : list string) (type : string) : string :=
  if Z.eqb (getEffectiveness type types) 2 then "<b>" ++ type ++ "</b>" else type.

End Matchups.

(** ** Lists of links: [faq] (lines 1107-1144) and [tiers] (lines 1148-1190)

    The commands are kept in a module of their own: [tiers] is also the
    name of a filter object of [dexsearch]. *)

Module Links.

Definition anchor (url text : string) : string :=
  "<a href=" ++ dq ++ url ++ dq ++ ">" ++ text ++ "</a>".

(** what the tests of [faq] add to the buffer *)
Definition faqGeneral : string :=
  anchor "http://www.smogon.com/sim/faq"
    "Frequently Asked Questions" ++ "<br />".
Definition faqDeviation : string :=
  anchor "http://www.smogon.com/sim/faq#deviation"
    "Why did this user gain or lose so many points?" ++ "<br />".
Definition faqDoubles : string :=
  anchor "http://www.smogon.com/sim/faq#doubles"
    "Can I play doubles/triples/rotation battles here?" ++ "<br />".
Definition faqRandomcap : string :=
  anchor "http://www.smogon.com/sim/faq#randomcap"
    "What is this fakemon and what is it doing in my random battle?" ++ "<br />".
Definition faqRestarts : string :=
  anchor "http://www.smogon.com/sim/faq#restarts"
    "Why is the server restarting?" ++ "<br />".
Definition faqStaff : string :=
  anchor "http://www.smogon.com/sim/staff_faq"
    "Staff FAQ" ++ "<br />".
Definition faqAutoconfirmed : string :=
  "A user is autoconfirmed when they have won at least one rated battle and has been registered for a week or longer.<br />".

(** what the tests of [tiers] add to the buffer *)
Definition tiersGeneral : string :=
  "- " ++ anchor "http://www.smogon.com/tiers/"
    "Smogon Tiers" ++ "<br />" ++
  "- " ++ anchor "http://www.smogon.com/bw/banlist/"
    "The banlists for each tier" ++ "<br />".
Definition tiersUber : string :=
  "- " ++ anchor "http://www.smogon.com/bw/tiers/uber"
    "Uber Pokemon" ++ "<br />".
Definition tiersOu : string :=
  "- " ++ anchor "http://www.smogon.com/bw/tiers/ou"
    "Overused Pokemon" ++ "<br />".
Definition tiersUu : string :=
  "- " ++ anchor "http://www.smogon.com/bw/tiers/uu"
    "Underused Pokemon" ++ "<br />".
Definition tiersRu : string :=
  "- " ++ anchor "http://www.smogon.com/bw/tiers/ru"
    "Rarelyused Pokemon" ++ "<br />".
Definition tiersNu : string :=
  "- " ++ anchor "http://www.smogon.com/bw/tiers/nu"
    "Neverused Pokemon" ++ "<br />".
Definition tiersLc : string :=
  "- " ++ anchor "http://www.smogon.com/bw/tiers/lc"
    "Little Cup Pokemon" ++ "<br />".
Definition tiersDoubles : string :=
  "- " ++ anchor "http://www.smogon.com/bw/metagames/doubles"
    "Doubles" ++ "<br />".

Definition msgFaqNotFound (target : string) : string :=
  "The FAQ entry " ++ dq ++ target ++ dq ++ " was not found. Try /faq for general help.".
Definition msgTiersNotFound (target : string) : string :=
  "The Tiers entry " ++ dq ++ target ++ dq ++ " was not found. Try /tiers for general help.".

(** one test of the target: when it holds, the text is added to the
    buffer and [matched] is set *)
Definition entry (holds : bool) (text : string) (st : string * bool) : string * bool :=
  if holds then (fst st ++ text, true) else st.

Section Commands.

Variable canBroadcast : bool.
Variable toId : string -> string.

Definition faq (target : string) : option Reply :=
  if negb canBroadcast then None
  else
    let target := JS.toLowerCase target in
    let st := ("", false) in
    let st := entry (String.eqb target "" || String.eqb target "all")
                    faqGeneral st in
    let st := entry (String.eqb target "all" || String.eqb target "deviation")
                    faqDeviation st in
    let st := entry (String.eqb target "all" || String.eqb target "doubles" ||
                     String.eqb target "triples" || String.eqb target "rotation")
                    faqDoubles st in
    let st := entry (String.eqb target "all" || String.eqb target "randomcap")
                    faqRandomcap st in
    let st := entry (String.eqb target "all" || String.eqb target "restarts")
                    faqRestarts st in
    let st := entry (String.eqb target "all" || String.eqb target "staff")
                    faqStaff st in
    let st := entry (String.eqb target "all" || String.eqb target "autoconfirmed")
                    faqAutoconfirmed st in
    if negb (snd st) then Some (SendReply (msgFaqNotFound target))
    else Some (SendReplyBox (fst st)).

Definition tiers (target : string) : option Reply :=
  if negb canBroadcast then None
  else
    let target := toId target in
    let st := ("", false) in
    let st := entry (String.eqb target "" || String.eqb target "all")
                    tiersGeneral st in
    let st := entry (String.eqb target "all" || String.eqb target "ubers" ||
                     String.eqb target "uber")
                    tiersUber st in
    let st := entry (String.eqb target "all" || String.eqb target "overused" ||
                     String.eqb target "ou")
                    tiersOu st in
    let st := entry (String.eqb target "all" || String.eqb target "underused" ||
                     String.eqb target "uu")
                    tiersUu st in
    let st := entry (String.eqb target "all" ||
                     String.eqb target "rarelyused" || String.eqb target "ru")
                    tiersRu st in
    let st := entry (String.eqb target "all" || String.eqb target "neverused" ||
                     String.eqb target "nu")
                    tiersNu st in
    let st := entry (String.eqb target "all" || String.eqb target "littlecup" ||
                     String.eqb target "lc")
                    tiersLc st in
    let st := entry (String.eqb target "all" || String.eqb target "doubles")
                    tiersDoubles st in
    if negb (snd st) then Some (SendReply (msgTiersNotFound target))
    else Some (SendReplyBox (fst st)).

End Commands.

(** the targets that [faq] and [tiers] know, as their tests name them *)
Definition faqKeywords : list string :=
  [""; "all"; "deviation"; "doubles"; "triples"; "rotation"; "randomcap"; "restarts";
   "staff"; "autoconfirmed"].

Definition tiersKeywords : list string :=
  [""; "all"; "ubers"; "uber"; "overused"; "ou"; "underused"; "uu"; "rarelyused"; "ru";
   "neverused"; "nu"; "littlecup"; "lc"; "doubles"].

End Links.

(** ** The order of the sources of [learn] *)

(** ascending lists of strings, as [sort] leaves them *)
Fixpoint ascending (l : list string) : Prop :=
  match l with
  | [] => True
  | x :: r => (forall y, In y r -> String.leb x y = true) /\ ascending r
  end.

(** A small league to run the challenge commands on: two leaders, of
    which Brock has his gym open, a member of the Alto Mando and two
    challengers. *)
Module DemoLeague.

Definition lideres : list string := ["brock"; "misty"].
Definition altomando : list string := ["lance"].
Definition cargos : list string := ["Lider de Roca"; "Lider de Agua"].

Definition who (x : string) : option string :=
  if existsb (String.eqb x) ["brock"; "misty"; "lance"; "ash"; "gary"]
  then Some x else None.

Definition username (x : string) : string := JS.toUpperCase x.

Definition users : Users := fun id =>
  if String.eqb id "brock" then mkUser "Brock" true true false None
  else if String.eqb id "misty" then mkUser "Misty" true true true (Some ["gary"; "ash"])
  else if String.eqb id "lance" then mkUser "Lance" true false false None
  else if String.eqb id "ash" then mkUser "Ash" true false false None
  else if String.eqb id "gary" then mkUser "Gary" false false false None
  else mkUser id false false false None.

End DemoLeague.

(** Stand-ins for the items, the types and the type chart, beside the
    data of [Demo]. *)
Module DemoData.

Definition Items : list (string * string) :=
  [("leftovers", "Leftovers"); ("metronome", "Metronome")].

Definition getItem : string -> Effect := Demo.lookup Items.
Definition itemGen (raw : string) : nat :=
  if String.eqb (Demo.toId raw) "leftovers" then 2 else 4.
Definition moveGen (raw : string) : nat :=
  if String.eqb (Demo.toId raw) "metronome" then 2 else 1.
Definition abilityGen (raw : string) : nat := 3.
Definition inheritedText (k : string) : string := "[object Object]".

Definition typeChart : list string :=
  ["Fire"; "Water"; "Grass"; "Flying"; "Ghost"; "Ice"; "Ground"].

(** [Tools.getType]: the id of a type is its name *)
Definition getType (raw : option string) : Effect :=
  let id := Demo.toId (match raw with Some s => s | None => "" end) in
  match find (fun name => String.eqb (Demo.toId name) id) typeChart with
  | Some name => mkEffect true name name
  | None => mkEffect false id id
  end.

Definition getTemplate (raw : option string) : Template :=
  Demo.getTemplate (match raw with Some s => s | None => "" end).

(** [damageTaken] of the chart: 1 for a weakness, 2 for a resistance,
    3 for an immunity *)
Definition damageTaken (defender attacker : string) : nat :=
  let table :=
    [ ("Fire", [("Water", 1); ("Ground", 1); ("Fire", 2); ("Grass", 2); ("Ice", 2)]);
      ("Water", [("Grass", 1); ("Fire", 2); ("Water", 2); ("Ice", 2)]);
      ("Grass", [("Fire", 1); ("Flying", 1); ("Ice", 1); ("Water", 2); ("Grass", 2);
                 ("Ground", 2)]);
      ("Flying", [("Ice", 1); ("Grass", 2); ("Ground", 3)]);
      ("Ghost", [("Ghost", 1)]);
      ("Ice", [("Fire", 1); ("Ice", 2)]);
      ("Ground", [("Water", 1); ("Grass", 1); ("Ice", 1)]) ] in
  match find (fun e => String.eqb (fst e) defender) table with
  | Some (_, row) =>
      match find (fun e => String.eqb (fst e) attacker) row with
      | Some (_, n) => n
      | None => 0
      end
  | None => 0
  end.

Definition getImmunity (type : string) (types : list string) : bool :=
  forallb (fun defender => negb (damageTaken defender type =? 3)) types.

Definition getEffectiveness (type : string) (types : list string) : Z :=
  fold_left (fun total defender =>
               match damageTaken defender type with
               | 1 => (total + 1)%Z
               | 2 => (total - 1)%Z
               | _ => total
               end) types 0%Z.

(** the factors that one or two types give *)
Definition powText (typeMod : Z) : string :=
  match typeMod with
  | (-2)%Z => "0.25"
  | (-1)%Z => "0.5"
  | 0%Z => "1"
  | 1%Z => "2"
  | _ => "4"
  end.

Definition smogdex (target : string) : list Reply :=
  smogdex true Demo.getTemplate getItem Demo.getMove Demo.getAbility
          itemGen moveGen abilityGen inheritedText target.

Definition weakness (target : string) : Reply :=
  weakness getTemplate getType typeChart getImmunity getEffectiveness target.

Definition effectiveness (canBroadcast : bool) (target : string) : option Reply :=
  effectiveness getTemplate getType getImmunity getEffectiveness canBroadcast powText
                target.

End DemoData.

(** * Properties *)

(** ** Objects *)

Lemma mem_In (k : string) (l : list string) : JS.mem k l = true <-> In k l.
Proof.
  unfold JS.mem. rewrite existsb_exists. split.
  - intros [x [Hx He]]. apply String.eqb_eq in He. now subst.
  - intros H. exists k. split; [assumption | apply String.eqb_refl].
Qed.

Lemma get_put_same (o : JS.obj) (k : string) (v : nat) :
  JS.get (JS.put o k v) k = Some v.
Proof.
  induction o as [|[k' v'] r IH]; simpl.
  - now rewrite String.eqb_refl.
  - destruct (String.eqb k k') eqn:E; simpl.
    + now rewrite String.eqb_refl.
    + now rewrite E.
Qed.

Lemma get_put_other (o : JS.obj) (k k' : string) (v : nat) :
  k <> k' -> JS.get (JS.put o k v) k' = JS.get o k'.
Proof.
  intros Hne. induction o as [|[k0 v0] r IH]; simpl.
  - destruct (String.eqb k' k) eqn:E; [apply String.eqb_eq in E; congruence | reflexivity].
  - destruct (String.eqb k k0) eqn:E; simpl.
    + apply String.eqb_eq in E. subst k0.
      destruct (String.eqb k' k) eqn:E'; [apply String.eqb_eq in E'; congruence | reflexivity].
    + now rewrite IH.
Qed.

Lemma keys_put (o : JS.obj) (k : string) (v : nat) :
  JS.keys (JS.put o k v)
  = if JS.mem k (JS.keys o) then JS.keys o else (JS.keys o ++ [k])%list.
Proof.
  induction o as [|[k' v'] r IH]; simpl; [reflexivity|].
  destruct (String.eqb k k') eqn:E; simpl.
  - apply String.eqb_eq in E. now subst.
  - unfold JS.keys in *. rewrite IH. now destruct (JS.mem k (map fst r)).
Qed.

Lemma get_set_count (o : JS.obj) (v : nat) : countOf (JS.set o "count" v) = Some v.
Proof. unfold countOf, JS.set. simpl. apply get_put_same. Qed.

Lemma get_set_other (o : JS.obj) (k : string) (v : nat) :
  k <> "count" -> countOf (JS.set o k v) = countOf o.
Proof.
  intros Hne. unfold countOf, JS.set.
  destruct (String.eqb k "__proto__"); [reflexivity|].
  now apply get_put_other.
Qed.

Lemma keys_set_count (o : JS.obj) (v : nat) :
  JS.keys (JS.set o "count" v)
  = if JS.mem "count" (JS.keys o) then JS.keys o else (JS.keys o ++ ["count"])%list.
Proof. unfold JS.set. simpl. apply keys_put. Qed.

Lemma members_app (a b : list string) :
  filter (fun k => negb (String.eqb k "count")) (a ++ b)
  = (filter (fun k => negb (String.eqb k "count")) a
     ++ filter (fun k => negb (String.eqb k "count")) b)%list.
Proof. apply filter_app. Qed.

Lemma members_set_count (o : JS.obj) (v : nat) :
  members (JS.set o "count" v) = members o.
Proof.
  unfold members. rewrite keys_set_count.
  destruct (JS.mem "count" (JS.keys o)); [reflexivity|].
  rewrite members_app. simpl. now rewrite app_nil_r.
Qed.

Lemma populated_reset (o : JS.obj) : populated (reset o) = false.
Proof. unfold populated, reset. now rewrite get_set_count. Qed.

(** ** The token classifier *)

Lemma upperChar_not_c (c : ascii) : JS.upperChar c <> "c"%char.
Proof.
  destruct c as [[] [] [] [] [] [] [] []]; vm_compute; discriminate.
Qed.

Lemma typeName_not_count (target : string) (idx : nat) : typeName target idx <> "count".
Proof.
  unfold typeName. destruct target as [|c r]; simpl.
  - unfold JS.slice. destruct (idx - 1); simpl; discriminate.
  - intros H. injection H as H _. now apply upperChar_not_c in H.
Qed.

Lemma upperChar_not_u (c : ascii) : JS.upperChar c <> "u"%char.
Proof.
  destruct c as [[] [] [] [] [] [] [] []]; vm_compute; discriminate.
Qed.

(** the type names that the classifier stores begin in upper case: none
    is the key [undefined] that a missing type slot reads as *)
Lemma typeName_not_undefined (target : string) (idx : nat) :
  typeName target idx <> "undefined".
Proof.
  unfold typeName. destruct target as [|c r]; simpl.
  - unfold JS.slice. destruct (idx - 1); simpl; discriminate.
  - intros H. injection H as H _. now apply upperChar_not_u in H.
Qed.

Lemma genKey_not_count (t : option Z) : isGen t = true -> genKey t <> "count".
Proof.
  destruct t as [z|]; simpl; [|discriminate].
  intros H. apply andb_prop in H. destruct H as [H1 H2].
  apply Z.ltb_lt in H1. apply Z.ltb_lt in H2.
  assert (Hz : z = 1%Z \/ z = 2%Z \/ z = 3%Z \/ z = 4%Z \/ z = 5%Z) by lia.
  destruct Hz as [-> | [-> | [-> | [-> | ->]]]]; vm_compute; discriminate.
Qed.

Lemma keyword_not_count (t : string) (o : JS.obj) :
  JS.has "count" o = false -> JS.has t o = true -> t <> "count".
Proof. intros H1 H2 ->. congruence. Qed.

Lemma NoDup_keys_put (o : JS.obj) (k : string) (v : nat) :
  NoDup (JS.keys o) -> NoDup (JS.keys (JS.put o k v)).
Proof.
  intros H. rewrite keys_put. destruct (JS.mem k (JS.keys o)) eqn:E; [assumption|].
  apply NoDup_app; [assumption | repeat constructor; intros [] | ].
  intros x Hx [<- | []].
  apply mem_In in Hx. congruence.
Qed.

Lemma NoDup_keys_set (o : JS.obj) (k : string) (v : nat) :
  NoDup (JS.keys o) -> NoDup (JS.keys (JS.set o k v)).
Proof.
  unfold JS.set. destruct (String.eqb k "__proto__"); [trivial | apply NoDup_keys_put].
Qed.

Lemma members_set_le (o : JS.obj) (k : string) (v : nat) :
  length (members (JS.set o k v)) <= S (length (members o)).
Proof.
  unfold JS.set, members. destruct (String.eqb k "__proto__"); [lia|].
  rewrite keys_put. destruct (JS.mem k (JS.keys o)); [lia|].
  rewrite members_app, length_app. simpl.
  destruct (negb (String.eqb k "count")); simpl; lia.
Qed.

(** one more member in a category object *)
Lemma addMember_inv (o : JS.obj) (n m : nat) (key : string) :
  key <> "count" -> objInv o n ->
  objInv (addMember (fst (populate o m)) key) (S n)
  /\ snd (populate o m) = (if 0 <? n then m else S m).
Proof.
  intros Hkey Hinv. unfold addMember, bump.
  destruct n as [|n]; cbn [objInv] in Hinv.
  - subst o. unfold populate.
    change (JS.truthy (countOf [])) with false. cbn [fst snd Nat.ltb Nat.leb].
    split; [|reflexivity].
    rewrite get_set_other by assumption.
    unfold objInv. rewrite get_set_count, members_set_count.
    rewrite get_set_count.
    split; [reflexivity|]. split.
    + do 3 apply NoDup_keys_set. constructor.
    + etransitivity; [apply members_set_le|].
      rewrite members_set_count. simpl. lia.
  - destruct Hinv as [Hc [Hnd Hlen]]. unfold populate. rewrite Hc.
    cbn [JS.truthy fst snd Nat.ltb Nat.leb]. split; [|reflexivity].
    rewrite get_set_other by assumption. rewrite Hc.
    unfold objInv. rewrite get_set_count, members_set_count.
    split; [reflexivity|]. split.
    + now do 2 apply NoDup_keys_set.
    + etransitivity; [apply members_set_le|]. lia.
Qed.

Lemma category_setCategory_same (k : Kind) (q : Query) (o : JS.obj) (n : nat) :
  category k (setCategory k q o n) = o.
Proof. now destruct k. Qed.

Lemma category_setCategory_other (k k' : Kind) (q : Query) (o : JS.obj) (n : nat) :
  k <> k' -> category k' (setCategory k q o n) = category k' q.
Proof. destruct k, k'; simpl; congruence. Qed.

Lemma count_setCategory (k : Kind) (q : Query) (o : JS.obj) (n : nat) :
  count (setCategory k q o n) = n.
Proof. now destruct k. Qed.

Lemma showAll_setCategory (k : Kind) (q : Query) (o : JS.obj) (n : nat) :
  showAll (setCategory k q o n) = showAll q.
Proof. now destruct k. Qed.

Lemma Kind_eqb_eq (a b : Kind) : Kind_eqb a b = true <-> a = b.
Proof. destruct a, b; simpl; split; congruence. Qed.

Lemma Kind_eqb_refl (a : Kind) : Kind_eqb a a = true.
Proof. now destruct a. Qed.

(** what [accumulate] returns when it does not hit the limit *)
Lemma accumulate_inl (k : Kind) (key : string) (q q' : Query) :
  accumulate k key q = inl q' ->
  q' = setCategory k q (addMember (fst (populate (category k q) (count q))) key)
                   (snd (populate (category k q) (count q))).
Proof.
  unfold accumulate. destruct (populate (category k q) (count q)) as [o n]. simpl.
  destruct (limit k) as [[m msg]|].
  - destruct (countIs o m); [discriminate | congruence].
  - congruence.
Qed.

Section Classifier.

Variable getMove : string -> Effect.
Variable getAbility : string -> Effect.
Variable inTypeChart : string -> bool.
Variable broadcasting : bool.

Local Abbreviation Classify := (classify getMove getAbility inTypeChart broadcasting).
Local Abbreviation ClassifyAll := (classifyAll getMove getAbility inTypeChart broadcasting).
Local Abbreviation ClassOf := (classOf getMove getAbility inTypeChart).
Local Abbreviation MemberKey := (memberKey getMove getAbility).
Local Abbreviation TokensOf := (tokensOf getMove getAbility inTypeChart).
Local Abbreviation IsOf := (isOf getMove getAbility inTypeChart).

(** The body of the loop acts by the class of the token: the first class
    in priority order that recognises it. *)
Lemma classify_classOf (q : Query) (raw : string) :
  Classify q raw =
  match ClassOf raw with
  | Some (Member k) => accumulate k (MemberKey k raw) q
  | Some AllFlag =>
      if broadcasting then inr (SendReply msgBroadcastAll) else inl (setAll q)
  | None =>
      match JS.indexOf " type" (normal raw) with
      | Some _ => inl q
      | None => inr (SendReply (msgNotFound (JS.trim raw)))
      end
  end.
Proof.
  unfold classify, classOf, priority, accumulate. simpl.
  fold (normal raw).
  destruct (e_exists (getMove raw)); simpl.
  { destruct (populate (moves q) (count q)); reflexivity. }
  destruct (e_exists (getAbility raw)); simpl.
  { destruct (populate (ability q) (count q)); reflexivity. }
  destruct (JS.has (normal raw) allTiers); simpl.
  { destruct (populate (tiers q) (count q)); reflexivity. }
  destruct (JS.has (normal raw) allColours); simpl.
  { destruct (populate (colours q) (count q)); reflexivity. }
  destruct (isGen (JS.parseInt (normal raw))); simpl.
  { destruct (populate (gens q) (count q)); reflexivity. }
  destruct (String.eqb (normal raw) "all"); simpl.
  { reflexivity. }
  destruct (JS.indexOf " type" (normal raw)) as [idx|] eqn:E; [|reflexivity].
  destruct (inTypeChart (typeName (normal raw) idx)); [|reflexivity].
  simpl. rewrite E.
  destruct (populate (qtypes q) (count q)); reflexivity.
Qed.

(** No move and no ability of the data set is named [count], the name of
    the counter that shares the category object. *)
Hypothesis move_names : forall raw,
  e_exists (getMove raw) = true -> e_name (getMove raw) <> "count".
Hypothesis ability_names : forall raw,
  e_exists (getAbility raw) = true -> e_name (getAbility raw) <> "count".

Lemma memberKey_not_count (k : Kind) (raw : string) :
  ClassOf raw = Some (Member k) -> MemberKey k raw <> "count".
Proof.
  unfold classOf, priority. simpl.
  destruct (e_exists (getMove raw)) eqn:E1.
  { intros H. injection H as <-. now apply move_names. }
  destruct (e_exists (getAbility raw)) eqn:E2.
  { intros H. injection H as <-. now apply ability_names. }
  destruct (JS.has (normal raw) allTiers) eqn:E3.
  { intros H. injection H as <-. simpl. eapply keyword_not_count; [|exact E3]. reflexivity. }
  destruct (JS.has (normal raw) allColours) eqn:E4.
  { intros H. injection H as <-. simpl. eapply keyword_not_count; [|exact E4]. reflexivity. }
  destruct (isGen (JS.parseInt (normal raw))) eqn:E5.
  { intros H. injection H as <-. simpl. now apply genKey_not_count. }
  destruct (String.eqb (normal raw) "all"); [discriminate|].
  destruct (JS.indexOf " type" (normal raw)) as [idx|] eqn:E7; [|discriminate].
  destruct (inTypeChart (typeName (normal raw) idx)); [|discriminate].
  intros H. injection H as <-. simpl. rewrite E7. apply typeName_not_count.
Qed.

Lemma queryInv_ext (q : Query) (c c' : Kind -> nat) :
  (forall k, c k = c' k) -> queryInv q c -> queryInv q c'.
Proof.
  intros Hext [Hobj Hcount]. split.
  - intros k. rewrite <- Hext. apply Hobj.
  - rewrite Hcount. f_equal. apply filter_ext. intros k. now rewrite Hext.
Qed.

Lemma isOf_member (k k' : Kind) (raw : string) :
  ClassOf raw = Some (Member k') -> IsOf k raw = Kind_eqb k k'.
Proof. unfold isOf. now intros ->. Qed.

(** one token keeps the invariant, with one more token of its kind *)
Lemma classify_inv (q q' : Query) (c : Kind -> nat) (raw : string) :
  queryInv q c -> Classify q raw = inl q' ->
  queryInv q' (fun k => c k + if IsOf k raw then 1 else 0).
Proof.
  intros [Hobj Hcount] Hstep. rewrite classify_classOf in Hstep.
  destruct (ClassOf raw) as [[k|]|] eqn:Hclass.
  - apply accumulate_inl in Hstep.
    pose proof (memberKey_not_count _ _ Hclass) as Hkey.
    destruct (addMember_inv (category k q) (c k) (count q) _ Hkey (Hobj k)) as [Ho Hn].
    subst q'. split.
    + intros k0. rewrite (isOf_member k0 _ _ Hclass).
      destruct (Kind_eqb k0 k) eqn:E.
      * apply Kind_eqb_eq in E. subst k0.
        rewrite category_setCategory_same, Nat.add_1_r. exact Ho.
      * rewrite category_setCategory_other, Nat.add_0_r; [apply Hobj|].
        intros ->. now rewrite Kind_eqb_refl in E.
    + rewrite count_setCategory, Hn, Hcount.
      assert (Hfil : forall k0, (0 <? c k0 + (if IsOf k0 raw then 1 else 0))
                                = (0 <? c k0) || Kind_eqb k0 k).
      { intros k0. rewrite (isOf_member k0 _ _ Hclass).
        destruct (Kind_eqb k0 k), (c k0); reflexivity. }
      rewrite (filter_ext _ _ Hfil). unfold allKinds.
      destruct k; simpl;
        destruct (c KMove), (c KAbility), (c KTier), (c KColour), (c KGen), (c KType);
        reflexivity.
  - assert (Hnot : forall k0, IsOf k0 raw = false) by (intros k0; unfold isOf; now rewrite Hclass).
    apply queryInv_ext with (c := c); [intros k0; rewrite Hnot; lia|].
    destruct broadcasting; [discriminate|]. injection Hstep as <-.
    split; [intros k0; destruct k0; [apply (Hobj KMove) | apply (Hobj KAbility) | apply (Hobj KTier) | apply (Hobj KColour) | apply (Hobj KGen) | apply (Hobj KType)] | exact Hcount].
  - assert (Hnot : forall k0, IsOf k0 raw = false) by (intros k0; unfold isOf; now rewrite Hclass).
    apply queryInv_ext with (c := c); [intros k0; rewrite Hnot; lia|].
    destruct (JS.indexOf " type" (normal raw)); [|discriminate].
    injection Hstep as <-. now split.
Qed.

Lemma classifyAll_inv (targets : list string) (q q' : Query) (c : Kind -> nat) :
  queryInv q c -> ClassifyAll q targets = inl q' ->
  queryInv q' (fun k => c k + length (TokensOf k targets)).
Proof.
  revert q c. induction targets as [|raw rest IH]; intros q c Hinv Hrun; simpl in Hrun.
  - injection Hrun as <-. apply queryInv_ext with (c := c); [intros; simpl; lia | assumption].
  - destruct (Classify q raw) as [q1|r] eqn:Hstep; [|discriminate].
    pose proof (classify_inv _ _ _ _ Hinv Hstep) as Hinv1.
    pose proof (IH _ _ Hinv1 Hrun) as Hinv'.
    apply queryInv_ext with (2 := Hinv'). intros k. unfold tokensOf. simpl.
    destruct (IsOf k raw); simpl; lia.
Qed.

Lemma emptyQuery_inv : queryInv emptyQuery (fun _ => 0).
Proof. split; [intros k; destruct k; reflexivity | reflexivity]. Qed.

(** the state after a list of tokens that were all accepted *)
Lemma classifyAll_tokens (targets : list string) (q : Query) :
  ClassifyAll emptyQuery targets = inl q ->
  queryInv q (fun k => length (TokensOf k targets)).
Proof.
  intros Hrun. apply queryInv_ext with (2 := classifyAll_inv _ _ _ _ emptyQuery_inv Hrun).
  reflexivity.
Qed.

Lemma populated_objInv (o : JS.obj) (n : nat) :
  objInv o n -> populated o = (0 <? n).
Proof.
  destruct n as [|n]; simpl.
  - now intros ->.
  - intros [Hc _]. unfold populated. now rewrite Hc.
Qed.

(** the counter of populated categories is exact *)
Lemma classifyAll_npop (targets : list string) (q : Query) :
  ClassifyAll emptyQuery targets = inl q -> count q = npop q.
Proof.
  intros Hrun. destruct (classifyAll_tokens _ _ Hrun) as [Hobj Hcount].
  rewrite Hcount. unfold npop. f_equal. apply filter_ext.
  intros k. symmetry. apply populated_objInv, Hobj.
Qed.

Lemma classifyAll_app (a b : list string) (q : Query) :
  ClassifyAll q (a ++ b) =
  match ClassifyAll q a with
  | inl q1 => ClassifyAll q1 b
  | inr r => inr r
  end.
Proof.
  revert q. induction a as [|raw rest IH]; intros q; simpl; [reflexivity|].
  destruct (Classify q raw); [apply IH | reflexivity].
Qed.

Lemma in_keys_set (o : JS.obj) (k x : string) (v : nat) :
  In x (JS.keys (JS.set o k v)) -> x = k \/ In x (JS.keys o).
Proof.
  unfold JS.set. destruct (String.eqb k "__proto__"); [now right|].
  rewrite keys_put. destruct (JS.mem k (JS.keys o)); [now right|].
  intros H. apply in_app_or in H. destruct H as [H | [<- | []]]; [now right | now left].
Qed.

Lemma in_keys_addMember (o : JS.obj) (n : nat) (key x : string) :
  In x (JS.keys (addMember (fst (populate o n)) key)) ->
  x = "count" \/ x = key \/ In x (JS.keys o).
Proof.
  unfold addMember, bump. intros H.
  apply in_keys_set in H. destruct H as [-> | H]; [now left|].
  apply in_keys_set in H. destruct H as [-> | H]; [right; now left|].
  unfold populate in H. destruct (JS.truthy (countOf o)); simpl in H.
  - right. now right.
  - apply in_keys_set in H. destruct H as [-> | H]; [now left | right; now right].
Qed.

End Classifier.

(** ** The evaluator *)

Lemma flat_map_addIf (f : Template -> bool) (l : list Template) :
  flat_map (fun mon => addIf (f mon) mon) l = filter f l.
Proof.
  induction l as [|x r IH]; simpl; [reflexivity|].
  rewrite IH. now destruct (f x).
Qed.

Lemma mem_members (key : string) (l : list string) :
  key <> "count" ->
  JS.mem key (filter (fun k => negb (String.eqb k "count")) l) = JS.mem key l.
Proof.
  intros Hne. induction l as [|x r IH]; simpl; [reflexivity|].
  destruct (String.eqb x "count") eqn:E; simpl.
  - apply String.eqb_eq in E. subst x.
    destruct (String.eqb key "count") eqn:E'; [apply String.eqb_eq in E'; congruence|].
    simpl. exact IH.
  - now rewrite IH.
Qed.

(** for a proper name, [in] is membership *)
Lemma has_members (key : string) (o : JS.obj) :
  reserved key = false -> JS.has key o = JS.mem key (members o).
Proof.
  unfold reserved, JS.has, members. intros H.
  apply orb_false_elim in H. destruct H as [H1 H2]. rewrite H2, orb_false_r.
  symmetry. apply mem_members. intros ->. discriminate.
Qed.

Lemma digitsOnto_head (fuel n : nat) (acc : string) :
  fuel <> 0 ->
  exists d rest, d < 10 /\ JS.digitsOnto fuel n acc = String (JS.digitChar d) rest.
Proof.
  revert n acc. induction fuel as [|f IH]; intros n acc Hf; [congruence|].
  simpl. destruct (n <? 10) eqn:E.
  - exists (n mod 10), acc. split; [apply Nat.mod_upper_bound; lia | reflexivity].
  - destruct f as [|f].
    + simpl. exists (n mod 10), acc. split; [apply Nat.mod_upper_bound; lia | reflexivity].
    + apply IH. discriminate.
Qed.

Lemma numToString_reserved (n : nat) : reserved (JS.numToString n) = false.
Proof.
  unfold JS.numToString.
  destruct (digitsOnto_head (S n) n EmptyString) as [d [rest [Hd ->]]]; [discriminate|].
  do 10 (destruct d as [|d]; [reflexivity|]). lia.
Qed.

Section Evaluator.

Variable getMove : string -> Effect.
Variable getAbility : string -> Effect.
Variable pokedex : list string.
Variable getTemplate : string -> Template.
Variable LsetData : Type.
Variable checkLearnset : Effect -> Template -> LsetData -> bool * LsetData.
Variable newLsetData : LsetData.

Local Abbreviation InitialResults := (initialResults pokedex getTemplate).
Local Abbreviation CheckMoves := (checkMoves getMove LsetData checkLearnset).
Local Abbreviation MovesLoop := (movesLoop getMove getTemplate LsetData checkLearnset newLsetData).
Local Abbreviation ByMoves := (byMoves getMove getTemplate LsetData checkLearnset newLsetData).
Local Abbreviation EvalLoop :=
  (evalLoop getMove getAbility pokedex getTemplate LsetData checkLearnset newLsetData).
Local Abbreviation Evaluate :=
  (evaluate getMove getAbility pokedex getTemplate LsetData checkLearnset newLsetData).
Local Abbreviation Stage := (stage getMove getAbility getTemplate LsetData checkLearnset newLsetData).
Local Abbreviation RunStages :=
  (runStages getMove getAbility getTemplate LsetData checkLearnset newLsetData).
Local Abbreviation Requested := (requested getMove).
Local Abbreviation LearnsAll := (learnsAll LsetData checkLearnset).
Local Abbreviation Satisfies := (satisfies getMove getAbility getTemplate LsetData checkLearnset newLsetData).
Local Abbreviation SatisfiesAll :=
  (satisfiesAll getMove getAbility getTemplate LsetData checkLearnset newLsetData).
Local Abbreviation SpeciesOk := (speciesOk getAbility).

Lemma npop_zero (q : Query) :
  npop q = 0 -> forall k, populated (category k q) = false.
Proof.
  unfold npop, allKinds. simpl. intros H k.
  destruct (populated (moves q)) eqn:E1; [discriminate|].
  destruct (populated (ability q)) eqn:E2; [discriminate|].
  destruct (populated (tiers q)) eqn:E3; [discriminate|].
  destruct (populated (colours q)) eqn:E4; [discriminate|].
  destruct (populated (gens q)) eqn:E5; [discriminate|].
  destruct (populated (qtypes q)) eqn:E6; [discriminate|].
  destruct k; assumption.
Qed.

Ltac flags q :=
  destruct (populated (moves q)), (populated (ability q)), (populated (tiers q)),
           (populated (colours q)), (populated (gens q)), (populated (qtypes q)).

(** The loop applies the populated categories in the fixed order, each
    once: every round takes the first populated one and clears it. *)
Lemma evalLoop_runStages (n : nat) :
  forall (q : Query) (rs : list Template),
    n = npop q ->
    EvalLoop n q (Some rs) = wrap (RunStages evalOrder q rs).
Proof.
  induction n as [|n IH]; intros q rs Hn.
  - simpl. symmetry in Hn. pose proof (npop_zero q Hn) as Hz.
    generalize (Hz KType), (Hz KTier), (Hz KAbility), (Hz KColour), (Hz KMove), (Hz KGen).
    simpl. intros -> -> -> -> -> ->. reflexivity.
  - cbn [evalLoop runStages evalOrder category stage].
    destruct (populated (qtypes q)) eqn:E1.
    { rewrite IH.
      - cbn [runStages evalOrder category setTypes qtypes tiers ability colours moves gens].
        now rewrite populated_reset.
      - unfold npop, allKinds in *. simpl in *. rewrite populated_reset, E1 in *.
        flags q; simpl in *; lia. }
    destruct (populated (tiers q)) eqn:E2.
    { rewrite IH.
      - cbn [runStages evalOrder category setTiers qtypes tiers ability colours moves gens].
        now rewrite populated_reset, E1.
      - unfold npop, allKinds in *. simpl in *. rewrite populated_reset, E1, E2 in *.
        flags q; simpl in *; lia. }
    destruct (populated (ability q)) eqn:E3.
    { rewrite IH.
      - cbn [runStages evalOrder category setAbility qtypes tiers ability colours moves gens].
        now rewrite populated_reset, E1, E2.
      - unfold npop, allKinds in *. simpl in *. rewrite populated_reset, E1, E2, E3 in *.
        flags q; simpl in *; lia. }
    destruct (populated (colours q)) eqn:E4.
    { rewrite IH.
      - cbn [runStages evalOrder category setColours qtypes tiers ability colours moves gens].
        now rewrite populated_reset, E1, E2, E3.
      - unfold npop, allKinds in *. simpl in *.
        rewrite populated_reset, E1, E2, E3, E4 in *.
        flags q; simpl in *; lia. }
    destruct (populated (moves q)) eqn:E5.
    { destruct (ByMoves (moves q) rs) as [rs'|e]; [|reflexivity].
      rewrite IH.
      - cbn [runStages evalOrder category setMoves qtypes tiers ability colours moves gens].
        now rewrite populated_reset, E1, E2, E3, E4.
      - unfold npop, allKinds in *. simpl in *.
        rewrite populated_reset, E1, E2, E3, E4, E5 in *.
        flags q; simpl in *; lia. }
    destruct (populated (gens q)) eqn:E6.
    { rewrite IH.
      - cbn [runStages evalOrder category setGens qtypes tiers ability colours moves gens].
        now rewrite populated_reset, E1, E2, E3, E4, E5.
      - unfold npop, allKinds in *. simpl in *.
        rewrite populated_reset, E1, E2, E3, E4, E5, E6 in *.
        simpl in *; lia. }
    exfalso. unfold npop, allKinds in Hn. simpl in Hn.
    rewrite E1, E2, E3, E4, E5, E6 in Hn. discriminate.
Qed.

(** the evaluation of a query with a populated category *)
Lemma evaluate_runStages (q : Query) :
  count q = npop q -> 0 < count q ->
  Evaluate q = wrap (RunStages evalOrder q (InitialResults q)).
Proof.
  intros Hc Hpos. unfold evaluate.
  destruct (count q) as [|n] eqn:E; [lia|].
  rewrite <- (evalLoop_runStages (S n) q (InitialResults q) Hc).
  reflexivity.
Qed.

Lemma in_addIf (c : bool) (x sp : Template) :
  In sp (addIf c x) <-> c = true /\ x = sp.
Proof.
  destruct c; simpl; split.
  - intros [H | []]. now split.
  - intros [_ H]. now left.
  - intros [].
  - intros [H _]. discriminate.
Qed.

(** *** The move filter *)

Lemma checkMoves_learnsAll (ks : list string) (template : Template) :
  forall (l : LsetData) (p p' : bool),
    CheckMoves ks template l p = inl p' ->
    p' = match requestedOf getMove ks with
         | [] => p
         | ms => negb (LearnsAll ms template l)
         end.
Proof.
  unfold requestedOf.
  induction ks as [|i rest IH]; intros l p p' H; simpl in H.
  - simpl. congruence.
  - simpl. destruct (String.eqb (e_id (getMove i)) "count") eqn:Eid; simpl in *.
    + now apply IH.
    + destruct (e_exists (getMove i)); simpl in H; [|discriminate].
      destruct (checkLearnset (getMove i) template l) as [pr l'].
      destruct pr; simpl; [congruence|].
      apply IH in H. rewrite H.
      destruct (filter _ (map getMove rest)); reflexivity.
Qed.

Lemma movesLoop_filter (o : JS.obj) (temp : list Template) :
  forall (p : bool) (res rs : list Template),
    (Requested o = [] -> p = false) ->
    MovesLoop o temp p res = inl rs ->
    rs = (res ++ filter (fun mon => LearnsAll (Requested o) (getTemplate (t_id mon)) newLsetData)
                        temp)%list.
Proof.
  induction temp as [|mon rest IH]; intros p res rs Hp H; simpl in H.
  - injection H as <-. simpl. now rewrite app_nil_r.
  - destruct (CheckMoves (JS.keys o) (getTemplate (t_id mon)) newLsetData p) as [p1|e] eqn:E;
      [|discriminate].
    apply checkMoves_learnsAll in E. fold (Requested o) in E.
    assert (Hp1 : p1 = negb (LearnsAll (Requested o) (getTemplate (t_id mon)) newLsetData)).
    { destruct (Requested o) as [|m ms] eqn:Er; [|exact E].
      rewrite E. now apply Hp. }
    apply IH in H.
    + rewrite H, <- app_assoc. f_equal. simpl. rewrite Hp1, negb_involutive.
      now destruct (LearnsAll (Requested o) (getTemplate (t_id mon)) newLsetData).
    + intros Hr. rewrite Hp1, Hr. reflexivity.
Qed.

(** When the move filter does not abort, it keeps exactly the species
    for which the legality engine accepts every requested move. *)
Lemma byMoves_filter (o : JS.obj) (temp rs : list Template) :
  ByMoves o temp = inl rs ->
  rs = filter (fun mon => LearnsAll (Requested o) (getTemplate (t_id mon)) newLsetData) temp.
Proof.
  unfold byMoves. intros H. apply movesLoop_filter in H; [exact H | reflexivity].
Qed.

(** *** Every filter narrows the working set *)

Lemma speciesOk_elim (sp : Template) :
  SpeciesOk sp = true ->
  reserved (JS.toLowerCase (tier sp)) = false
  /\ reserved (JS.toLowerCase (color sp)) = false
  /\ reserved (slot (types sp) 0) = false
  /\ reserved (slot (types sp) 1) = false
  /\ forall a, In a (abilities sp) -> reserved (e_name (getAbility (snd a))) = false.
Proof.
  unfold speciesOk. intros H.
  repeat (apply andb_prop in H; destruct H as [H ?]).
  repeat match goal with
         | X : negb _ = true |- _ => apply negb_true_iff in X
         end.
  repeat split; try assumption.
  intros a Ha. rewrite forallb_forall in H0. apply negb_true_iff. now apply H0.
Qed.

(** every filter narrows the working set *)
Lemma stage_incl (k : Kind) (o : JS.obj) (temp rs : list Template) :
  Stage k o temp = inl rs -> incl rs temp.
Proof.
  intros Hst sp Hin. destruct k; simpl in Hst.
  - apply byMoves_filter in Hst. subst rs. now apply filter_In in Hin.
  - injection Hst as <-. apply in_flat_map in Hin. destruct Hin as [mon [Hmon Hin]].
    apply in_flat_map in Hin. destruct Hin as [a [_ Hin]].
    apply in_addIf in Hin. now destruct Hin as [_ <-].
  - injection Hst as <-. unfold byTiers in Hin. rewrite flat_map_addIf in Hin.
    now apply filter_In in Hin.
  - injection Hst as <-. unfold byColours in Hin. rewrite flat_map_addIf in Hin.
    now apply filter_In in Hin.
  - injection Hst as <-. unfold byGens in Hin. rewrite flat_map_addIf in Hin.
    now apply filter_In in Hin.
  - injection Hst as <-. apply in_flat_map in Hin. destruct Hin as [mon [Hmon Hin]].
    destruct (countIs o 1); apply in_addIf in Hin; now destruct Hin as [_ <-].
Qed.

Lemma runStages_incl (ks : list Kind) (q : Query) :
  forall temp rs, RunStages ks q temp = inl rs -> incl rs temp.
Proof.
  induction ks as [|k rest IH]; intros temp rs Hrun; simpl in Hrun.
  - injection Hrun as <-. apply incl_refl.
  - destruct (populated (category k q)).
    + destruct (Stage k (category k q) temp) as [temp'|e] eqn:Est; [|discriminate].
      eapply incl_tran; [apply (IH _ _ Hrun) | apply (stage_incl _ _ _ _ Est)].
    + apply (IH _ _ Hrun).
Qed.

End Evaluator.

(** ** The data set of the examples *)

Lemma Demo_lookup_name (table : list (string * string)) (raw : string) :
  e_exists (Demo.lookup table raw) = true ->
  In (e_name (Demo.lookup table raw)) (map snd table).
Proof.
  unfold Demo.lookup.
  destruct (find (fun e => String.eqb (fst e) (Demo.toId raw)) table) as [[i n]|] eqn:E;
    simpl; [|discriminate].
  intros _. apply find_some in E. destruct E as [E _].
  apply in_map_iff. now exists (i, n).
Qed.

Lemma Demo_move_names (raw : string) :
  e_exists (Demo.getMove raw) = true -> e_name (Demo.getMove raw) <> "count".
Proof.
  intros H E. apply Demo_lookup_name in H.
  unfold Demo.getMove, Demo.getAbility in E. rewrite E in H.
  simpl in H. repeat (destruct H as [H | H]; [discriminate|]). exact H.
Qed.

Lemma Demo_ability_names (raw : string) :
  e_exists (Demo.getAbility raw) = true -> e_name (Demo.getAbility raw) <> "count".
Proof.
  intros H E. apply Demo_lookup_name in H.
  unfold Demo.getMove, Demo.getAbility in E. rewrite E in H.
  simpl in H. repeat (destruct H as [H | H]; [discriminate|]). exact H.
Qed.

(** ** The type filter (C2) *)

Lemma in_byTypes (o : JS.obj) (temp : list Template) (sp : Template) :
  In sp (byTypes o temp) <->
  In sp temp
  /\ (if countIs o 1
      then JS.has (slot (types sp) 0) o || JS.has (slot (types sp) 1) o
      else JS.has (slot (types sp) 0) o && JS.has (slot (types sp) 1) o) = true.
Proof.
  unfold byTypes. rewrite in_flat_map. split.
  - intros [mon [Hmon Hin]].
    destruct (countIs o 1); apply in_addIf in Hin; destruct Hin as [Hc <-]; now split.
  - intros [Hin Hc]. exists sp. split; [assumption|].
    destruct (countIs o 1); apply in_addIf; now split.
Qed.

Lemma typesOk_elim (sp : Template) :
  typesOk sp = true ->
  (exists a, types sp = [a] /\ reserved a = false)
  \/ (exists a b, types sp = [a; b] /\ reserved a = false /\ reserved b = false /\ a <> b).
Proof.
  unfold typesOk. destruct (types sp) as [|a [|b [|c r]]]; try discriminate.
  - intros H. left. exists a. split; [reflexivity|]. now apply negb_true_iff.
  - intros H. right. exists a, b.
    apply andb_prop in H. destruct H as [H H3]. apply andb_prop in H. destruct H as [H1 H2].
    apply negb_true_iff in H1, H2, H3. apply String.eqb_neq in H3. now repeat split.
Qed.

(** C2, as amended: for a species whose slots hold one proper type name
    or two different ones, a Type category made of one token keeps the
    species iff one of its slots is the requested type, and a Type
    category made of two tokens that name two different types keeps it
    iff it has both requested types, in either slot order. *)
Theorem byTypes_one_or_both (o : JS.obj) (temp : list Template) (sp : Template) :
  typesOk sp = true ->
  (forall T,
      T <> "undefined" -> countOf o = Some 1 -> members o = [T] ->
      (In sp (byTypes o temp) <-> In sp temp /\ In T (types sp)))
  /\ (forall T1 T2,
        T1 <> T2 -> T1 <> "undefined" -> T2 <> "undefined" ->
        countOf o = Some 2 -> members o = [T1; T2] ->
        (In sp (byTypes o temp) <->
         In sp temp /\ In T1 (types sp) /\ In T2 (types sp))).
Proof.
  intros Hok. apply typesOk_elim in Hok. split.
  - intros T Hu Hc Hm. rewrite in_byTypes. unfold countIs. rewrite Hc. cbn [Nat.eqb]. unfold slot.
    destruct Hok as [[a [Ht Ha]] | [a [b [Ht [Ha [Hb Hab]]]]]]; rewrite Ht; cbn [nth].
    + rewrite (has_members a o Ha), (has_members "undefined" o) by reflexivity.
      rewrite Hm. unfold JS.mem. cbn [existsb In].
      destruct (String.eqb_spec a T), (String.eqb_spec "undefined" T); cbn [orb andb];
        intuition congruence.
    + rewrite (has_members a o Ha), (has_members b o Hb). rewrite Hm. unfold JS.mem. cbn [existsb In].
      destruct (String.eqb_spec a T), (String.eqb_spec b T); cbn [orb andb]; intuition congruence.
  - intros T1 T2 Hne Hu1 Hu2 Hc Hm. rewrite in_byTypes. unfold countIs. rewrite Hc. cbn [Nat.eqb]. unfold slot.
    destruct Hok as [[a [Ht Ha]] | [a [b [Ht [Ha [Hb Hab]]]]]]; rewrite Ht; cbn [nth].
    + rewrite (has_members a o Ha), (has_members "undefined" o) by reflexivity.
      rewrite Hm. unfold JS.mem. cbn [existsb In].
      destruct (String.eqb_spec a T1), (String.eqb_spec a T2),
               (String.eqb_spec "undefined" T1), (String.eqb_spec "undefined" T2); cbn [orb andb];
        intuition congruence.
    + rewrite (has_members a o Ha), (has_members b o Hb). rewrite Hm. unfold JS.mem. cbn [existsb In].
      destruct (String.eqb_spec a T1), (String.eqb_spec a T2),
               (String.eqb_spec b T1), (String.eqb_spec b T2); cbn [orb andb];
        intuition congruence.
Qed.

(** C2 on the data set of the examples: Charizard, whose slots are Fire
    and Flying, under the categories of [flying type, fire type] and of
    [fire type]. *)
Lemma byTypes_one_or_both_witness :
  typesOk Demo.charizard = true
  /\ (In Demo.charizard (byTypes [("count", 1); ("Fire", 1)] Demo.allSpecies) <->
      In Demo.charizard Demo.allSpecies /\ In "Fire" (types Demo.charizard))
  /\ (In Demo.charizard (byTypes [("count", 2); ("Flying", 1); ("Fire", 1)] Demo.allSpecies) <->
      In Demo.charizard Demo.allSpecies
      /\ In "Flying" (types Demo.charizard) /\ In "Fire" (types Demo.charizard)).
Proof.
  split; [reflexivity|]. split.
  - apply (proj1 (byTypes_one_or_both [("count", 1); ("Fire", 1)] Demo.allSpecies
                    Demo.charizard eq_refl) "Fire");
      [discriminate | reflexivity | reflexivity].
  - apply (proj2 (byTypes_one_or_both [("count", 2); ("Flying", 1); ("Fire", 1)]
                    Demo.allSpecies Demo.charizard eq_refl) "Flying" "Fire");
      [discriminate | discriminate | discriminate | reflexivity | reflexivity].
Defined.

(** The query [fire type, fire type] requests one type with two tokens:
    the counter of the category is 2, so both slots of a species must
    be Fire, and no species of the catalog is kept, although Charizard
    and Charmander have the requested type. *)
Lemma byTypes_one_or_both_counterexample :
  exists q,
    classifyAll Demo.getMove Demo.getAbility Demo.inTypeChart false emptyQuery
                (JS.split "," "fire type, fire type") = inl q
    /\ members (qtypes q) = ["Fire"]
    /\ countOf (qtypes q) = Some 2
    /\ In "Fire" (types Demo.charizard)
    /\ In "Fire" (types Demo.charmander)
    /\ byTypes (qtypes q) Demo.allSpecies = []
    /\ Demo.dexsearch false "fire type, fire type" = SendReplyBox msgNoPokemon.
Proof.
  eexists. split; [reflexivity|].
  repeat split; try reflexivity; simpl; tauto.
Qed.

(** ** The limits of the categories and the lone [all] (C6) *)

Section Limits.

Variable getMove : string -> Effect.
Variable getAbility : string -> Effect.
Variable inTypeChart : string -> bool.
Variable pokedex : list string.
Variable getTemplate : string -> Template.
Variable LsetData : Type.
Variable checkLearnset : Effect -> Template -> LsetData -> bool * LsetData.
Variable newLsetData : LsetData.
Variable broadcasting : bool.
Variable shuffle : list string -> list string.

Hypothesis move_names : forall raw,
  e_exists (getMove raw) = true -> e_name (getMove raw) <> "count".
Hypothesis ability_names : forall raw,
  e_exists (getAbility raw) = true -> e_name (getAbility raw) <> "count".

Local Abbreviation Classify := (classify getMove getAbility inTypeChart broadcasting).
Local Abbreviation ClassifyAll := (classifyAll getMove getAbility inTypeChart broadcasting).
Local Abbreviation ClassOf := (classOf getMove getAbility inTypeChart).
Local Abbreviation TokensOf := (tokensOf getMove getAbility inTypeChart).
Local Abbreviation IsAllToken := (isAllToken getMove getAbility inTypeChart).
Local Abbreviation Dexsearch :=
  (dexsearch getMove getAbility inTypeChart pokedex getTemplate LsetData checkLearnset
             newLsetData broadcasting shuffle).

Lemma accumulate_limit (k : Kind) (m : nat) (msg key : string) (q : Query) :
  limit k = Some (m, msg) -> 0 < m -> countOf (category k q) = Some m ->
  accumulate k key q = inr (SendReply msg).
Proof.
  intros Hl Hm Hc. unfold accumulate, populate. rewrite Hc.
  destruct m as [|m]; [lia|]. simpl. rewrite Hl. unfold countIs. rewrite Hc.
  now rewrite Nat.eqb_refl.
Qed.

(** a token of a category that is at its limit ends the query *)
Lemma over_limit (k : Kind) (m : nat) (msg : string)
    (pre : list string) (t : string) (post : list string) (q : Query) :
  limit k = Some (m, msg) -> 0 < m ->
  ClassifyAll emptyQuery pre = inl q ->
  length (TokensOf k pre) = m ->
  ClassOf t = Some (Member k) ->
  ClassifyAll emptyQuery (pre ++ t :: post) = inr (SendReply msg).
Proof.
  intros Hl Hm Hrun Hlen Hclass.
  rewrite classifyAll_app, Hrun. simpl.
  rewrite classify_classOf, Hclass.
  destruct (classifyAll_tokens getMove getAbility inTypeChart broadcasting
              move_names ability_names pre q Hrun) as [Hobj _].
  specialize (Hobj k). rewrite Hlen in Hobj.
  destruct m as [|m]; [lia|]. destruct Hobj as [Hc _].
  now rewrite (accumulate_limit k (S m) msg _ q Hl Hm Hc).
Qed.

Lemma tokensOf_app (k : Kind) (a b : list string) :
  TokensOf k (a ++ b) = (TokensOf k a ++ TokensOf k b)%list.
Proof. unfold tokensOf. apply filter_app. Qed.

Lemma within_limit (k : Kind) (m : nat) (msg : string) :
  limit k = Some (m, msg) -> 0 < m ->
  forall targets q,
    ClassifyAll emptyQuery targets = inl q -> length (TokensOf k targets) <= m.
Proof.
  intros Hl Hm targets. induction targets as [|t pre IH] using rev_ind; intros q Hrun.
  - simpl. lia.
  - pose proof Hrun as Hrun'. rewrite classifyAll_app in Hrun'.
    destruct (ClassifyAll emptyQuery pre) as [q1|r] eqn:Hpre; [|discriminate].
    specialize (IH q1 eq_refl).
    rewrite tokensOf_app, length_app. unfold tokensOf at 2. simpl.
    destruct (isOf getMove getAbility inTypeChart k t) eqn:Eis; simpl; [|lia].
    assert (Hclass : ClassOf t = Some (Member k)).
    { unfold isOf in Eis. destruct (ClassOf t) as [[k'|]|]; try discriminate.
      apply Kind_eqb_eq in Eis. now subst. }
    destruct (Nat.eq_dec (length (TokensOf k pre)) m) as [Heq | Hneq]; [|lia].
    rewrite (over_limit k m msg pre t [] q1 Hl Hm Hpre Heq Hclass) in Hrun.
    discriminate.
Qed.

Lemma classify_showAll (q q' : Query) (raw : string) :
  Classify q raw = inl q' -> showAll q' = showAll q || IsAllToken raw.
Proof.
  rewrite classify_classOf. unfold isAllToken.
  destruct (ClassOf raw) as [[k|]|].
  - intros H. apply accumulate_inl in H. subst q'.
    now rewrite showAll_setCategory, orb_false_r.
  - destruct broadcasting; [discriminate|]. intros H. injection H as <-.
    simpl. now rewrite orb_true_r.
  - destruct (JS.indexOf " type" (normal raw)); [|discriminate].
    intros H. injection H as <-. now rewrite orb_false_r.
Qed.

Lemma classifyAll_showAll (targets : list string) :
  forall q q', ClassifyAll q targets = inl q' ->
               showAll q' = showAll q || existsb IsAllToken targets.
Proof.
  induction targets as [|raw rest IH]; intros q q' H; simpl in H.
  - injection H as <-. simpl. now rewrite orb_false_r.
  - destruct (Classify q raw) as [q1|r] eqn:E; [|discriminate].
    rewrite (IH _ _ H), (classify_showAll _ _ _ E). simpl. now rewrite orb_assoc.
Qed.

Lemma count_zero (targets : list string) (q : Query) :
  ClassifyAll emptyQuery targets = inl q ->
  (forall k, TokensOf k targets = []) -> count q = 0.
Proof.
  intros Hrun Hnone.
  destruct (classifyAll_tokens getMove getAbility inTypeChart broadcasting
              move_names ability_names targets q Hrun) as [_ Hcount].
  rewrite Hcount. unfold allKinds. simpl. now rewrite !Hnone.
Qed.

(** C6: after four Move tokens a fifth one ends the query with the move
    limit reply, after one Ability token a second one with the ability
    limit reply, after two Type tokens a third one with the type limit
    reply; and a query that is classified with the [all] flag set and no
    token in any category ends with the reply that no parameter other
    than [all] was found, as does the query [all] itself when it is not
    broadcast. *)
Theorem limits_and_lone_all :
  (forall pre t post q,
      ClassifyAll emptyQuery pre = inl q ->
      length (TokensOf KMove pre) = 4 -> ClassOf t = Some (Member KMove) ->
      ClassifyAll emptyQuery (pre ++ t :: post) = inr (SendReply msgMoveLimit))
  /\ (forall pre t post q,
        ClassifyAll emptyQuery pre = inl q ->
        length (TokensOf KAbility pre) = 1 -> ClassOf t = Some (Member KAbility) ->
        ClassifyAll emptyQuery (pre ++ t :: post) = inr (SendReply msgAbilityLimit))
  /\ (forall pre t post q,
        ClassifyAll emptyQuery pre = inl q ->
        length (TokensOf KType pre) = 2 -> ClassOf t = Some (Member KType) ->
        ClassifyAll emptyQuery (pre ++ t :: post) = inr (SendReply msgTypeLimit))
  /\ (forall target r,
        target <> "" ->
        ClassifyAll emptyQuery (JS.split "," target) = inr r ->
        Dexsearch target = r)
  /\ (forall target q,
        target <> "" ->
        ClassifyAll emptyQuery (JS.split "," target) = inl q ->
        existsb IsAllToken (JS.split "," target) = true ->
        (forall k, TokensOf k (JS.split "," target) = []) ->
        Dexsearch target = SendReply msgOnlyAll)
  /\ (broadcasting = false ->
      e_exists (getMove "all") = false -> e_exists (getAbility "all") = false ->
      Dexsearch "all" = SendReply msgOnlyAll).
Proof.
  split; [|split; [|split; [|split; [|split]]]].
  - intros pre t post q. apply over_limit; [reflexivity | lia].
  - intros pre t post q. apply over_limit; [reflexivity | lia].
  - intros pre t post q. apply over_limit; [reflexivity | lia].
  - intros target r Hne Hrun. unfold dexsearch.
    apply String.eqb_neq in Hne. now rewrite Hne, Hrun.
  - intros target q Hne Hrun Hall Hnone. unfold dexsearch.
    apply String.eqb_neq in Hne. rewrite Hne, Hrun.
    rewrite (classifyAll_showAll _ _ _ Hrun), Hall.
    now rewrite (count_zero _ _ Hrun Hnone).
  - intros Hb Hm Ha. unfold dexsearch. simpl. unfold classify.
    rewrite Hm, Ha, Hb. reflexivity.
Qed.

End Limits.

(** C6 on the data set of the examples. *)
Lemma limits_and_lone_all_witness :
  classifyAll Demo.getMove Demo.getAbility Demo.inTypeChart false emptyQuery
              (["ember"; "fly"; "tackle"; "surf"] ++ "growl" :: ["ou"])
  = inr (SendReply msgMoveLimit)
  /\ classifyAll Demo.getMove Demo.getAbility Demo.inTypeChart false emptyQuery
                 (["blaze"] ++ "torrent" :: [])
     = inr (SendReply msgAbilityLimit)
  /\ classifyAll Demo.getMove Demo.getAbility Demo.inTypeChart false emptyQuery
                 (["fire type"; "ou"; "water type"] ++ "grass type" :: [])
     = inr (SendReply msgTypeLimit)
  /\ Demo.dexsearch false "all, ALL " = SendReply msgOnlyAll
  /\ Demo.dexsearch false "all" = SendReply msgOnlyAll.
Proof.
  pose proof (limits_and_lone_all Demo.getMove Demo.getAbility Demo.inTypeChart Demo.pokedex
                Demo.getTemplate Demo.Lset Demo.checkLearnset Demo.newLsetData false
                Demo.shuffle Demo_move_names Demo_ability_names)
    as (Hmove & Hability & Htype & _ & Hall & Hlone).
  split; [|split; [|split; [|split]]].
  - eapply Hmove; reflexivity.
  - eapply Hability; reflexivity.
  - eapply Htype; reflexivity.
  - eapply Hall; try reflexivity. discriminate.
  - apply Hlone; reflexivity.
Defined.

(** ** The counter of a category (C7) *)

Section Counters.

Variable getMove : string -> Effect.
Variable getAbility : string -> Effect.
Variable inTypeChart : string -> bool.
Variable broadcasting : bool.

Hypothesis move_names : forall raw,
  e_exists (getMove raw) = true -> e_name (getMove raw) <> "count".
Hypothesis ability_names : forall raw,
  e_exists (getAbility raw) = true -> e_name (getAbility raw) <> "count".

Local Abbreviation ClassifyAll := (classifyAll getMove getAbility inTypeChart broadcasting).
Local Abbreviation TokensOf := (tokensOf getMove getAbility inTypeChart).

(** C7, as amended: at every point of the accumulation (after every
    prefix of an accepted list of tokens) and for every category, the
    stored counter is the number of tokens that were classified into the
    category, repeated names included ([undefined] when there was none);
    the members are pairwise different and there are at most as many of
    them as the counter says. *)
Theorem counter_counts_tokens (pre post : list string) (q : Query) (k : Kind) :
  ClassifyAll emptyQuery (pre ++ post) = inl q ->
  exists q1,
    ClassifyAll emptyQuery pre = inl q1
    /\ countOf (category k q1)
       = match length (TokensOf k pre) with
         | 0 => None
         | n => Some n
         end
    /\ NoDup (members (category k q1))
    /\ length (members (category k q1)) <= length (TokensOf k pre).
Proof.
  intros Hrun. rewrite classifyAll_app in Hrun.
  destruct (ClassifyAll emptyQuery pre) as [q1|r] eqn:Hpre; [|discriminate].
  exists q1. split; [reflexivity|].
  destruct (classifyAll_tokens getMove getAbility inTypeChart broadcasting
              move_names ability_names pre q1 Hpre) as [Hobj _].
  specialize (Hobj k). destruct (length (TokensOf k pre)) as [|n]; simpl in Hobj.
  - rewrite Hobj. repeat split; [constructor | simpl; lia].
  - destruct Hobj as [Hc [Hnd Hlen]]. repeat split; try assumption.
    unfold members. now apply NoDup_filter.
Qed.

End Counters.

(** C7 on the data set of the examples: after [ou, OU , fire type] of
    the query [ou, OU , fire type,red], with the two tier tokens. *)
Lemma counter_counts_tokens_witness :
  exists q1,
    classifyAll Demo.getMove Demo.getAbility Demo.inTypeChart false emptyQuery
                ["ou"; " OU "; " fire type"] = inl q1
    /\ countOf (category KTier q1)
       = match length (tokensOf Demo.getMove Demo.getAbility Demo.inTypeChart KTier
                                ["ou"; " OU "; " fire type"]) with
         | 0 => None
         | n => Some n
         end
    /\ NoDup (members (category KTier q1))
    /\ length (members (category KTier q1))
       <= length (tokensOf Demo.getMove Demo.getAbility Demo.inTypeChart KTier
                           ["ou"; " OU "; " fire type"]).
Proof.
  apply (counter_counts_tokens Demo.getMove Demo.getAbility Demo.inTypeChart false
           Demo_move_names Demo_ability_names ["ou"; " OU "; " fire type"] ["red"]
           (mkQuery [] [] [("count", 2); ("ou", 1)] [("count", 1); ("red", 1)] []
                    [("count", 1); ("Fire", 1)] 3 false) KTier).
  reflexivity.
Defined.

(** The query [ou, ou] names one tier twice: the counter of the Tier
    category is 2 and the category has one member. *)
Lemma counter_counts_tokens_counterexample :
  exists q,
    classifyAll Demo.getMove Demo.getAbility Demo.inTypeChart false emptyQuery
                (JS.split "," "ou, ou") = inl q
    /\ countOf (tiers q) = Some 2
    /\ members (tiers q) = ["ou"]
    /\ countOf (tiers q) <> Some (length (members (tiers q))).
Proof.
  eexists. split; [reflexivity|]. repeat split. discriminate.
Qed.

(** ** Tokens that are dropped *)

Section Classification.

Variable getMove : string -> Effect.
Variable getAbility : string -> Effect.
Variable inTypeChart : string -> bool.
Variable broadcasting : bool.

Local Abbreviation Classify := (classify getMove getAbility inTypeChart broadcasting).
Local Abbreviation ClassOf := (classOf getMove getAbility inTypeChart).

(** A token with [" type"] in it whose text before it names no type of
    the chart is dropped: the loop goes on with the next token, and the
    query is not aborted. *)
Lemma unknown_type_dropped (q : Query) (raw : string) (idx : nat) :
  ClassOf raw = None -> JS.indexOf " type" (normal raw) = Some idx ->
  Classify q raw = inl q.
Proof. intros Hc Hi. now rewrite classify_classOf, Hc, Hi. Qed.

End Classification.

(** ** Tokens that begin with an integer (C10) *)

Lemma digit_facts (c : ascii) :
  isDecimalDigit c = true ->
  JS.isWhiteSpace c = false
  /\ Ascii.eqb c "-" = false /\ Ascii.eqb c "+" = false
  /\ Ascii.eqb c "x" = false /\ Ascii.eqb c "X" = false
  /\ JS.radixDigit 10 c = Some (nat_of_ascii c - 48).
Proof.
  destruct c as [[] [] [] [] [] [] [] []]; vm_compute; intros H;
    try discriminate H; repeat split.
Qed.

Lemma nondigit_facts (c : ascii) :
  isDecimalDigit c = false -> JS.radixDigit 10 c = None.
Proof.
  destruct c as [[] [] [] [] [] [] [] []]; vm_compute; intros H;
    try discriminate H; reflexivity.
Qed.

Lemma parseDigits_decimal (digits rest : string) :
  allDigits digits = true -> startsWithDigit rest = false ->
  forall acc,
    JS.parseDigits 10 (digits ++ rest) acc
    = match digits with
      | EmptyString => acc
      | _ => Some (valueOnto digits (match acc with Some a => a | None => 0%Z end))
      end.
Proof.
  intros Hd Hr. induction digits as [|c ds IH]; intros acc.
  - simpl. destruct rest as [|c r]; [reflexivity|]. simpl in *.
    now rewrite (nondigit_facts c Hr).
  - simpl in Hd. apply andb_prop in Hd. destruct Hd as [Hc Hds].
    destruct (digit_facts c Hc) as (_ & _ & _ & _ & _ & Hv).
    cbn [append JS.parseDigits]. rewrite Hv, (IH Hds).
    destruct ds; reflexivity.
Qed.

(** [parseInt] reads the decimal numeral at the head of a string and
    ignores what follows it *)
Lemma parseInt_leading (digits rest : string) :
  digits <> "" -> allDigits digits = true -> startsWithDigit rest = false ->
  (0 < decimalValue digits)%Z ->
  JS.parseInt (digits ++ rest) = Some (decimalValue digits).
Proof.
  intros Hne Hd Hr Hpos. destruct digits as [|c ds]; [congruence|].
  pose proof Hd as Hd'. simpl in Hd'. apply andb_prop in Hd'. destruct Hd' as [Hc Hds].
  destruct (digit_facts c Hc) as (Hw & Hm & Hp & _ & _ & _).
  unfold JS.parseInt. cbn [append JS.trimLeft]. rewrite Hw, Hm, Hp.
  assert (Hhex : JS.hexPrefix (String c (ds ++ rest)) = None).
  { unfold JS.hexPrefix. destruct ds as [|c2 ds]; simpl.
    - destruct rest as [|c2 r]; [reflexivity|].
      destruct (Ascii.eqb_spec c "0"); [|reflexivity].
      subst c. vm_compute in Hpos. discriminate.
    - simpl in Hds. apply andb_prop in Hds. destruct Hds as [Hc2 _].
      destruct (digit_facts c2 Hc2) as (_ & _ & _ & Hx & HX & _).
      now rewrite Hx, HX, andb_false_r. }
  unfold JS.parseUnsigned. rewrite Hhex.
  change (String c (ds ++ rest)) with (String c ds ++ rest).
  now rewrite (parseDigits_decimal (String c ds) rest Hd Hr).
Qed.

Lemma in_members_addMember (o : JS.obj) (key : string) :
  reserved key = false -> In key (members (addMember o key)).
Proof.
  intros Hres. unfold addMember, bump. rewrite members_set_count.
  unfold reserved in Hres. apply orb_false_elim in Hres. destruct Hres as [Hc Hp].
  assert (Hproto : String.eqb key "__proto__" = false).
  { destruct (String.eqb_spec key "__proto__"); [subst key; discriminate | reflexivity]. }
  unfold JS.set, members. rewrite Hproto.
  apply filter_In. split; [|now rewrite Hc].
  rewrite keys_put. destruct (JS.mem key (JS.keys o)) eqn:E.
  - now apply mem_In.
  - apply in_or_app. right. now left.
Qed.

Section LeadingInteger.

Variable getMove : string -> Effect.
Variable getAbility : string -> Effect.
Variable inTypeChart : string -> bool.
Variable broadcasting : bool.

Local Abbreviation Classify := (classify getMove getAbility inTypeChart broadcasting).
Local Abbreviation ClassOf := (classOf getMove getAbility inTypeChart).


End LeadingInteger.


(** ** The classification of a token (C5) *)

Lemma find_first {A : Type} (f : A -> bool) (l : list A) (x : A) :
  find f l = Some x ->
  f x = true
  /\ exists pre post, l = (pre ++ x :: post)%list /\ forall y, In y pre -> f y = false.
Proof.
  induction l as [|a r IH]; simpl; [discriminate|].
  destruct (f a) eqn:E.
  - intros H. injection H as <-. split; [assumption|].
    exists [], r. split; [reflexivity | intros y []].
  - intros H. destruct (IH H) as [Hx [pre [post [-> Hpre]]]]. split; [assumption|].
    exists (a :: pre), post. split; [reflexivity|].
    intros y [<- | Hy]; [assumption | now apply Hpre].
Qed.

Lemma find_after {A : Type} (f : A -> bool) (pre : list A) (x : A) (post : list A) :
  f x = true -> (forall y, In y pre -> f y = false) ->
  find f (pre ++ x :: post) = Some x.
Proof.
  intros Hx Hpre. induction pre as [|a r IH]; simpl.
  - now rewrite Hx.
  - rewrite (Hpre a (or_introl eq_refl)). apply IH. intros y Hy. apply Hpre. now right.
Qed.

Lemma find_none_all {A : Type} (f : A -> bool) (l : list A) :
  (forall x, In x l -> f x = false) -> find f l = None.
Proof.
  intros H. induction l as [|a r IH]; simpl; [reflexivity|].
  rewrite (H a (or_introl eq_refl)). apply IH. intros y Hy. apply H. now right.
Qed.

Section Priority.

Variable getMove : string -> Effect.
Variable getAbility : string -> Effect.
Variable inTypeChart : string -> bool.
Variable pokedex : list string.
Variable getTemplate : string -> Template.
Variable LsetData : Type.
Variable checkLearnset : Effect -> Template -> LsetData -> bool * LsetData.
Variable newLsetData : LsetData.
Variable broadcasting : bool.
Variable shuffle : list string -> list string.

Local Abbreviation Classify := (classify getMove getAbility inTypeChart broadcasting).
Local Abbreviation ClassifyAll := (classifyAll getMove getAbility inTypeChart broadcasting).
Local Abbreviation ClassOf := (classOf getMove getAbility inTypeChart).
Local Abbreviation Recognises := (recognises getMove getAbility inTypeChart).
Local Abbreviation Passes := (passes getMove getAbility inTypeChart).
Local Abbreviation MemberKey := (memberKey getMove getAbility).
Local Abbreviation Dexsearch :=
  (dexsearch getMove getAbility inTypeChart pokedex getTemplate LsetData checkLearnset
             newLsetData broadcasting shuffle).

(** for a token that is not the name of a property that every object
    inherits, the tests of the command are those of the specification *)
Lemma recognises_passes (raw : string) (c : Class) :
  JS.mem (normal raw) JS.objectPrototypeKeys = false ->
  Recognises c raw = Passes c raw.
Proof.
  intros Hp. destruct c as [[]|]; try reflexivity; unfold recognises, passes, JS.has.
  - now rewrite Hp, orb_false_r.
  - now rewrite Hp, orb_false_r.
Qed.

Lemma classOf_passes (raw : string) :
  JS.mem (normal raw) JS.objectPrototypeKeys = false ->
  ClassOf raw = find (fun c => Passes c raw) priority.
Proof.
  intros Hp. unfold classOf. unfold priority. cbn [find].
  now rewrite !(recognises_passes raw _ Hp).
Qed.

(** C5, as amended: for a token of ASCII text whose trimmed lower-case
    form is not the name of a property that every object inherits, the
    class of the token is the first one, in the order Move lookup,
    Ability lookup, Tier keyword, Colour keyword, Generation (the
    integer that [parseInt] reads at the head of the token is between 1
    and 5), the [all] flag, Type (the token contains [" type"] and the
    text before it names a type of the chart), whose test it passes,
    and the token is stored in that class; when it passes no test and
    does not contain [" type"], it ends the whole query with the reply
    that names the trimmed token, whatever came before it and whatever
    follows, and that reply is all the command returns. *)
Theorem classify_by_priority (raw : string) :
  JS.isAscii raw = true ->
  JS.mem (normal raw) JS.objectPrototypeKeys = false ->
  (forall c,
      ClassOf raw = Some c <->
      Passes c raw = true
      /\ exists before after,
           priority = (before ++ c :: after)%list
           /\ forall c', In c' before -> Passes c' raw = false)
  /\ (forall q k,
        ClassOf raw = Some (Member k) -> Classify q raw = accumulate k (MemberKey k raw) q)
  /\ (forall q,
        ClassOf raw = Some AllFlag ->
        Classify q raw
        = if broadcasting then inr (SendReply msgBroadcastAll) else inl (setAll q))
  /\ (forall pre post q,
        ClassifyAll emptyQuery pre = inl q ->
        (forall c, Passes c raw = false) ->
        JS.indexOf " type" (normal raw) = None ->
        ClassifyAll emptyQuery (pre ++ raw :: post)
        = inr (SendReply (dq ++ JS.trim raw ++ dq
                          ++ " could not be found in any of the search categories."))
        /\ forall target,
             target <> "" ->
             JS.split "," target = (pre ++ raw :: post)%list ->
             Dexsearch target
             = SendReply (dq ++ JS.trim raw ++ dq
                          ++ " could not be found in any of the search categories.")).
Proof.
  intros _ Hp. pose proof (classOf_passes raw Hp) as Hclass.
  split; [|split; [|split]].
  - intros c. rewrite Hclass. split.
    + intros H. now apply find_first in H.
    + intros [Hc [before [after [Hpri Hbefore]]]]. rewrite Hpri.
      now apply find_after.
  - intros q k H. now rewrite classify_classOf, H.
  - intros q H. now rewrite classify_classOf, H.
  - intros pre post q Hpre Hnone Hi.
    assert (Hc : ClassOf raw = None).
    { rewrite Hclass. apply find_none_all. intros c _. apply Hnone. }
    assert (Hrun : ClassifyAll emptyQuery (pre ++ raw :: post)
                   = inr (SendReply (dq ++ JS.trim raw ++ dq
                            ++ " could not be found in any of the search categories."))).
    { rewrite classifyAll_app, Hpre. simpl. now rewrite classify_classOf, Hc, Hi. }
    split; [exact Hrun|].
    intros target Hne Hsplit. unfold dexsearch.
    apply String.eqb_neq in Hne. now rewrite Hne, Hsplit, Hrun.
Qed.

End Priority.

(** C5 on the data set of the examples: [ OU ] is a tier, the third
    class in the order, and in [fire type, ou,firepunch,red] the third
    token passes no test and ends the query. *)
Lemma classify_by_priority_witness :
  classOf Demo.getMove Demo.getAbility Demo.inTypeChart " OU " = Some (Member KTier)
  /\ Demo.dexsearch false "fire type, ou,firepunch,red"
     = SendReply (dq ++ "firepunch" ++ dq
                  ++ " could not be found in any of the search categories.").
Proof.
  split.
  - apply (proj1 (classify_by_priority Demo.getMove Demo.getAbility Demo.inTypeChart
                    Demo.pokedex Demo.getTemplate Demo.Lset Demo.checkLearnset
                    Demo.newLsetData false Demo.shuffle " OU " eq_refl eq_refl)).
    split; [reflexivity|].
    exists [Member KMove; Member KAbility], [Member KColour; Member KGen; AllFlag; Member KType].
    split; [reflexivity|].
    intros c' [<- | [<- | []]]; reflexivity.
  - apply (proj2 (proj2 (proj2 (classify_by_priority Demo.getMove Demo.getAbility
                    Demo.inTypeChart Demo.pokedex Demo.getTemplate Demo.Lset
                    Demo.checkLearnset Demo.newLsetData false Demo.shuffle "firepunch"
                    eq_refl eq_refl))) ["fire type"; " ou"] ["red"] _ eq_refl).
    + intros [[]|]; reflexivity.
    + reflexivity.
    + discriminate.
    + reflexivity.
Defined.

(** Two tokens that the specification refuses and the command accepts.
    [3x] is no move, no ability, no tier and no colour, none of the
    integers 1 to 5, not [all], and has no [" type"] in it: it is stored
    as generation 3.  [fire type xyz] does not end in [" type"]: it is
    stored as the type Fire. *)
Lemma classify_by_priority_counterexample :
  (e_exists (Demo.getMove "3x") = false
   /\ e_exists (Demo.getAbility "3x") = false
   /\ ~ In "3x" tierKeywords
   /\ ~ In "3x" colourKeywords
   /\ ~ In "3x" ["1"; "2"; "3"; "4"; "5"]
   /\ "3x" <> "all"
   /\ JS.indexOf " type" "3x" = None
   /\ classifyAll Demo.getMove Demo.getAbility Demo.inTypeChart false emptyQuery
                  (JS.split "," "3x")
      = inl (mkQuery [] [] [] [] [("count", 1); ("3", 1)] [] 1 false)
   /\ Demo.dexsearch false "3x" = SendReplyBox msgNoPokemon)
  /\ (classifyAll Demo.getMove Demo.getAbility Demo.inTypeChart false emptyQuery
                  (JS.split "," "fire type xyz")
      = inl (mkQuery [] [] [] [] [] [("count", 1); ("Fire", 1)] 1 false)
      /\ Demo.dexsearch false "fire type xyz"
         = SendReplyBox "Charizard, Charmander, Moltres, Ho-Oh").
Proof.
  assert (Hout : forall l, JS.mem "3x" l = false -> ~ In "3x" l).
  { intros l H Hin. apply mem_In in Hin. congruence. }
  split.
  - repeat split; try reflexivity; try discriminate; now apply Hout.
  - split; reflexivity.
Qed.
(** ** The result of a search

    What the evaluator returns is first described as the code computes
    it: the first pass over the catalog, then for every species the
    number of times the filters of the populated categories put it into
    the result.  The categories are then read as the specification
    words them. *)

Lemma flat_map_once {A : Type} (l : list A) :
  flat_map (fun x => repeat x 1) l = l.
Proof.
  induction l as [|x r IH]; [reflexivity|].
  cbn [flat_map]. rewrite IH. reflexivity.
Qed.

Lemma flat_map_repeat_repeat {A : Type} (x : A) (n : nat) (g : A -> nat) :
  flat_map (fun y => repeat y (g y)) (repeat x n) = repeat x (n * g x).
Proof.
  induction n as [|n IH]; simpl; [reflexivity|].
  now rewrite IH, repeat_app.
Qed.

Lemma flat_map_repeat_twice {A : Type} (f g : A -> nat) (l : list A) :
  flat_map (fun x => repeat x (g x)) (flat_map (fun x => repeat x (f x)) l)
  = flat_map (fun x => repeat x (f x * g x)) l.
Proof.
  induction l as [|x r IH]; simpl; [reflexivity|].
  now rewrite flat_map_app, IH, flat_map_repeat_repeat.
Qed.

Lemma flat_map_repeat_ext {A : Type} (f g : A -> nat) (l : list A) :
  (forall x, In x l -> f x = g x) ->
  flat_map (fun x => repeat x (f x)) l = flat_map (fun x => repeat x (g x)) l.
Proof.
  intros H. induction l as [|x r IH]; simpl; [reflexivity|].
  rewrite (H x (or_introl eq_refl)), IH; [reflexivity|].
  intros y Hy. apply H. now right.
Qed.

Lemma flat_map_repeat_filter {A : Type} (c : A -> bool) (l : list A) :
  flat_map (fun x => repeat x (if c x then 1 else 0)) l = filter c l.
Proof.
  induction l as [|x r IH]; simpl; [reflexivity|].
  rewrite IH. now destruct (c x).
Qed.

(** a list that repeats the elements of a filtered list *)
Lemma flat_map_repeat_when {A : Type} (c : A -> bool) (n : A -> nat) (l : list A) :
  flat_map (fun x => repeat x (if c x then n x else 0)) l
  = flat_map (fun x => repeat x (n x)) (filter c l).
Proof.
  induction l as [|x r IH]; simpl; [reflexivity|].
  rewrite IH. now destruct (c x).
Qed.

Lemma in_flat_map_repeat {A : Type} (n : A -> nat) (l : list A) (x : A) :
  In x (flat_map (fun y => repeat y (n y)) l) <-> In x l /\ 0 < n x.
Proof.
  rewrite in_flat_map. split.
  - intros [y [Hy Hx]]. apply repeat_spec in Hx as Heq. subst y.
    split; [assumption|]. destruct (n x); [destruct Hx | lia].
  - intros [Hx Hn]. exists x. split; [assumption|].
    destruct (n x) as [|m]; [lia | now left].
Qed.

Lemma slot_adds (c : string * string -> bool) (mon : Template)
    (slots : list (string * string)) :
  flat_map (fun a => addIf (c a) mon) slots = repeat mon (length (filter c slots)).
Proof.
  induction slots as [|a r IH]; simpl; [reflexivity|].
  rewrite IH. now destruct (c a).
Qed.

Section Multiplicity.

Variable getMove : string -> Effect.
Variable getAbility : string -> Effect.
Variable pokedex : list string.
Variable getTemplate : string -> Template.
Variable LsetData : Type.
Variable checkLearnset : Effect -> Template -> LsetData -> bool * LsetData.
Variable newLsetData : LsetData.

Local Abbreviation Stage := (stage getMove getAbility getTemplate LsetData checkLearnset newLsetData).
Local Abbreviation RunStages :=
  (runStages getMove getAbility getTemplate LsetData checkLearnset newLsetData).
Local Abbreviation Adds := (adds getMove getAbility getTemplate LsetData checkLearnset newLsetData).
Local Abbreviation Weight :=
  (weight getMove getAbility getTemplate LsetData checkLearnset newLsetData).
Local Abbreviation Evaluate :=
  (evaluate getMove getAbility pokedex getTemplate LsetData checkLearnset newLsetData).

(** the filter of a category puts every species of the working set into
    the result as often as [adds] says, in the order of the working set *)
Lemma stage_adds (k : Kind) (q : Query) (temp rs : list Template) :
  Stage k (category k q) temp = inl rs ->
  rs = flat_map (fun sp => repeat sp (Adds k q sp)) temp.
Proof.
  destruct k; simpl; intros Hst.
  - apply byMoves_filter in Hst. subst rs. symmetry. apply flat_map_repeat_filter.
  - injection Hst as <-. unfold byAbility. apply flat_map_ext. intros mon. apply slot_adds.
  - injection Hst as <-. unfold byTiers. apply flat_map_ext. intros mon.
    now destruct (JS.has (JS.toLowerCase (tier mon)) (tiers q)).
  - injection Hst as <-. unfold byColours. apply flat_map_ext. intros mon.
    now destruct (JS.has (JS.toLowerCase (color mon)) (colours q)).
  - injection Hst as <-. unfold byGens. apply flat_map_ext. intros mon.
    now destruct (JS.has (JS.numToString (gen mon)) (gens q)).
  - injection Hst as <-. unfold byTypes. apply flat_map_ext. intros mon.
    destruct (countIs (qtypes q) 1).
    + now destruct (JS.has (slot (types mon) 0) (qtypes q) || JS.has (slot (types mon) 1) (qtypes q)).
    + now destruct (JS.has (slot (types mon) 0) (qtypes q) && JS.has (slot (types mon) 1) (qtypes q)).
Qed.

Lemma runStages_weight (ks : list Kind) (q : Query) :
  forall temp rs,
    RunStages ks q temp = inl rs ->
    rs = flat_map (fun sp => repeat sp (Weight ks q sp)) temp.
Proof.
  induction ks as [|k rest IH]; intros temp rs Hrun; simpl in Hrun.
  - injection Hrun as <-. simpl. symmetry. apply flat_map_once.
  - cbn [weight]. destruct (populated (category k q)).
    + destruct (Stage k (category k q) temp) as [temp'|e] eqn:Est; [|discriminate].
      apply stage_adds in Est. apply IH in Hrun. subst temp' rs.
      apply flat_map_repeat_twice.
    + apply IH in Hrun. subst rs. apply flat_map_repeat_ext. intros; lia.
Qed.

(** the first pass, as a filter of the catalog *)
Lemma initialResults_filter (q : Query) :
  initialResults pokedex getTemplate q = filter (admissible q) (map getTemplate pokedex).
Proof.
  unfold initialResults, admissible.
  rewrite <- (has_members "cap" (tiers q)) by reflexivity.
  induction pokedex as [|key r IH]; simpl; [reflexivity|].
  rewrite IH.
  now destruct (negb (String.eqb (tier (getTemplate key)) "Illegal")
                && (negb (String.eqb (tier (getTemplate key)) "CAP") || JS.has "cap" (tiers q))).
Qed.

(** The result of an evaluation that does not abort: the species of the
    first pass, in the order of the catalog, each as often as the
    filters of the populated categories add it. *)
Lemma evaluate_entries (q : Query) (rs : list Template) :
  count q = npop q ->
  Evaluate q = inl (Some rs) ->
  rs = entries getMove getAbility pokedex getTemplate LsetData checkLearnset newLsetData q.
Proof.
  intros Hn Hev.
  assert (Hpos : 0 < count q).
  { unfold evaluate in Hev. destruct (count q); [discriminate | lia]. }
  rewrite (evaluate_runStages getMove getAbility pokedex getTemplate LsetData
             checkLearnset newLsetData q Hn Hpos) in Hev.
  destruct (RunStages evalOrder q (initialResults pokedex getTemplate q)) as [rs'|e] eqn:Est;
    simpl in Hev; [|discriminate].
  injection Hev as <-. apply runStages_weight in Est.
  now rewrite initialResults_filter in Est.
Qed.

Lemma in_entries (q : Query) (sp : Template) :
  In sp (entries getMove getAbility pokedex getTemplate LsetData checkLearnset newLsetData q)
  <-> In sp (map getTemplate pokedex) /\ admissible q sp = true
      /\ 0 < Weight evalOrder q sp.
Proof. unfold entries. rewrite in_flat_map_repeat, filter_In. tauto. Qed.

End Multiplicity.

(** *** What an accepted query holds *)

Section Accepted.

Variable getMove : string -> Effect.
Variable getAbility : string -> Effect.
Variable inTypeChart : string -> bool.
Variable broadcasting : bool.

Hypothesis move_names : forall raw,
  e_exists (getMove raw) = true -> e_name (getMove raw) <> "count".
Hypothesis ability_names : forall raw,
  e_exists (getAbility raw) = true -> e_name (getAbility raw) <> "count".

Local Abbreviation Classify := (classify getMove getAbility inTypeChart broadcasting).
Local Abbreviation ClassifyAll := (classifyAll getMove getAbility inTypeChart broadcasting).
Local Abbreviation ClassOf := (classOf getMove getAbility inTypeChart).
Local Abbreviation MemberKey := (memberKey getMove getAbility).
Local Abbreviation TokensOf := (tokensOf getMove getAbility inTypeChart).

(** every member of a category is the key of a token of its class *)
Lemma members_from_tokens (k : Kind) (targets : list string) :
  forall q q',
    ClassifyAll q targets = inl q' ->
    forall key, In key (members (category k q')) ->
      In key (members (category k q))
      \/ exists raw, In raw targets /\ ClassOf raw = Some (Member k) /\ key = MemberKey k raw.
Proof.
  induction targets as [|raw rest IH]; intros q q' Hrun key Hkey; simpl in Hrun.
  - injection Hrun as <-. now left.
  - destruct (Classify q raw) as [q1|r] eqn:Hstep; [|discriminate].
    destruct (IH _ _ Hrun key Hkey) as [Hin | [raw' [Hraw' Hfound]]].
    2: { right. exists raw'. split; [now right | exact Hfound]. }
    rewrite classify_classOf in Hstep.
    destruct (ClassOf raw) as [[k0|]|] eqn:Hclass.
    + apply accumulate_inl in Hstep. subst q1.
      destruct (Kind_eqb k0 k) eqn:Ek.
      * apply Kind_eqb_eq in Ek. subst k0.
        rewrite category_setCategory_same in Hin.
        unfold members in Hin. apply filter_In in Hin. destruct Hin as [Hin Hnc].
        apply in_keys_addMember in Hin.
        destruct Hin as [-> | [-> | Hin]].
        -- discriminate.
        -- right. exists raw. split; [now left|]. now split.
        -- left. unfold members. apply filter_In. now split.
      * left. rewrite category_setCategory_other in Hin; [exact Hin|].
        intros ->. now rewrite Kind_eqb_refl in Ek.
    + destruct broadcasting; [discriminate|]. injection Hstep as <-.
      left. destruct k; exact Hin.
    + destruct (JS.indexOf " type" (normal raw)); [|discriminate].
      injection Hstep as <-. now left.
Qed.

Lemma classOf_move (raw : string) :
  ClassOf raw = Some (Member KMove) -> e_exists (getMove raw) = true.
Proof.
  unfold classOf, priority. simpl.
  destruct (e_exists (getMove raw)); [reflexivity|].
  destruct (e_exists (getAbility raw)); [discriminate|].
  destruct (JS.has (normal raw) allTiers); [discriminate|].
  destruct (JS.has (normal raw) allColours); [discriminate|].
  destruct (isGen (JS.parseInt (normal raw))); [discriminate|].
  destruct (String.eqb (normal raw) "all"); [discriminate|].
  destruct (JS.indexOf " type" (normal raw)); [|discriminate].
  destruct (inTypeChart _); discriminate.
Qed.

(** the counter of a category of an accepted query, its members and its
    limit *)
Lemma accepted_category (k : Kind) (targets : list string) (q : Query) :
  ClassifyAll emptyQuery targets = inl q ->
  populated (category k q) = true ->
  countOf (category k q) = Some (length (TokensOf k targets))
  /\ NoDup (members (category k q))
  /\ length (members (category k q)) <= length (TokensOf k targets)
  /\ forall m msg, limit k = Some (m, msg) -> 0 < m -> length (TokensOf k targets) <= m.
Proof.
  intros Hrun Hpop.
  destruct (classifyAll_tokens getMove getAbility inTypeChart broadcasting
              move_names ability_names targets q Hrun) as [Hobj _].
  specialize (Hobj k).
  destruct (length (TokensOf k targets)) as [|n] eqn:En; simpl in Hobj.
  - rewrite Hobj in Hpop. discriminate.
  - destruct Hobj as [Hc [Hnd Hlen]]. repeat split; try assumption.
    + unfold members. now apply NoDup_filter.
    + intros m msg Hl Hm. rewrite <- En.
      exact (within_limit getMove getAbility inTypeChart broadcasting move_names
               ability_names k m msg Hl Hm targets q Hrun).
Qed.

(** the Type category of an accepted query in which every type token
    names another type: the counter is the number of the requested
    types, of which there are one or two, and none of them is the key
    [undefined] that a missing type slot reads as *)
Lemma accepted_types (targets : list string) (q : Query) :
  ClassifyAll emptyQuery targets = inl q ->
  length (members (qtypes q)) = length (TokensOf KType targets) ->
  populated (qtypes q) = true ->
  countOf (qtypes q) = Some (length (members (qtypes q)))
  /\ NoDup (members (qtypes q))
  /\ 0 < length (members (qtypes q)) <= 2
  /\ ~ In "undefined" (members (qtypes q)).
Proof.
  intros Hrun Hlen Hpop.
  destruct (accepted_category KType targets q Hrun Hpop) as (Hc & Hnd & _ & Hlim).
  simpl in Hc, Hnd. rewrite <- Hlen in Hc.
  specialize (Hlim 2 msgTypeLimit eq_refl ltac:(lia)).
  split; [exact Hc|]. split; [exact Hnd|]. split.
  - split; [|lia]. unfold populated in Hpop. rewrite Hc in Hpop.
    destruct (length (members (qtypes q))); [discriminate | lia].
  - intros Hin.
    destruct (members_from_tokens KType targets emptyQuery q Hrun _ Hin)
      as [[] | [raw [_ [_ Hkey]]]].
    simpl in Hkey. destruct (JS.indexOf " type" (normal raw)) as [idx|]; [|discriminate].
    symmetry in Hkey. now apply typeName_not_undefined in Hkey.
Qed.

(** the Ability category of an accepted query has at most one member *)
Lemma accepted_ability (targets : list string) (q : Query) :
  ClassifyAll emptyQuery targets = inl q ->
  populated (ability q) = true ->
  length (members (ability q)) <= 1.
Proof.
  intros Hrun Hpop.
  destruct (accepted_category KAbility targets q Hrun Hpop) as (_ & _ & Hlen & Hlim).
  specialize (Hlim 1 msgAbilityLimit eq_refl ltac:(lia)). simpl in Hlen. lia.
Qed.

End Accepted.

(** *** The categories as the specification reads them *)

Section Reading.

Variable getMove : string -> Effect.
Variable getAbility : string -> Effect.
Variable pokedex : list string.
Variable getTemplate : string -> Template.
Variable LsetData : Type.
Variable checkLearnset : Effect -> Template -> LsetData -> bool * LsetData.
Variable newLsetData : LsetData.

Local Abbreviation Adds := (adds getMove getAbility getTemplate LsetData checkLearnset newLsetData).
Local Abbreviation Weight :=
  (weight getMove getAbility getTemplate LsetData checkLearnset newLsetData).
Local Abbreviation Satisfies :=
  (satisfies getMove getAbility getTemplate LsetData checkLearnset newLsetData).
Local Abbreviation SatisfiesAll :=
  (satisfiesAll getMove getAbility getTemplate LsetData checkLearnset newLsetData).
Local Abbreviation Copies := (copies getAbility).

Lemma wellFormed_elim (sp : Template) :
  wellFormed getAbility sp = true ->
  speciesOk getAbility sp = true /\ typesOk sp = true.
Proof.
  unfold wellFormed. intros H.
  apply andb_prop in H. destruct H as [H _].
  apply andb_prop in H. destruct H as [H _].
  now apply andb_prop in H.
Qed.

(** The type filter keeps a species iff it has every requested type,
    when the counter of the category is the number of the requested
    types. *)
Lemma adds_types (q : Query) (sp : Template) :
  typesOk sp = true ->
  countOf (qtypes q) = Some (length (members (qtypes q))) ->
  NoDup (members (qtypes q)) ->
  0 < length (members (qtypes q)) <= 2 ->
  ~ In "undefined" (members (qtypes q)) ->
  Adds KType q sp = if Satisfies KType q sp then 1 else 0.
Proof.
  intros Hok Hc Hnd Hlen Hun. unfold adds, satisfies, countIs. cbn [category].
  rewrite Hc.
  assert (Hu : JS.has "undefined" (qtypes q) = false).
  { rewrite has_members by reflexivity.
    destruct (JS.mem "undefined" (members (qtypes q))) eqn:E; [|reflexivity].
    apply mem_In in E. contradiction. }
  apply typesOk_elim in Hok.
  destruct (members (qtypes q)) as [|T1 [|T2 [|T3 r]]] eqn:Hm; simpl in Hlen; try lia.
  - cbn [length Nat.eqb forallb]. unfold slot.
    destruct Hok as [[a [Ht Ha]] | [a [b [Ht [Ha [Hb Hab]]]]]]; rewrite Ht; cbn [nth].
    + fold (slot [a] 1). change (slot [a] 1) with "undefined". rewrite Hu.
      rewrite (has_members a _ Ha), Hm. unfold JS.mem. cbn [existsb].
      rewrite (String.eqb_sym T1 a). now destruct (String.eqb a T1).
    + rewrite (has_members a _ Ha), (has_members b _ Hb), Hm. unfold JS.mem. cbn [existsb].
      rewrite (String.eqb_sym T1 a), (String.eqb_sym T1 b).
      now destruct (String.eqb a T1), (String.eqb b T1).
  - cbn [length Nat.eqb forallb]. unfold slot.
    assert (Hne : T1 <> T2).
    { inversion Hnd as [|? ? Hnot _]. intros ->. apply Hnot. now left. }
    destruct Hok as [[a [Ht Ha]] | [a [b [Ht [Ha [Hb Hab]]]]]]; rewrite Ht; cbn [nth].
    + rewrite Hu, andb_false_r. unfold JS.mem. cbn [existsb].
      destruct (String.eqb_spec T1 a), (String.eqb_spec T2 a); cbn [orb andb];
        try reflexivity. congruence.
    + rewrite (has_members a _ Ha), (has_members b _ Hb), Hm. unfold JS.mem. cbn [existsb].
      destruct (String.eqb_spec a T1), (String.eqb_spec a T2),
               (String.eqb_spec b T1), (String.eqb_spec b T2),
               (String.eqb_spec T1 a), (String.eqb_spec T1 b),
               (String.eqb_spec T2 a), (String.eqb_spec T2 b); cbn [orb andb];
        try reflexivity; congruence.
Qed.

Lemma filter_none {A : Type} (f : A -> bool) (l : list A) :
  existsb f l = false -> filter f l = [].
Proof.
  induction l as [|x r IH]; simpl; [reflexivity|].
  destruct (f x); simpl; [discriminate | exact IH].
Qed.

(** the ability filter adds a species once for each of its slots that
    holds a requested ability *)
Lemma adds_ability (q : Query) (sp : Template) :
  speciesOk getAbility sp = true ->
  Adds KAbility q sp = length (matchingSlots getAbility q sp)
  /\ Adds KAbility q sp
     = if Satisfies KAbility q sp then length (matchingSlots getAbility q sp) else 0.
Proof.
  intros Hok. apply speciesOk_elim in Hok. destruct Hok as (_ & _ & _ & _ & Hab).
  assert (H1 : Adds KAbility q sp = length (matchingSlots getAbility q sp)).
  { unfold adds, matchingSlots. f_equal. apply filter_ext_in.
    intros a Ha. apply has_members. now apply Hab. }
  split; [exact H1|]. rewrite H1. unfold satisfies, matchingSlots. cbn [category].
  destruct (existsb _ (abilities sp)) eqn:E; [reflexivity|].
  now rewrite (filter_none _ _ E).
Qed.

(** what a populated category other than Type and Ability adds *)
Lemma adds_member (k : Kind) (q : Query) (sp : Template) :
  speciesOk getAbility sp = true ->
  k <> KType -> k <> KAbility ->
  Adds k q sp = if Satisfies k q sp then 1 else 0.
Proof.
  intros Hok Ht Ha. apply speciesOk_elim in Hok.
  destruct Hok as (Htier & Hcol & _ & _ & _).
  destruct k; try congruence; unfold adds, satisfies; cbn [category].
  - reflexivity.
  - now rewrite has_members.
  - now rewrite has_members.
  - now rewrite has_members by apply numToString_reserved.
Qed.

Lemma factor_member (p s : bool) :
  (if p then (if s then 1 else 0) else 1) = if negb p || s then 1 else 0.
Proof. now destruct p, s. Qed.

Lemma factor_ability (p s : bool) (n : nat) :
  (if p then (if s then n else 0) else 1)
  = if negb p || s then (if p then n else 1) else 0.
Proof. now destruct p, s. Qed.

(** The species that the evaluation returns, and how often: a species
    that satisfies every populated category once, or once for each
    matching slot when an ability is requested, and no other. *)
Lemma weight_satisfies (q : Query) (sp : Template) :
  wellFormed getAbility sp = true ->
  (populated (qtypes q) = true ->
   countOf (qtypes q) = Some (length (members (qtypes q)))
   /\ NoDup (members (qtypes q))
   /\ 0 < length (members (qtypes q)) <= 2
   /\ ~ In "undefined" (members (qtypes q))) ->
  Weight evalOrder q sp = if SatisfiesAll q sp then Copies q sp else 0.
Proof.
  intros Hwf Htypes. apply wellFormed_elim in Hwf. destruct Hwf as [Hok Hty].
  unfold weight, evalOrder, satisfiesAll, allKinds, copies. cbn [forallb category].
  rewrite (adds_member KTier q sp Hok), (adds_member KColour q sp Hok),
          (adds_member KMove q sp Hok), (adds_member KGen q sp Hok) by discriminate.
  destruct (adds_ability q sp Hok) as [_ ->].
  assert (Hfirst : (if populated (qtypes q) then Adds KType q sp else 1)
                   = if negb (populated (qtypes q)) || Satisfies KType q sp then 1 else 0).
  { destruct (populated (qtypes q)); [|reflexivity].
    destruct (Htypes eq_refl) as (Hc & Hnd & Hlen & Hun).
    now rewrite (adds_types q sp Hty Hc Hnd Hlen Hun). }
  rewrite Hfirst, !factor_member, factor_ability.
  generalize (length (matchingSlots getAbility q sp)). intros n.
  destruct (negb (populated (moves q)) || Satisfies KMove q sp),
           (negb (populated (ability q)) || Satisfies KAbility q sp),
           (negb (populated (tiers q)) || Satisfies KTier q sp),
           (negb (populated (colours q)) || Satisfies KColour q sp),
           (negb (populated (gens q)) || Satisfies KGen q sp),
           (negb (populated (qtypes q)) || Satisfies KType q sp);
    cbn [andb]; lia.
Qed.

End Reading.

Lemma filter_both {A : Type} (f g : A -> bool) (l : list A) :
  filter g (filter f l) = filter (fun x => f x && g x) l.
Proof.
  induction l as [|x r IH]; simpl; [reflexivity|].
  destruct (f x); simpl; [|exact IH].
  destruct (g x); now rewrite IH.
Qed.

Lemma filter_some {A : Type} (f : A -> bool) (l : list A) :
  existsb f l = true -> 0 < length (filter f l).
Proof.
  induction l as [|x r IH]; simpl; [discriminate|].
  destruct (f x); simpl; [lia | exact IH].
Qed.

(** *** The result set (C1) *)

Section ResultSet.

Variable getMove : string -> Effect.
Variable getAbility : string -> Effect.
Variable inTypeChart : string -> bool.
Variable pokedex : list string.
Variable getTemplate : string -> Template.
Variable LsetData : Type.
Variable checkLearnset : Effect -> Template -> LsetData -> bool * LsetData.
Variable newLsetData : LsetData.
Variable broadcasting : bool.

Hypothesis move_names : forall raw,
  e_exists (getMove raw) = true -> e_name (getMove raw) <> "count".
Hypothesis ability_names : forall raw,
  e_exists (getAbility raw) = true -> e_name (getAbility raw) <> "count".
(** the records of the catalog are well formed *)
Hypothesis catalog_ok :
  Forall (fun sp => wellFormed getAbility sp = true) (map getTemplate pokedex).

Local Abbreviation ClassifyAll := (classifyAll getMove getAbility inTypeChart broadcasting).
Local Abbreviation TokensOf := (tokensOf getMove getAbility inTypeChart).
Local Abbreviation Evaluate :=
  (evaluate getMove getAbility pokedex getTemplate LsetData checkLearnset newLsetData).
Local Abbreviation SatisfiesAll :=
  (satisfiesAll getMove getAbility getTemplate LsetData checkLearnset newLsetData).
Local Abbreviation Matching :=
  (matching getMove getAbility pokedex getTemplate LsetData checkLearnset newLsetData).
Local Abbreviation Listing :=
  (listing getMove getAbility pokedex getTemplate LsetData checkLearnset newLsetData).

(** The result of an accepted query in which no type is named twice,
    when the evaluation does not abort. *)
Lemma evaluate_listing (targets : list string) (q : Query) (rs : list Template) :
  ClassifyAll emptyQuery targets = inl q ->
  0 < count q ->
  length (members (qtypes q)) = length (TokensOf KType targets) ->
  Evaluate q = inl (Some rs) ->
  rs = Listing q.
Proof.
  intros Hrun Hpos Hlen Hev.
  pose proof (classifyAll_npop getMove getAbility inTypeChart broadcasting
                               move_names ability_names targets q Hrun) as Hn.
  rewrite (evaluate_entries getMove getAbility pokedex getTemplate LsetData checkLearnset
             newLsetData q rs Hn Hev).
  unfold entries, listing, matching.
  rewrite <- filter_both, <- (flat_map_repeat_when (SatisfiesAll q) (copies getAbility q)).
  apply flat_map_repeat_ext. intros sp Hsp. apply filter_In in Hsp. destruct Hsp as [Hsp _].
  rewrite Forall_forall in catalog_ok.
  apply weight_satisfies; [now apply catalog_ok|].
  exact (accepted_types getMove getAbility inTypeChart broadcasting move_names
           ability_names targets q Hrun Hlen).
Qed.

(** a species that satisfies the query is listed at least once *)
Lemma copies_pos (q : Query) (sp : Template) :
  SatisfiesAll q sp = true -> 0 < copies getAbility q sp.
Proof.
  unfold satisfiesAll, allKinds, copies. cbn [forallb]. intros H.
  destruct (populated (ability q)) eqn:E; [|lia].
  apply andb_prop in H. destruct H as [_ H]. apply andb_prop in H. destruct H as [H _].
  cbn [category] in H. rewrite E in H. cbn [negb orb] in H.
  now apply filter_some.
Qed.

Lemma in_listing (q : Query) (sp : Template) :
  In sp (Listing q) <->
  In sp (map getTemplate pokedex) /\ admissible q sp = true /\ SatisfiesAll q sp = true.
Proof.
  unfold listing. rewrite in_flat_map_repeat. unfold matching.
  rewrite filter_In, andb_true_iff. split.
  - tauto.
  - intros (H1 & H2 & H3). repeat split; try assumption. now apply copies_pos.
Qed.


End ResultSet.

Lemma Demo_wellFormed :
  Forall (fun sp => wellFormed Demo.getAbility sp = true) (map Demo.getTemplate Demo.pokedex).
Proof. repeat constructor. Qed.



(** *** The reply (C4) *)

Lemma concat_map_cons (f : string -> string) (y : string) (r : list string) :
  String.concat "" (map f (y :: r)) = f y ++ String.concat "" (map f r).
Proof.
  destruct r as [|z r]; simpl; [|reflexivity].
  induction (f y) as [|c s IH]; simpl; [reflexivity | now rewrite <- IH].
Qed.

(** [join] with a comma and a space writes the names one after the
    other, each but the first after the separator *)
Lemma join_commaSeparated (names : list string) :
  JS.join ", " names = commaSeparated names.
Proof.
  destruct names as [|x r]; [reflexivity|].
  revert x. induction r as [|y r IH]; intros x.
  - simpl. induction x as [|c s IHs]; simpl; [reflexivity | now rewrite <- IHs].
  - change (JS.join ", " (x :: y :: r)) with (x ++ ", " ++ JS.join ", " (y :: r)).
    rewrite IH. unfold commaSeparated. now rewrite concat_map_cons.
Qed.

Lemma distinct_NoDup (l : list string) : distinct l = true <-> NoDup l.
Proof.
  induction l as [|x r IH]; simpl.
  - split; [constructor | reflexivity].
  - rewrite andb_true_iff, negb_true_iff, IH. split.
    + intros [Hx Hr]. constructor; [|assumption].
      intros Hin. apply mem_In in Hin. congruence.
    + intros H. inversion H as [|? ? Hx Hr]. split; [|assumption].
      destruct (JS.mem x r) eqn:E; [|reflexivity]. apply mem_In in E. contradiction.
Qed.

Lemma NoDup_map_filter {A B : Type} (f : A -> B) (c : A -> bool) (l : list A) :
  NoDup (map f l) -> NoDup (map f (filter c l)).
Proof.
  induction l as [|x r IH]; simpl; [trivial|].
  intros H. inversion H as [|? ? Hx Hr]. destruct (c x); simpl; [|now apply IH].
  constructor; [|now apply IH].
  intros Hin. apply Hx. apply in_map_iff in Hin. destruct Hin as [y [Hy Hin]].
  apply filter_In in Hin. apply in_map_iff. exists y. tauto.
Qed.

Lemma in_firstn {A : Type} (n : nat) (l : list A) (x : A) :
  In x (firstn n l) -> In x l.
Proof.
  revert l. induction n as [|n IH]; intros l H; [destruct H|].
  destruct l as [|y r]; [destruct H|].
  destruct H as [-> | H]; [now left | right; now apply IH].
Qed.

Lemma NoDup_firstn {A : Type} (n : nat) (l : list A) : NoDup l -> NoDup (firstn n l).
Proof.
  revert l. induction n as [|n IH]; intros l H; simpl; [constructor|].
  destruct l as [|x r]; [constructor|].
  inversion H as [|? ? Hx Hr]. constructor; [|now apply IH].
  intros Hin. apply Hx. now apply in_firstn in Hin.
Qed.

Lemma flat_map_repeat_once {A : Type} (w : A -> nat) (l : list A) :
  (forall x, In x l -> w x <= 1) ->
  flat_map (fun x => repeat x (w x)) l = filter (fun x => 0 <? w x) l.
Proof.
  intros H. induction l as [|x r IH]; simpl; [reflexivity|].
  rewrite IH by (intros y Hy; apply H; now right).
  pose proof (H x (or_introl eq_refl)) as Hx.
  destruct (w x) as [|[|n]]; simpl; [reflexivity | reflexivity | lia].
Qed.

(** among slots that hold different abilities, at most one holds an
    ability of a set of at most one *)
Lemma one_slot (f : string * string -> string) (ms : list string)
    (slots : list (string * string)) :
  distinct (map f slots) = true -> length ms <= 1 ->
  length (filter (fun a => JS.mem (f a) ms) slots) <= 1.
Proof.
  intros Hd Hms. destruct ms as [|m [|m' r]]; simpl in Hms; try lia.
  - clear Hd. induction slots as [|a r IH]; simpl; [lia | exact IH].
  - assert (Hm : forall x, JS.mem x [m] = String.eqb x m).
    { intros x. unfold JS.mem. simpl. apply orb_false_r. }
    induction slots as [|a r IH]; [simpl; lia|].
    cbn [map distinct] in Hd. apply andb_prop in Hd. destruct Hd as [Ha Hr].
    cbn [filter]. rewrite Hm.
    destruct (String.eqb_spec (f a) m) as [E | E]; [|now apply IH].
    apply negb_true_iff in Ha.
    assert (Hnone : filter (fun a0 => JS.mem (f a0) [m]) r = []).
    { apply filter_none.
      destruct (existsb _ r) eqn:Ex; [|reflexivity].
      apply existsb_exists in Ex. destruct Ex as [b [Hb Hb']].
      rewrite Hm in Hb'. apply String.eqb_eq in Hb'.
      assert (Hin : In (f a) (map f r)) by (rewrite E, <- Hb'; now apply in_map).
      apply mem_In in Hin. congruence. }
    rewrite Hnone. simpl. lia.
Qed.

(** *** What is rendered *)

Lemma render_nothing (shuffle : list string -> list string) (all : bool) :
  render shuffle all (Some []) = "No Pokémon found.".
Proof. reflexivity. Qed.

Lemma render_every (shuffle : list string -> list string) (all : bool)
    (rs : list Template) :
  rs <> [] -> all = true \/ length rs <= 10 ->
  render shuffle all (Some rs) = commaSeparated (map species rs).
Proof.
  intros Hrs Hall. destruct rs as [|x r]; [congruence|].
  unfold render, output. rewrite join_commaSeparated.
  destruct Hall as [-> | Hlen]; [reflexivity|].
  apply Nat.leb_le in Hlen. rewrite <- (length_map species) in Hlen.
  now rewrite Hlen, orb_true_r.
Qed.

Lemma render_sample (shuffle : list string -> list string) (rs : list Template) :
  10 < length rs ->
  render shuffle false (Some rs)
  = commaSeparated (firstn 10 (shuffle (map species rs)))
    ++ ", and " ++ JS.numToString (length rs - 10)
    ++ " more. Redo the search with " ++ dq ++ "all" ++ dq
    ++ " as a search parameter to show all results.".
Proof.
  intros Hlen. destruct rs as [|x r]; [simpl in Hlen; lia|].
  unfold render, output. cbn [orb].
  destruct (length (map species (x :: r)) <=? 10) eqn:E.
  - apply Nat.leb_le in E. rewrite length_map in E. lia.
  - now rewrite join_commaSeparated, length_map.
Qed.

(** the first 10 names of a shuffled list *)
Lemma sample_of (shuffle : list string -> list string) (names : list string) :
  Permutation (shuffle names) names -> 10 < length names ->
  length (firstn 10 (shuffle names)) = 10
  /\ incl (firstn 10 (shuffle names)) names
  /\ (NoDup names -> NoDup (firstn 10 (shuffle names))).
Proof.
  intros Hp Hlen. split; [|split].
  - rewrite length_firstn, (Permutation_length Hp). lia.
  - intros x Hx. apply (Permutation_in _ Hp). revert Hx. apply in_firstn.
  - intros Hnd. apply NoDup_firstn. apply (Permutation_NoDup (Permutation_sym Hp) Hnd).
Qed.

Lemma evaluated_has_count (getMove getAbility : string -> Effect) (pokedex : list string)
    (getTemplate : string -> Template) (LsetData : Type)
    (checkLearnset : Effect -> Template -> LsetData -> bool * LsetData)
    (newLsetData : LsetData) (q : Query) (rs : list Template) :
  evaluate getMove getAbility pokedex getTemplate LsetData checkLearnset newLsetData q
  = inl (Some rs) ->
  0 < count q.
Proof.
  unfold evaluate. destruct (count q); [discriminate | lia].
Qed.

(** the reply to a query that is evaluated *)
Lemma dexsearch_renders (getMove getAbility : string -> Effect)
    (inTypeChart : string -> bool) (pokedex : list string)
    (getTemplate : string -> Template) (LsetData : Type)
    (checkLearnset : Effect -> Template -> LsetData -> bool * LsetData)
    (newLsetData : LsetData) (broadcasting : bool) (shuffle : list string -> list string)
    (target : string) (q : Query) (rs : list Template) :
  target <> "" ->
  classifyAll getMove getAbility inTypeChart broadcasting emptyQuery (JS.split "," target)
  = inl q ->
  evaluate getMove getAbility pokedex getTemplate LsetData checkLearnset newLsetData q
  = inl (Some rs) ->
  dexsearch getMove getAbility inTypeChart pokedex getTemplate LsetData checkLearnset
            newLsetData broadcasting shuffle target
  = SendReplyBox (render shuffle (showAll q) (Some rs)).
Proof.
  intros Hne Hrun Hev. pose proof (evaluated_has_count _ _ _ _ _ _ _ _ _ Hev) as Hpos.
  unfold dexsearch. apply String.eqb_neq in Hne. rewrite Hne, Hrun, Hev.
  destruct (count q); [lia|]. now rewrite andb_false_r.
Qed.

Section Once.

Variable getMove : string -> Effect.
Variable getAbility : string -> Effect.
Variable inTypeChart : string -> bool.
Variable pokedex : list string.
Variable getTemplate : string -> Template.
Variable LsetData : Type.
Variable checkLearnset : Effect -> Template -> LsetData -> bool * LsetData.
Variable newLsetData : LsetData.
Variable broadcasting : bool.

Hypothesis move_names : forall raw,
  e_exists (getMove raw) = true -> e_name (getMove raw) <> "count".
Hypothesis ability_names : forall raw,
  e_exists (getAbility raw) = true -> e_name (getAbility raw) <> "count".
Hypothesis catalog_ok :
  Forall (fun sp => wellFormed getAbility sp = true) (map getTemplate pokedex).
(** the catalog has every species once, and the slots of a species hold
    different abilities *)
Hypothesis catalog_once : distinct (map species (map getTemplate pokedex)) = true.
Hypothesis slots_differ :
  Forall (fun sp => distinct (slotNames getAbility sp) = true) (map getTemplate pokedex).

Local Abbreviation ClassifyAll := (classifyAll getMove getAbility inTypeChart broadcasting).
Local Abbreviation Evaluate :=
  (evaluate getMove getAbility pokedex getTemplate LsetData checkLearnset newLsetData).
Local Abbreviation Weight :=
  (weight getMove getAbility getTemplate LsetData checkLearnset newLsetData).

Lemma mul_le_1 (a b : nat) : a <= 1 -> b <= 1 -> a * b <= 1.
Proof. nia. Qed.

(** no filter puts a species of such a catalog twice into the result *)
Lemma weight_once (targets : list string) (q : Query) (sp : Template) :
  ClassifyAll emptyQuery targets = inl q ->
  In sp (map getTemplate pokedex) ->
  Weight evalOrder q sp <= 1.
Proof.
  intros Hrun Hsp. rewrite Forall_forall in catalog_ok, slots_differ.
  pose proof (catalog_ok sp Hsp) as Hwf. apply wellFormed_elim in Hwf. destruct Hwf as [Hok _].
  assert (Hab : populated (ability q) = true ->
                adds getMove getAbility getTemplate LsetData checkLearnset newLsetData
                     KAbility q sp <= 1).
  { intros Hpop.
    destruct (adds_ability getMove getAbility getTemplate LsetData checkLearnset newLsetData
                q sp Hok) as [-> _].
    apply one_slot; [exact (slots_differ sp Hsp)|].
    exact (accepted_ability getMove getAbility inTypeChart broadcasting move_names
             ability_names targets q Hrun Hpop). }
  unfold weight, evalOrder. cbn [category].
  repeat apply mul_le_1; try lia.
  - destruct (populated (qtypes q)); [|lia]. unfold adds.
    destruct (if countIs (qtypes q) 1 then _ else _); lia.
  - destruct (populated (tiers q)); [|lia]. unfold adds. destruct (JS.has _ _); lia.
  - destruct (populated (ability q)); [now apply Hab | lia].
  - destruct (populated (colours q)); [|lia]. unfold adds. destruct (JS.has _ _); lia.
  - destruct (populated (moves q)); [|lia]. unfold adds. destruct (learnsAll _ _ _ _ _); lia.
  - destruct (populated (gens q)); [|lia]. unfold adds. destruct (JS.has _ _); lia.
Qed.

(** the result of an evaluation over such a catalog names every species
    at most once *)
Lemma evaluate_once (targets : list string) (q : Query) (rs : list Template) :
  ClassifyAll emptyQuery targets = inl q ->
  Evaluate q = inl (Some rs) ->
  NoDup (map species rs).
Proof.
  intros Hrun Hev.
  pose proof (classifyAll_npop getMove getAbility inTypeChart broadcasting
                               move_names ability_names targets q Hrun) as Hn.
  rewrite (evaluate_entries getMove getAbility pokedex getTemplate LsetData checkLearnset
             newLsetData q rs Hn Hev).
  unfold entries. rewrite flat_map_repeat_once.
  - do 2 apply NoDup_map_filter. now apply distinct_NoDup.
  - intros sp Hsp. apply filter_In in Hsp. destruct Hsp as [Hsp _].
    now apply (weight_once targets).
Qed.

End Once.

Section Rendering.

Variable getMove : string -> Effect.
Variable getAbility : string -> Effect.
Variable inTypeChart : string -> bool.
Variable pokedex : list string.
Variable getTemplate : string -> Template.
Variable LsetData : Type.
Variable checkLearnset : Effect -> Template -> LsetData -> bool * LsetData.
Variable newLsetData : LsetData.
Variable broadcasting : bool.
Variable shuffle : list string -> list string.

Hypothesis move_names : forall raw,
  e_exists (getMove raw) = true -> e_name (getMove raw) <> "count".
Hypothesis ability_names : forall raw,
  e_exists (getAbility raw) = true -> e_name (getAbility raw) <> "count".
(** sorting with the random comparator rearranges the names *)
Hypothesis shuffle_perm : forall names, Permutation (shuffle names) names.

Local Abbreviation Dexsearch :=
  (dexsearch getMove getAbility inTypeChart pokedex getTemplate LsetData checkLearnset
             newLsetData broadcasting shuffle).


End Rendering.

Lemma DemoWater_wellFormed :
  Forall (fun sp => wellFormed Demo.getAbility sp = true)
         (map DemoWater.getTemplate DemoWater.pokedex).
Proof. repeat constructor. Qed.

Lemma DemoWater_slots :
  Forall (fun sp => distinct (slotNames Demo.getAbility sp) = true)
         (map DemoWater.getTemplate DemoWater.pokedex).
Proof. repeat constructor. Qed.

Lemma rev_perm (names : list string) : Permutation (Demo.shuffle names) names.
Proof. apply Permutation_sym, Permutation_rev. Qed.



(** *** One query, evaluated again (C8) *)

Section Determinism.

Variable getMove : string -> Effect.
Variable getAbility : string -> Effect.
Variable inTypeChart : string -> bool.
Variable pokedex : list string.
Variable getTemplate : string -> Template.
Variable LsetData : Type.
Variable checkLearnset : Effect -> Template -> LsetData -> bool * LsetData.
Variable newLsetData : LsetData.
Variable broadcasting : bool.

Hypothesis move_names : forall raw,
  e_exists (getMove raw) = true -> e_name (getMove raw) <> "count".
Hypothesis ability_names : forall raw,
  e_exists (getAbility raw) = true -> e_name (getAbility raw) <> "count".

Local Abbreviation Dexsearch :=
  (dexsearch getMove getAbility inTypeChart pokedex getTemplate LsetData checkLearnset
             newLsetData broadcasting).
Local Abbreviation Entries :=
  (entries getMove getAbility pokedex getTemplate LsetData checkLearnset newLsetData).

(** C8: two runs of a query of ASCII text on one data set, each with
    its own shuffle of the names.  Whenever the query is evaluated, the
    result is the list that the data and the query fix: the species of
    the catalog that are not shut out and that the filters of the
    populated categories keep.  The two replies are the same, unless
    that result is cut: then each reply shows 10 names of that result,
    which need not be the same 10, followed by the same trailer, whose
    hidden count is the length of that list minus 10. *)
Theorem same_results_every_run (shuffle1 shuffle2 : list string -> list string)
    (target : string) :
  (forall names, Permutation (shuffle1 names) names) ->
  (forall names, Permutation (shuffle2 names) names) ->
  JS.isAscii target = true ->
  (forall q rs,
      classifyAll getMove getAbility inTypeChart broadcasting emptyQuery
                  (JS.split "," target) = inl q ->
      evaluate getMove getAbility pokedex getTemplate LsetData checkLearnset newLsetData q
      = inl (Some rs) ->
      rs = entries getMove getAbility pokedex getTemplate LsetData checkLearnset
                   newLsetData q
      /\ forall sp,
           In sp rs <->
           In sp (map getTemplate pokedex) /\ admissible q sp = true
           /\ 0 < weight getMove getAbility getTemplate LsetData checkLearnset newLsetData
                         evalOrder q sp)
  /\ (Dexsearch shuffle1 target = Dexsearch shuffle2 target
      \/ exists q shown1 shown2,
           classifyAll getMove getAbility inTypeChart broadcasting emptyQuery
                       (JS.split "," target) = inl q
           /\ showAll q = false
           /\ 10 < length (entries getMove getAbility pokedex getTemplate LsetData
                                   checkLearnset newLsetData q)
           /\ length shown1 = 10 /\ length shown2 = 10
           /\ incl shown1
                   (map species (entries getMove getAbility pokedex getTemplate LsetData
                                         checkLearnset newLsetData q))
           /\ incl shown2
                   (map species (entries getMove getAbility pokedex getTemplate LsetData
                                         checkLearnset newLsetData q))
           /\ Dexsearch shuffle1 target
              = SendReplyBox
                  (commaSeparated shown1 ++ ", and "
                   ++ JS.numToString
                        (length (entries getMove getAbility pokedex getTemplate LsetData
                                         checkLearnset newLsetData q) - 10)
                   ++ " more. Redo the search with " ++ dq ++ "all" ++ dq
                   ++ " as a search parameter to show all results.")
           /\ Dexsearch shuffle2 target
              = SendReplyBox
                  (commaSeparated shown2 ++ ", and "
                   ++ JS.numToString
                        (length (entries getMove getAbility pokedex getTemplate LsetData
                                         checkLearnset newLsetData q) - 10)
                   ++ " more. Redo the search with " ++ dq ++ "all" ++ dq
                   ++ " as a search parameter to show all results.")).
Proof.
  intros Hp1 Hp2 _.
  assert (Hfixed : forall q rs,
             classifyAll getMove getAbility inTypeChart broadcasting emptyQuery
                         (JS.split "," target) = inl q ->
             evaluate getMove getAbility pokedex getTemplate LsetData checkLearnset
                      newLsetData q = inl (Some rs) ->
             rs = Entries q).
  { intros q rs Hrun Hev.
    pose proof (classifyAll_npop getMove getAbility inTypeChart broadcasting
                                 move_names ability_names _ q Hrun) as Hn.
    exact (evaluate_entries getMove getAbility pokedex getTemplate LsetData checkLearnset
             newLsetData q rs Hn Hev). }
  split.
  { intros q rs Hrun Hev. rewrite (Hfixed q rs Hrun Hev).
    split; [reflexivity | apply in_entries]. }
  unfold dexsearch.
  destruct (String.eqb target ""); [now left|].
  destruct (classifyAll getMove getAbility inTypeChart broadcasting emptyQuery
                        (JS.split "," target)) as [q|r] eqn:Hrun; [|now left].
  destruct (showAll q && (count q =? 0)); [now left|].
  destruct (evaluate getMove getAbility pokedex getTemplate LsetData checkLearnset
                     newLsetData q) as [[rs|]|r] eqn:Hev; [|now left|now left].
  pose proof (Hfixed q rs eq_refl Hev) as Hrs. subst rs.
  destruct (Entries q) as [|x r] eqn:Hent; [now left|].
  destruct (showAll q) eqn:Hflag.
  { left. now rewrite !render_every by (discriminate || now left). }
  destruct (le_lt_dec (length (x :: r)) 10) as [Hshort | Hlong].
  { left. now rewrite !render_every by (discriminate || now right). }
  right. exists q, (firstn 10 (shuffle1 (map species (x :: r)))),
                  (firstn 10 (shuffle2 (map species (x :: r)))).
  rewrite !Hent.
  destruct (sample_of shuffle1 (map species (x :: r)) (Hp1 _)) as (H1 & H2 & _);
    [now rewrite length_map|].
  destruct (sample_of shuffle2 (map species (x :: r)) (Hp2 _)) as (H3 & H4 & _);
    [now rewrite length_map|].
  repeat split; try assumption; try reflexivity; now rewrite render_sample.
Qed.

End Determinism.

Lemma unshuffled_perm (names : list string) : Permutation (DemoWater.unshuffled names) names.
Proof. apply Permutation_refl. Qed.

(** C8 on the larger catalog: the runs of [water type] with the two
    shuffles give different replies, and the runs of [water type, all]
    give the same one. *)
Lemma same_results_every_run_witness :
  (DemoWater.dexsearch Demo.shuffle "water type"
   = DemoWater.dexsearch DemoWater.unshuffled "water type"
   \/ exists q shown1 shown2,
        classifyAll Demo.getMove Demo.getAbility Demo.inTypeChart false emptyQuery
                    (JS.split "," "water type") = inl q
        /\ showAll q = false
        /\ 10 < length (entries Demo.getMove Demo.getAbility DemoWater.pokedex
                                DemoWater.getTemplate Demo.Lset Demo.checkLearnset
                                Demo.newLsetData q)
        /\ length shown1 = 10 /\ length shown2 = 10
        /\ incl shown1
                (map species (entries Demo.getMove Demo.getAbility DemoWater.pokedex
                                      DemoWater.getTemplate Demo.Lset Demo.checkLearnset
                                      Demo.newLsetData q))
        /\ incl shown2
                (map species (entries Demo.getMove Demo.getAbility DemoWater.pokedex
                                      DemoWater.getTemplate Demo.Lset Demo.checkLearnset
                                      Demo.newLsetData q))
        /\ DemoWater.dexsearch Demo.shuffle "water type"
           = SendReplyBox
               (commaSeparated shown1 ++ ", and "
                ++ JS.numToString
                     (length (entries Demo.getMove Demo.getAbility DemoWater.pokedex
                                      DemoWater.getTemplate Demo.Lset Demo.checkLearnset
                                      Demo.newLsetData q) - 10)
                ++ " more. Redo the search with " ++ dq ++ "all" ++ dq
                ++ " as a search parameter to show all results.")
        /\ DemoWater.dexsearch DemoWater.unshuffled "water type"
           = SendReplyBox
               (commaSeparated shown2 ++ ", and "
                ++ JS.numToString
                     (length (entries Demo.getMove Demo.getAbility DemoWater.pokedex
                                      DemoWater.getTemplate Demo.Lset Demo.checkLearnset
                                      Demo.newLsetData q) - 10)
                ++ " more. Redo the search with " ++ dq ++ "all" ++ dq
                ++ " as a search parameter to show all results."))
  /\ DemoWater.dexsearch Demo.shuffle "water type"
     <> DemoWater.dexsearch DemoWater.unshuffled "water type"
  /\ DemoWater.dexsearch Demo.shuffle "water type"
     = SendReplyBox
         ("Staryu, Seaking, Goldeen, Seadra, Horsea, Kingler, Krabby, Cloyster, Shellder, "
          ++ "Dewgong, and 13 more. Redo the search with " ++ dq ++ "all" ++ dq
          ++ " as a search parameter to show all results.")
  /\ DemoWater.dexsearch DemoWater.unshuffled "water type"
     = SendReplyBox
         ("Squirtle, Wartortle, Blastoise, Psyduck, Golduck, Poliwag, Poliwhirl, "
          ++ "Poliwrath, Tentacool, Tentacruel, and 13 more. Redo the search with "
          ++ dq ++ "all" ++ dq ++ " as a search parameter to show all results.").
Proof.
  split; [|split; [|split]].
  - exact (proj2 (same_results_every_run Demo.getMove Demo.getAbility Demo.inTypeChart
                    DemoWater.pokedex DemoWater.getTemplate Demo.Lset Demo.checkLearnset
                    Demo.newLsetData false Demo_move_names Demo_ability_names
                    Demo.shuffle DemoWater.unshuffled "water type"
                    rev_perm unshuffled_perm eq_refl)).
  - vm_compute. discriminate.
  - reflexivity.
  - reflexivity.
Defined.

(** *** The move filter (C3) *)

Section MoveFilter.

Variable getMove : string -> Effect.
Variable getAbility : string -> Effect.
Variable inTypeChart : string -> bool.
Variable pokedex : list string.
Variable getTemplate : string -> Template.
Variable LsetData : Type.
Variable checkLearnset : Effect -> Template -> LsetData -> bool * LsetData.
Variable newLsetData : LsetData.
Variable broadcasting : bool.
Variable shuffle : list string -> list string.

Hypothesis move_names : forall raw,
  e_exists (getMove raw) = true -> e_name (getMove raw) <> "count".
Hypothesis ability_names : forall raw,
  e_exists (getAbility raw) = true -> e_name (getAbility raw) <> "count".
(** The data facade finds a move again under the name it gave it, and
    what it returns for the name of the counter has the id of that
    name. *)
Hypothesis move_found_again : forall raw,
  e_exists (getMove raw) = true -> e_exists (getMove (e_name (getMove raw))) = true.
Hypothesis count_key : e_id (getMove "count") = "count".

Local Abbreviation ClassifyAll := (classifyAll getMove getAbility inTypeChart broadcasting).
Local Abbreviation CheckMoves := (checkMoves getMove LsetData checkLearnset).
Local Abbreviation MovesLoop := (movesLoop getMove getTemplate LsetData checkLearnset newLsetData).
Local Abbreviation ByMoves := (byMoves getMove getTemplate LsetData checkLearnset newLsetData).
Local Abbreviation Evaluate :=
  (evaluate getMove getAbility pokedex getTemplate LsetData checkLearnset newLsetData).
Local Abbreviation Stage := (stage getMove getAbility getTemplate LsetData checkLearnset newLsetData).
Local Abbreviation RunStages :=
  (runStages getMove getAbility getTemplate LsetData checkLearnset newLsetData).
Local Abbreviation LearnsAll := (learnsAll LsetData checkLearnset).
Local Abbreviation Dexsearch :=
  (dexsearch getMove getAbility inTypeChart pokedex getTemplate LsetData checkLearnset
             newLsetData broadcasting shuffle).

(** whatever survives a run through the move filter learns every
    requested move *)
Lemma runStages_moves (ks : list Kind) (q : Query) :
  In KMove ks -> populated (moves q) = true ->
  forall temp rs,
    RunStages ks q temp = inl rs ->
    forall sp, In sp rs ->
      LearnsAll (requested getMove (moves q)) (getTemplate (t_id sp)) newLsetData = true.
Proof.
  intros Hin Hpop. induction ks as [|k rest IH]; [destruct Hin|].
  intros temp rs Hrun sp Hsp. simpl in Hrun.
  destruct (Kind_eqb k KMove) eqn:Ek.
  - apply Kind_eqb_eq in Ek. subst k. simpl in Hrun. rewrite Hpop in Hrun.
    destruct (ByMoves (moves q) temp) as [temp'|e] eqn:Est; [|discriminate].
    apply byMoves_filter in Est.
    apply (runStages_incl _ _ _ _ _ _ _ _ _ _ Hrun) in Hsp.
    rewrite Est in Hsp. now apply filter_In in Hsp.
  - assert (Hrest : In KMove rest).
    { destruct Hin as [E | H]; [subst k; discriminate | exact H]. }
    destruct (populated (category k q)).
    + destruct (Stage k (category k q) temp) as [temp'|e]; [|discriminate].
      exact (IH Hrest _ _ Hrun sp Hsp).
    + exact (IH Hrest _ _ Hrun sp Hsp).
Qed.

(** the Move category of an accepted query holds moves of the data set *)
Lemma requested_exist (targets : list string) (q : Query) :
  ClassifyAll emptyQuery targets = inl q ->
  forall key, In key (members (moves q)) -> e_exists (getMove key) = true.
Proof.
  intros Hrun key Hkey.
  destruct (members_from_tokens getMove getAbility inTypeChart broadcasting KMove targets
              emptyQuery q Hrun key Hkey) as [[] | [raw [_ [Hclass ->]]]].
  simpl. apply move_found_again. now apply classOf_move in Hclass.
Qed.

(** the loop over the keys ends without the lookup error when every key
    is the counter or a move of the data set *)
Lemma checkMoves_known (ks : list string) (template : Template) :
  (forall k, In k ks -> e_id (getMove k) = "count" \/ e_exists (getMove k) = true) ->
  forall (l : LsetData) (p : bool), exists p', CheckMoves ks template l p = inl p'.
Proof.
  induction ks as [|k rest IH]; intros Hks l p; simpl.
  - now exists p.
  - assert (Hrest : forall k', In k' rest ->
                               e_id (getMove k') = "count" \/ e_exists (getMove k') = true)
      by (intros k' Hk'; apply Hks; now right).
    destruct (String.eqb_spec (e_id (getMove k)) "count") as [E | E]; simpl.
    + now apply IH.
    + destruct (Hks k (or_introl eq_refl)) as [Hc | He]; [contradiction|].
      rewrite He. simpl.
      destruct (checkLearnset (getMove k) template l) as [pr l'].
      destruct pr; [now exists true | now apply IH].
Qed.

Lemma movesLoop_known (o : JS.obj) (temp : list Template) :
  (forall k, In k (JS.keys o) -> e_id (getMove k) = "count" \/ e_exists (getMove k) = true) ->
  forall (p : bool) (res : list Template), exists rs, MovesLoop o temp p res = inl rs.
Proof.
  intros Hks. induction temp as [|mon rest IH]; intros p res; simpl.
  - now exists res.
  - destruct (checkMoves_known (JS.keys o) (getTemplate (t_id mon)) Hks newLsetData p)
      as [p' ->].
    apply IH.
Qed.

Lemma runStages_known (ks : list Kind) (q : Query) :
  (forall k, In k (JS.keys (moves q)) ->
             e_id (getMove k) = "count" \/ e_exists (getMove k) = true) ->
  forall temp, exists rs, RunStages ks q temp = inl rs.
Proof.
  intros Hks. induction ks as [|k rest IH]; intros temp; simpl.
  - now exists temp.
  - destruct (populated (category k q)); [|apply IH].
    destruct k; simpl; try apply IH.
    unfold byMoves. destruct (movesLoop_known (moves q) temp Hks false []) as [rs ->].
    apply IH.
Qed.

(** The evaluation of an accepted query never ends with the lookup
    error of the move filter. *)
Lemma evaluate_known (targets : list string) (q : Query) :
  ClassifyAll emptyQuery targets = inl q ->
  exists results, Evaluate q = inl results.
Proof.
  intros Hrun.
  pose proof (classifyAll_npop getMove getAbility inTypeChart broadcasting
                               move_names ability_names targets q Hrun) as Hn.
  destruct (Nat.eq_dec (count q) 0) as [Hz | Hz].
  - exists None. unfold evaluate. now rewrite Hz.
  - rewrite (evaluate_runStages getMove getAbility pokedex getTemplate LsetData
               checkLearnset newLsetData q Hn) by lia.
    destruct (runStages_known evalOrder q) with (temp := initialResults pokedex getTemplate q)
      as [rs ->].
    + intros k Hk. destruct (String.eqb_spec k "count") as [-> | Hne].
      * now left.
      * right. apply (requested_exist targets q Hrun).
        unfold members. apply filter_In. split; [exact Hk|].
        apply negb_true_iff. now apply String.eqb_neq.
    + now exists (Some rs).
Qed.

Lemma npop_moves (q : Query) : populated (moves q) = true -> 0 < npop q.
Proof. unfold npop, allKinds. simpl. intros ->. simpl. lia. Qed.

(** C3: for every query of ASCII text with a populated Move category, a
    species is in the result only if the legality engine accepts every
    requested move, asked in order.  A name that is no move of the data
    set never becomes a requested move: the Move category of an
    accepted query holds moves of the data set only, so that its
    evaluation never ends with a lookup error; the token that names no
    move, and is nothing else that the command knows, ends the whole
    query where it stands, before any evaluation, with the lookup error
    that names it, whatever the tokens before it populated and whatever
    follows it. *)
Theorem moves_all_learnable_or_abort (target : string) :
  JS.isAscii target = true -> target <> "" ->
  (forall q rs sp,
      classifyAll getMove getAbility inTypeChart broadcasting emptyQuery
                  (JS.split "," target) = inl q ->
      populated (moves q) = true ->
      evaluate getMove getAbility pokedex getTemplate LsetData checkLearnset newLsetData q
      = inl (Some rs) ->
      In sp rs ->
      learnsAll LsetData checkLearnset (requested getMove (moves q))
                (getTemplate (t_id sp)) newLsetData = true)
  /\ (forall q,
        classifyAll getMove getAbility inTypeChart broadcasting emptyQuery
                    (JS.split "," target) = inl q ->
        (forall key, In key (members (moves q)) -> e_exists (getMove key) = true)
        /\ exists results,
             evaluate getMove getAbility pokedex getTemplate LsetData checkLearnset
                      newLsetData q = inl results)
  /\ (forall pre t post q,
        JS.split "," target = (pre ++ t :: post)%list ->
        classifyAll getMove getAbility inTypeChart broadcasting emptyQuery pre = inl q ->
        e_exists (getMove t) = false ->
        e_exists (getAbility t) = false ->
        JS.has (normal t) allTiers = false ->
        JS.has (normal t) allColours = false ->
        isGen (JS.parseInt (normal t)) = false ->
        normal t <> "all" ->
        JS.indexOf " type" (normal t) = None ->
        Dexsearch target
        = SendReply (dq ++ JS.trim t ++ dq
                     ++ " could not be found in any of the search categories.")).
Proof.
  intros _ Hne. split; [|split].
  - intros q rs sp Hrun Hpop Hev Hsp.
    pose proof (classifyAll_npop getMove getAbility inTypeChart broadcasting
                                 move_names ability_names _ q Hrun) as Hn.
    assert (Hpos : 0 < count q) by (rewrite Hn; now apply npop_moves).
    rewrite (evaluate_runStages getMove getAbility pokedex getTemplate LsetData
               checkLearnset newLsetData q Hn Hpos) in Hev.
    destruct (RunStages evalOrder q (initialResults pokedex getTemplate q))
      as [rs'|e] eqn:Est; simpl in Hev; [|discriminate].
    injection Hev as ->.
    apply (runStages_moves evalOrder q) with (3 := Est); [simpl; tauto | assumption | assumption].
  - intros q Hrun. split.
    + exact (requested_exist _ q Hrun).
    + exact (evaluate_known _ q Hrun).
  - intros pre t post q Hsplit Hpre Hm Ha Ht Hc Hg Hall Hty.
    unfold dexsearch. apply String.eqb_neq in Hne. rewrite Hne, Hsplit.
    rewrite classifyAll_app, Hpre. cbn [classifyAll]. unfold classify. fold (normal t).
    rewrite Hm, Ha, Ht, Hc, Hg, Hty.
    apply String.eqb_neq in Hall. now rewrite Hall.
Qed.

End MoveFilter.

Lemma Demo_move_found_again (raw : string) :
  e_exists (Demo.getMove raw) = true ->
  e_exists (Demo.getMove (e_name (Demo.getMove raw))) = true.
Proof.
  intros H. apply Demo_lookup_name in H. unfold Demo.getMove.
  simpl in H. repeat (destruct H as [<- | H]; [reflexivity|]). destruct H.
Qed.

(** C3 on the data set of the examples: Charizard is in the result of
    [ember, fly] and learns both moves; the category of moves of that
    query holds moves of the data set, and the query is evaluated; and
    in [ou, splash,ember] the token that names no move ends the query
    and is named in the reply. *)
Lemma moves_all_learnable_or_abort_witness :
  (exists q,
      classifyAll Demo.getMove Demo.getAbility Demo.inTypeChart false emptyQuery
                  (JS.split "," "ember, fly") = inl q
      /\ learnsAll Demo.Lset Demo.checkLearnset (requested Demo.getMove (moves q))
                   (Demo.getTemplate (t_id Demo.charizard)) Demo.newLsetData = true
      /\ (forall key, In key (members (moves q)) -> e_exists (Demo.getMove key) = true)
      /\ exists results,
           evaluate Demo.getMove Demo.getAbility Demo.pokedex Demo.getTemplate Demo.Lset
                    Demo.checkLearnset Demo.newLsetData q = inl results)
  /\ Demo.dexsearch false "ou, splash,ember"
     = SendReply (dq ++ "splash" ++ dq
                  ++ " could not be found in any of the search categories.").
Proof.
  assert (H1 : "ember, fly" <> "") by discriminate.
  assert (H2 : "ou, splash,ember" <> "") by discriminate.
  pose proof (moves_all_learnable_or_abort Demo.getMove Demo.getAbility Demo.inTypeChart
                Demo.pokedex Demo.getTemplate Demo.Lset Demo.checkLearnset
                Demo.newLsetData false Demo.shuffle Demo_move_names Demo_ability_names
                Demo_move_found_again eq_refl "ember, fly" eq_refl H1) as (HA & HB & _).
  pose proof (moves_all_learnable_or_abort Demo.getMove Demo.getAbility Demo.inTypeChart
                Demo.pokedex Demo.getTemplate Demo.Lset Demo.checkLearnset
                Demo.newLsetData false Demo.shuffle Demo_move_names Demo_ability_names
                Demo_move_found_again eq_refl "ou, splash,ember" eq_refl H2) as (_ & _ & HC).
  split.
  - eexists. split; [reflexivity|]. split.
    + apply (HA _ [Demo.charizard; Demo.moltres] Demo.charizard eq_refl eq_refl eq_refl).
      simpl. tauto.
    + exact (HB _ eq_refl).
  - apply (HC ["ou"] " splash" ["ember"] _ eq_refl eq_refl); try reflexivity.
    discriminate.
Defined.

(** ** The list of sources of the learnset query (C9) *)

Lemma append_assoc (a b c : string) : (a ++ b) ++ c = a ++ (b ++ c).
Proof. induction a as [|x a IH]; simpl; [reflexivity | now rewrite IH]. Qed.

Lemma append_nil_r (a : string) : a ++ "" = a.
Proof. induction a as [|x a IH]; simpl; [reflexivity | now rewrite IH]. Qed.

Lemma substring_all (n : nat) (s : string) : String.length s <= n -> substring 0 n s = s.
Proof.
  revert n. induction s as [|c s IH]; intros n H; destruct n as [|n]; simpl in *;
    try reflexivity; try lia.
  rewrite IH; [reflexivity | lia].
Qed.

Lemma substring_none (s : string) : substring 0 0 s = "".
Proof. now destruct s. Qed.

Lemma tag_type (g m : ascii) (d : string) :
  JS.substr 0 2 (tag g m d) = String g (String m "").
Proof. unfold JS.substr, tag. simpl. now rewrite ?substring_none. Qed.

Lemma tag_detail (g m : ascii) (d : string) : JS.substrFrom 2 (tag g m d) = d.
Proof. unfold JS.substrFrom, tag. simpl. apply substring_all. lia. Qed.

Lemma tag_gen (g m : ascii) (d : string) : JS.substr 0 1 (tag g m d) = String g "".
Proof. unfold JS.substr, tag. simpl. now rewrite ?substring_none. Qed.

Lemma tag_method (g m : ascii) (d : string) : JS.substr 1 1 (tag g m d) = String m "".
Proof. unfold JS.substr, tag. simpl. now rewrite ?substring_none. Qed.

(** the further sources of a run, from a counter that is not negative *)
Lemma listSource_further (all hidden : bool) (g m : ascii) (details : list string) :
  forall (c : nat) (b : string),
    fold_left (listSource all hidden) (map (tag g m) details)
              (mkListing (Some (String g (String m ""))) (Z.of_nat c) b)
    = mkListing (Some (String g (String m ""))) (Z.of_nat (c + length details))
                (b ++ extra all c details).
Proof.
  induction details as [|d rest IH]; intros c b; simpl.
  - now rewrite Nat.add_0_r, append_nil_r.
  - unfold listSource at 2. cbn [prevSourceType prevSourceCount buffer].
    rewrite tag_type, String.eqb_refl, tag_detail.
    assert (H0 : (Z.of_nat c <? 0)%Z = false) by (apply Z.ltb_ge; lia).
    assert (H3 : (Z.of_nat c <? 3)%Z = (c <? 3)).
    { destruct (c <? 3) eqn:E.
      - apply Nat.ltb_lt in E. apply Z.ltb_lt. lia.
      - apply Nat.ltb_ge in E. apply Z.ltb_ge. lia. }
    assert (H3' : (Z.of_nat c =? 3)%Z = (c =? 3)).
    { destruct (c =? 3) eqn:E.
      - apply Nat.eqb_eq in E. apply Z.eqb_eq. lia.
      - apply Nat.eqb_neq in E. apply Z.eqb_neq. lia. }
    rewrite H0, H3, H3'.
    replace (Z.of_nat c + 1)%Z with (Z.of_nat (S c)) by lia.
    rewrite IH. f_equal; [f_equal; lia|].
    destruct (all || (c <? 3)); [now rewrite !append_assoc|].
    destruct (c =? 3); [now rewrite !append_assoc | reflexivity].
Qed.

Lemma concat_commas (sep x : string) (l : list string) :
  x ++ fold_right (fun d acc => sep ++ d ++ acc) "" l = JS.join sep (x :: l).
Proof.
  revert x. induction l as [|y r IH]; intros x.
  - simpl. apply append_nil_r.
  - change (JS.join sep (x :: y :: r)) with (x ++ sep ++ JS.join sep (y :: r)).
    now rewrite <- IH.
Qed.

(** in exhaustive mode every further detail is listed *)
Lemma extra_all (c : nat) (details : list string) :
  extra true c details = fold_right (fun d acc => ", " ++ d ++ acc) "" details.
Proof.
  revert c. induction details as [|d rest IH]; intros c; simpl; [reflexivity|].
  now rewrite IH.
Qed.

(** otherwise the details are listed until the counter is 3, and the
    next one is replaced by the ellipsis *)
Lemma extra_cut (c : nat) (details : list string) :
  extra false c details
  = fold_right (fun d acc => ", " ++ d ++ acc) "" (firstn (3 - c) details)
    ++ (if (3 - c <? length details) && (c <=? 3) then ", ..." else "").
Proof.
  revert c. induction details as [|d rest IH]; intros c.
  - simpl. now rewrite firstn_nil.
  - cbn [extra orb]. rewrite IH.
    destruct (c <? 3) eqn:E.
    + apply Nat.ltb_lt in E.
      replace (3 - c) with (S (3 - S c)) by lia.
      cbn [firstn fold_right length].
      replace (S (3 - S c) <? S (length rest)) with (3 - S c <? length rest)
        by reflexivity.
      replace (S c <=? 3) with true by (symmetry; apply Nat.leb_le; lia).
      replace (c <=? 3) with true by (symmetry; apply Nat.leb_le; lia).
      now rewrite !append_assoc.
    + apply Nat.ltb_ge in E.
      replace (3 - c) with 0 by lia. replace (3 - S c) with 0 by lia.
      cbn [firstn fold_right length].
      replace (S c <=? 3) with false by (symmetry; apply Nat.leb_gt; lia).
      rewrite andb_false_r, append_nil_r. simpl.
      destruct (c =? 3) eqn:E3.
      * apply Nat.eqb_eq in E3. subst c. reflexivity.
      * apply Nat.eqb_neq in E3.
        replace (c <=? 3) with false by (symmetry; apply Nat.leb_gt; lia).
        reflexivity.
Qed.

(** the text after the first listed detail of a run *)
Lemma extra_join (all : bool) (d : string) (rest : list string) :
  d ++ extra all 0 rest
  = JS.join ", " (if all then d :: rest else firstn 4 (d :: rest))
    ++ (if negb all && (4 <? length (d :: rest)) then ", ..." else "").
Proof.
  destruct all.
  - rewrite extra_all, concat_commas. simpl. now rewrite append_nil_r.
  - rewrite extra_cut. simpl negb. cbn [andb]. rewrite andb_true_r.
    rewrite <- append_assoc, concat_commas. reflexivity.
Qed.

(** One run, met when the loop is on another type of source, takes one
    line: [renderRun]. *)
Lemma listSource_run (all hidden : bool) (r : Run) (st : Listing) :
  r_details r <> [] ->
  match prevSourceType st with
  | Some p => negb (String.eqb (runType r) p)
  | None => true
  end = true ->
  exists c,
    fold_left (listSource all hidden) (tagsOf r) st
    = mkListing (Some (runType r)) c (buffer st ++ renderRun all hidden r).
Proof.
  destruct r as [g m details]. unfold tagsOf, runType, renderRun, renderRunUpTo.
  cbn [r_gen r_method r_details].
  intros Hne Hprev. destruct details as [|d1 rest]; [congruence|].
  cbn [map fold_left]. unfold listSource at 2.
  rewrite tag_type, tag_detail, tag_gen, tag_method.
  replace (match prevSourceType st with
           | Some p => String.eqb (String g (String m "")) p
           | None => false
           end) with false
    by (destruct (prevSourceType st); [now apply negb_true_iff in Hprev | reflexivity]).
  cbv zeta.
  set (flag := String.eqb (String g (String m "")) "5E" && hidden).
  set (note := if flag then " (cannot have hidden ability)" else "").
  replace (if flag
           then (buffer st ++ "<li>gen " ++ String g "" ++ " " ++ sourceNames (String m ""))
                ++ " (cannot have hidden ability)"
           else buffer st ++ "<li>gen " ++ String g "" ++ " " ++ sourceNames (String m ""))
    with (buffer st ++ "<li>gen " ++ String g "" ++ " " ++ sourceNames (String m "") ++ note)
    by (unfold note; destruct flag; now rewrite ?append_assoc, ?append_nil_r).
  destruct d1 as [|x d1]; cbn [nonEmpty shownDetails].
  - (* the first source has no detail: the counter starts at -1 *)
    destruct rest as [|d2 rest]; cbn [map fold_left].
    + exists (-1)%Z. now rewrite append_nil_r.
    + unfold listSource at 2. cbn [prevSourceType prevSourceCount buffer].
      rewrite tag_type, String.eqb_refl, tag_detail.
      change (-1 <? 0)%Z with true. cbv iota.
      change (-1 + 1)%Z with (Z.of_nat 0).
      rewrite listSource_further. eexists. f_equal.
      rewrite <- (extra_join all d2 rest). now rewrite !append_assoc.
  - (* the first source has a detail: the counter starts at 0 *)
    change 0%Z with (Z.of_nat 0).
    rewrite listSource_further. eexists. f_equal.
    rewrite <- (extra_join all (String x d1) rest). now rewrite !append_assoc.
Qed.

(** the lines of a list of runs *)
Lemma listSource_runs (all hidden : bool) (runs : list Run) :
  forall st,
    properRuns (prevSourceType st) runs = true ->
    buffer (fold_left (listSource all hidden) (concat (map tagsOf runs)) st)
    = buffer st ++ String.concat "" (map (renderRun all hidden) runs).
Proof.
  induction runs as [|r rest IH]; intros st Hp; simpl.
  - now rewrite append_nil_r.
  - simpl in Hp. apply andb_prop in Hp. destruct Hp as [Hp Hrest].
    apply andb_prop in Hp. destruct Hp as [Hne Hprev].
    assert (Hne' : r_details r <> []) by (destruct (r_details r); [discriminate | discriminate]).
    destruct (listSource_run all hidden r st Hne' Hprev) as [c Hrun].
    rewrite fold_left_app, Hrun, IH by exact Hrest. simpl.
    rewrite append_assoc. f_equal.
    destruct rest; simpl; [now rewrite append_nil_r | reflexivity].
Qed.

Section LearnReply.

Variable getMove : string -> Effect.
Variable getTemplate : string -> Template.
Variable LsetData : Type.
Variable checkLearnset : Effect -> Template -> LsetData -> bool * LsetData.
Variable newLsetData : LsetData.
Variable setLevel : nat -> LsetData -> LsetData.
Variable setNoPokebank : LsetData -> LsetData.
Variable sources : LsetData -> option (list string).
Variable sourcesBefore : LsetData -> option nat.

Local Abbreviation CheckAll := (checkAll getMove LsetData checkLearnset).
Local Abbreviation LegalRun := (legalRun getMove LsetData checkLearnset).
Local Abbreviation InitialLset := (initialLset LsetData newLsetData setLevel setNoPokebank).
Local Abbreviation ListLearnable := (listLearnable LsetData sources sourcesBefore).
Local Abbreviation Learn :=
  (learn getMove getTemplate LsetData checkLearnset newLsetData setLevel setNoPokebank
         sources sourcesBefore).

(** the loop goes through a legal prefix, move after move *)
Lemma checkAll_prefix (pre rest : list string) (template : Template) :
  forall (m : Effect) (l l' : LsetData),
    LegalRun pre template l = Some l' ->
    CheckAll (pre ++ rest) template m l
    = CheckAll rest template
               (match pre with [] => m | _ => getMove (last pre "") end) l'.
Proof.
  induction pre as [|t pre IH]; intros m l l' H; simpl in H.
  - now injection H as <-.
  - destruct (e_exists (getMove t)) eqn:Ex; [|discriminate].
    destruct (checkLearnset (getMove t) template l) as [p l1] eqn:Ec.
    destruct p; [discriminate|].
    cbn [app checkAll]. rewrite Ex, Ec. cbn [negb].
    rewrite (IH (getMove t) l1 l' H). now destruct pre.
Qed.

(** C9, as amended: for a species of the data set and at least one
    move, the moves are looked up and checked in the order given, the
    legality engine keeping its record from one to the next.  The first
    move that is not in the data set, if the ones before it were legal,
    ends the query with the reply that names it; the first illegal move
    stops the checks, and the reply says that the species can't learn
    the move, naming it when it is the only one and saying "these
    moves" otherwise; when all are legal the reply lists the sources,
    and each run of sources of one generation and method takes one line
    with at most 4 details, followed by an ellipsis when there are more,
    unless the command is [learnall], which lists them all. *)
Theorem learn_reply (target cmd name : string) (moves : list string) :
  target <> "" -> JS.split "," target = name :: moves -> moves <> [] ->
  t_exists (getTemplate name) = true ->
  (forall pre t post l,
      moves = (pre ++ t :: post)%list ->
      LegalRun pre (getTemplate name) (InitialLset cmd) = Some l ->
      e_exists (getMove t) = false ->
      Learn target cmd = SendReply (msgNoMoveNamed (e_id (getMove t))))
  /\ (forall pre t post l l',
        moves = (pre ++ t :: post)%list ->
        LegalRun pre (getTemplate name) (InitialLset cmd) = Some l ->
        e_exists (getMove t) = true ->
        checkLearnset (getMove t) (getTemplate name) l = (true, l') ->
        Learn target cmd
        = SendReplyBox (t_name (getTemplate name) ++ spanCannot
                        ++ (if 1 <? length moves then "these moves"
                            else e_name (getMove t))))
  /\ (forall l,
        LegalRun moves (getTemplate name) (InitialLset cmd) = Some l ->
        Learn target cmd
        = SendReplyBox
            (ListLearnable (String.eqb cmd "learnall") (getTemplate name) l
               (t_name (getTemplate name) ++ spanCan
                ++ (if 1 <? length moves then "these moves"
                    else e_name (getMove (last moves ""))))))
  /\ (forall all hidden b srcs runs,
        sort srcs = concat (map tagsOf runs) -> properRuns None runs = true ->
        listSources all hidden b srcs
        = b ++ String.concat "" (map (renderRun all hidden) runs)).
Proof.
  intros Hne Hsplit Hmoves Hex.
  assert (Hlearn : Learn target cmd =
                   match CheckAll moves (getTemplate name) (mkEffect false "" "undefined")
                                  (InitialLset cmd) with
                   | inr r => r
                   | inl c =>
                       SendReplyBox
                         (if problem c
                          then t_name (getTemplate name) ++ spanCannot
                               ++ (if 1 <? length moves then "these moves"
                                   else e_name (lastMove c))
                          else ListLearnable (String.eqb cmd "learnall") (getTemplate name)
                                 (lset c)
                                 (t_name (getTemplate name) ++ spanCan
                                  ++ (if 1 <? length moves then "these moves"
                                      else e_name (lastMove c))))
                   end).
  { unfold learn. apply String.eqb_neq in Hne. rewrite Hne, Hsplit.
    cbn [hd tl length]. rewrite Hex. cbn [negb].
    destruct moves as [|m0 ms]; [congruence|]. cbn [length Nat.ltb Nat.leb].
    destruct (CheckAll (m0 :: ms) (getTemplate name) (mkEffect false "" "undefined")
                       (InitialLset cmd)) as [c|r]; [|reflexivity].
    now destruct (problem c). }
  split; [|split; [|split]].
  - intros pre t post l -> Hpre Hun.
    rewrite Hlearn, (checkAll_prefix pre (t :: post) _ _ _ _ Hpre).
    cbn [checkAll]. now rewrite Hun.
  - intros pre t post l l' -> Hpre Hknown Hill.
    rewrite Hlearn, (checkAll_prefix pre (t :: post) _ _ _ _ Hpre).
    cbn [checkAll]. now rewrite Hknown, Hill.
  - intros l Hall.
    rewrite Hlearn. rewrite <- (app_nil_r moves) at 1.
    rewrite (checkAll_prefix moves [] _ _ _ _ Hall). cbn [checkAll problem lastMove lset].
    now destruct moves.
  - intros all hidden b srcs runs Hsort Hruns. unfold listSources.
    rewrite Hsort. now rewrite (listSource_runs all hidden runs (mkListing None 0 b) Hruns).
Qed.

End LearnReply.

(** C9 on the data set of the examples: Gastly and the moves Growl,
    Surf and a name that is no move. *)
Lemma learn_reply_witness :
  Demo.learn "gastly, growl, foo" "learn" = SendReply (msgNoMoveNamed "foo")
  /\ Demo.learn "gastly, growl, surf, foo" "learn"
     = SendReplyBox ("Gastly" ++ spanCannot ++ "these moves")
  /\ Demo.learn "gastly, growl" "learnall"
     = SendReplyBox
         (listLearnable Demo.Lset Demo.lsources Demo.lbefore true Demo.gastly
            (Demo.mkLset (Some ["5E"; "4Sa"; "4Sb"; "4Sc"; "4Sd"; "4Se"; "3S1"]) None)
            ("Gastly" ++ spanCan ++ "Growl"))
  /\ listSources false false "" ["5E"; "4Sa"; "4Sb"; "4Sc"; "4Sd"; "4Se"; "3S1"]
     = "" ++ String.concat ""
               (map (renderRun false false)
                    [mkRun "3" "S" ["1"]; mkRun "4" "S" ["a"; "b"; "c"; "d"; "e"];
                     mkRun "5" "E" [""]]).
Proof.
  split; [|split; [|split]].
  - apply (proj1 (learn_reply Demo.getMove Demo.getTemplate Demo.Lset Demo.checkLearnset
                    Demo.newLsetData Demo.setLevel Demo.setNoPokebank Demo.lsources Demo.lbefore
                    "gastly, growl, foo" "learn" "gastly" [" growl"; " foo"]
                    ltac:(discriminate) eq_refl ltac:(discriminate) eq_refl)
                 [" growl"] " foo" []
                 (Demo.mkLset (Some ["5E"; "4Sa"; "4Sb"; "4Sc"; "4Sd"; "4Se"; "3S1"]) None));
      reflexivity.
  - apply (proj1 (proj2 (learn_reply Demo.getMove Demo.getTemplate Demo.Lset
                    Demo.checkLearnset Demo.newLsetData Demo.setLevel Demo.setNoPokebank
                    Demo.lsources Demo.lbefore
                    "gastly, growl, surf, foo" "learn" "gastly" [" growl"; " surf"; " foo"]
                    ltac:(discriminate) eq_refl ltac:(discriminate) eq_refl))
                 [" growl"] " surf" [" foo"]
                 (Demo.mkLset (Some ["5E"; "4Sa"; "4Sb"; "4Sc"; "4Sd"; "4Se"; "3S1"]) None)
                 (Demo.mkLset (Some ["5E"; "4Sa"; "4Sb"; "4Sc"; "4Sd"; "4Se"; "3S1"]) None));
      reflexivity.
  - apply (proj1 (proj2 (proj2 (learn_reply Demo.getMove Demo.getTemplate Demo.Lset
                    Demo.checkLearnset Demo.newLsetData Demo.setLevel Demo.setNoPokebank
                    Demo.lsources Demo.lbefore
                    "gastly, growl" "learnall" "gastly" [" growl"]
                    ltac:(discriminate) eq_refl ltac:(discriminate) eq_refl)))
                 (Demo.mkLset (Some ["5E"; "4Sa"; "4Sb"; "4Sc"; "4Sd"; "4Se"; "3S1"]) None));
      reflexivity.
  - apply (proj2 (proj2 (proj2 (learn_reply Demo.getMove Demo.getTemplate Demo.Lset
                    Demo.checkLearnset Demo.newLsetData Demo.setLevel Demo.setNoPokebank
                    Demo.lsources Demo.lbefore
                    "gastly, growl" "learn" "gastly" [" growl"]
                    ltac:(discriminate) eq_refl ltac:(discriminate) eq_refl))));
      reflexivity.
Defined.

(** A run of five sources of one generation and method: the command
    lists four details before the ellipsis, where a cut after 3 entries
    would list three. *)
Lemma learn_reply_counterexample :
  listSources false false "" ["4Sa"; "4Sb"; "4Sc"; "4Sd"; "4Se"]
  = "<li>gen 4 event: a, b, c, d, ..."
  /\ renderRunSpec false false (mkRun "4" "S" ["a"; "b"; "c"; "d"; "e"])
     = "<li>gen 4 event: a, b, c, ..."
  /\ listSources false false "" ["4Sa"; "4Sb"; "4Sc"; "4Sd"; "4Se"]
     <> renderRunSpec false false (mkRun "4" "S" ["a"; "b"; "c"; "d"; "e"])
  /\ Demo.learn "gastly, growl" "learn"
     = SendReplyBox
         ("Gastly" ++ spanCan ++ "Growl" ++ listOpen
          ++ "<li>gen 3 event: 1<li>gen 4 event: a, b, c, d, ...<li>gen 5 egg</ul>").
Proof.
  split; [reflexivity|]. split; [reflexivity|]. split; [|reflexivity].
  vm_compute. discriminate.
Qed.
(** * Further properties of the commands *)

(** ** The species search: tokens that are skipped, limits, broadcasts *)

Section SearchExtras.

Variable getMove : string -> Effect.
Variable getAbility : string -> Effect.
Variable inTypeChart : string -> bool.
Variable pokedex : list string.
Variable getTemplate : string -> Template.
Variable LsetData : Type.
Variable checkLearnset : Effect -> Template -> LsetData -> bool * LsetData.
Variable newLsetData : LsetData.
Variable broadcasting : bool.
Variable shuffle : list string -> list string.

Local Abbreviation Classify := (classify getMove getAbility inTypeChart broadcasting).
Local Abbreviation ClassifyAll := (classifyAll getMove getAbility inTypeChart broadcasting).
Local Abbreviation ClassOf := (classOf getMove getAbility inTypeChart).
Local Abbreviation TokensOf := (tokensOf getMove getAbility inTypeChart).
Local Abbreviation Dexsearch :=
  (dexsearch getMove getAbility inTypeChart pokedex getTemplate LsetData checkLearnset
             newLsetData broadcasting shuffle).

(** X1: a token that contains [" type"], whose text before it names no
    type of the chart and that is nothing else, is skipped: a query
    with such a token among the others gets the reply of the query
    without it. *)
Theorem unknown_type_token_is_skipped (target target' : string)
    (pre post : list string) (t : string) (idx : nat) :
  ClassOf t = None -> JS.indexOf " type" (normal t) = Some idx ->
  target <> "" -> target' <> "" ->
  JS.split "," target = (pre ++ t :: post)%list ->
  JS.split "," target' = (pre ++ post)%list ->
  Dexsearch target = Dexsearch target'.
Proof.
  intros Hc Hi Hne Hne' Hs Hs'. unfold dexsearch.
  apply String.eqb_neq in Hne. apply String.eqb_neq in Hne'.
  rewrite Hne, Hne', Hs, Hs'.
  rewrite !classifyAll_app.
  destruct (ClassifyAll emptyQuery pre) as [q|r]; [|reflexivity].
  cbn [classifyAll].
  now rewrite (unknown_type_dropped getMove getAbility inTypeChart broadcasting q t idx Hc Hi).
Qed.

(** what a token of a category does to a query: the reply that refuses
    it, or the new object of the category and the new number of
    populated categories, which rest on that category and the number
    alone *)
Lemma accumulate_cases (k : Kind) (key : string) (q : Query) :
  (exists r, forall q', category k q' = category k q -> accumulate k key q' = inr r)
  \/ (exists o step,
        (step = (fun n => n) \/ step = S)
        /\ forall q', category k q' = category k q ->
                      accumulate k key q' = inl (setCategory k q' o (step (count q')))).
Proof.
  unfold accumulate, populate.
  destruct (JS.truthy (countOf (category k q))) eqn:Et.
  - destruct (limit k) as [[m msg]|] eqn:El.
    + destruct (countIs (category k q) m) eqn:Ec.
      * left. exists (SendReply msg). intros q' ->. now rewrite Et, Ec.
      * right. exists (addMember (category k q) key), (fun n => n).
        split; [now left|]. intros q' ->. now rewrite Et, Ec.
    + right. exists (addMember (category k q) key), (fun n => n).
      split; [now left|]. intros q' ->. now rewrite Et.
  - destruct (limit k) as [[m msg]|] eqn:El.
    + destruct (countIs (JS.set (category k q) "count" 0) m) eqn:Ec.
      * left. exists (SendReply msg). intros q' ->. now rewrite Et, Ec.
      * right. exists (addMember (JS.set (category k q) "count" 0) key), S.
        split; [now right|]. intros q' ->. now rewrite Et, Ec.
    + right. exists (addMember (JS.set (category k q) "count" 0) key), S.
      split; [now right|]. intros q' ->. now rewrite Et.
Qed.

Lemma setCategory_swap (ka kb : Kind) (q : Query) (oa ob : JS.obj) (n : nat) :
  ka <> kb ->
  setCategory kb (setCategory ka q oa n) ob n
  = setCategory ka (setCategory kb q ob n) oa n.
Proof. destruct ka, kb; simpl; congruence. Qed.

Lemma setCategory_count (k : Kind) (q : Query) (o : JS.obj) (n m : nat) :
  setCategory k (setCategory k q o n) o m = setCategory k q o m.
Proof. now destruct k. Qed.

Lemma setCategory_recount (ka kb : Kind) (q : Query) (oa ob : JS.obj) (n m : nat) :
  setCategory kb (setCategory ka q oa n) ob m
  = setCategory kb (setCategory ka q oa m) ob m.
Proof. destruct ka, kb; reflexivity. Qed.

Lemma setAll_setCategory (k : Kind) (q : Query) (o : JS.obj) (n : nat) :
  setAll (setCategory k q o n) = setCategory k (setAll q) o n.
Proof. now destruct k. Qed.

Lemma category_setAll (k : Kind) (q : Query) : category k (setAll q) = category k q.
Proof. now destruct k. Qed.

Lemma classifyAll_two (q : Query) (a b : string) :
  ClassifyAll q [a; b]
  = match Classify q a with
    | inl q1 => Classify q1 b
    | inr r => inr r
    end.
Proof.
  cbn [classifyAll]. destruct (Classify q a) as [q1|r]; [|reflexivity].
  now destruct (Classify q1 b).
Qed.

(** two tokens of different classes, one after the other *)
Lemma classify_swap (q : Query) (a b : string) :
  ClassOf a <> ClassOf b ->
  (forall ra rb, Classify q a = inr ra -> Classify q b = inr rb -> ra = rb) ->
  ClassifyAll q [a; b] = ClassifyAll q [b; a].
Proof.
  intros Hdiff Hsame. rewrite !classifyAll_two.
  revert Hsame. rewrite !(classify_classOf _ _ _ _ q).
  destruct (ClassOf a) as [[ka|]|] eqn:Ea; destruct (ClassOf b) as [[kb|]|] eqn:Eb.
  - (* two categories *)
    assert (Hk : ka <> kb) by congruence.
    intros Hsame.
    destruct (accumulate_cases ka (memberKey getMove getAbility ka a) q)
      as [[ra Ha] | (oa & sa & Hsa & Ha)];
      destruct (accumulate_cases kb (memberKey getMove getAbility kb b) q)
        as [[rb Hb] | (ob & sb & Hsb & Hb)].
    + rewrite (Ha q eq_refl), (Hb q eq_refl) in *.
      now rewrite (Hsame ra rb eq_refl eq_refl).
    + rewrite (Ha q eq_refl), (Hb q eq_refl), !classify_classOf, Ea.
      rewrite Ha by (now apply category_setCategory_other; congruence). reflexivity.
    + rewrite (Ha q eq_refl), (Hb q eq_refl), !classify_classOf, Eb.
      rewrite Hb by (now apply category_setCategory_other). reflexivity.
    + rewrite (Ha q eq_refl), (Hb q eq_refl), !classify_classOf, Ea, Eb.
      rewrite Hb by (now apply category_setCategory_other).
      rewrite Ha by (now apply category_setCategory_other; congruence).
      rewrite !count_setCategory. f_equal.
      rewrite (setCategory_recount ka kb q oa ob (sa (count q)) (sb (sa (count q)))).
      rewrite (setCategory_recount kb ka q ob oa (sb (count q)) (sa (sb (count q)))).
      replace (sa (sb (count q))) with (sb (sa (count q)))
        by (destruct Hsa as [-> | ->]; destruct Hsb as [-> | ->]; reflexivity).
      now apply setCategory_swap.
  - (* a category, then [all] *)
    intros Hsame.
    destruct (accumulate_cases ka (memberKey getMove getAbility ka a) q)
      as [[ra Ha] | (oa & sa & Hsa & Ha)].
    + rewrite (Ha q eq_refl) in *. destruct broadcasting eqn:Hb.
      * now rewrite (Hsame ra _ eq_refl eq_refl).
      * rewrite classify_classOf, Ea. now rewrite Ha by apply category_setAll.
    + rewrite (Ha q eq_refl) in *. rewrite !classify_classOf, Eb.
      destruct broadcasting; [reflexivity|].
      rewrite classify_classOf, Ea. rewrite Ha by apply category_setAll.
      now rewrite setAll_setCategory.
  - (* a category, then a token that is skipped or not found *)
    intros Hsame.
    destruct (accumulate ka _ q) as [q1|r] eqn:Eacc;
      destruct (JS.indexOf " type" (normal b)) as [ib|] eqn:Eib;
      rewrite ?classify_classOf, ?Ea, ?Eb, ?Eib, ?Eacc; try reflexivity.
    now rewrite (Hsame r _ eq_refl eq_refl).
  - (* [all], then a category *)
    intros Hsame.
    destruct (accumulate_cases kb (memberKey getMove getAbility kb b) q)
      as [[rb Hb] | (ob & sb & Hsb & Hb)].
    + rewrite (Hb q eq_refl) in *. destruct broadcasting eqn:Hbr.
      * now rewrite (Hsame _ rb eq_refl eq_refl).
      * rewrite classify_classOf, Eb. now rewrite Hb by apply category_setAll.
    + rewrite (Hb q eq_refl) in *. rewrite !classify_classOf, Ea.
      destruct broadcasting; [reflexivity|].
      rewrite classify_classOf, Eb. rewrite Hb by apply category_setAll.
      now rewrite setAll_setCategory.
  - contradiction.
  - (* [all], then a token that is skipped or not found *)
    intros Hsame.
    destruct broadcasting eqn:Hbr;
      destruct (JS.indexOf " type" (normal b)) as [ib|] eqn:Eib;
      rewrite ?classify_classOf, ?Ea, ?Eb, ?Eib, ?Hbr; try reflexivity.
    now rewrite (Hsame _ _ eq_refl eq_refl).
  - (* a token that is skipped or not found, then a category *)
    intros Hsame.
    destruct (accumulate kb _ q) as [q1|r] eqn:Eacc;
      destruct (JS.indexOf " type" (normal a)) as [ia|] eqn:Eia;
      rewrite ?classify_classOf, ?Ea, ?Eb, ?Eia, ?Eacc; try reflexivity.
    now rewrite (Hsame _ r eq_refl eq_refl).
  - (* a token that is skipped or not found, then [all] *)
    intros Hsame.
    destruct broadcasting eqn:Hbr;
      destruct (JS.indexOf " type" (normal a)) as [ia|] eqn:Eia;
      rewrite ?classify_classOf, ?Ea, ?Eb, ?Eia, ?Hbr; try reflexivity.
    now rewrite (Hsame _ _ eq_refl eq_refl).
  - contradiction.
Qed.

(** X2: two neighbouring tokens of different classes can change
    places: the query gets the same reply, unless both tokens are
    refused where they stand and with different replies. *)
Theorem neighbours_of_different_classes_swap (target target' : string)
    (pre post : list string) (a b : string) :
  JS.split "," target = (pre ++ a :: b :: post)%list ->
  JS.split "," target' = (pre ++ b :: a :: post)%list ->
  ClassOf a <> ClassOf b ->
  (forall q ra rb,
      ClassifyAll emptyQuery pre = inl q ->
      Classify q a = inr ra -> Classify q b = inr rb -> ra = rb) ->
  Dexsearch target = Dexsearch target'.
Proof.
  intros Hs Hs' Hdiff Hsame.
  assert (Hne : forall t l x y r, JS.split "," t = (l ++ x :: y :: r)%list -> t <> "").
  { intros t l x y r H ->. apply (f_equal (@length string)) in H.
    rewrite length_app in H. simpl in H. lia. }
  unfold dexsearch.
  rewrite (proj2 (String.eqb_neq _ _) (Hne _ _ _ _ _ Hs)).
  rewrite (proj2 (String.eqb_neq _ _) (Hne _ _ _ _ _ Hs')).
  rewrite Hs, Hs', !classifyAll_app.
  destruct (ClassifyAll emptyQuery pre) as [q|r] eqn:Hpre; [|reflexivity].
  change (a :: b :: post) with ([a; b] ++ post)%list.
  change (b :: a :: post) with ([b; a] ++ post)%list.
  rewrite !classifyAll_app.
  now rewrite (classify_swap q a b Hdiff (fun ra rb => Hsame q ra rb eq_refl)).
Qed.

Hypothesis move_names : forall raw,
  e_exists (getMove raw) = true -> e_name (getMove raw) <> "count".
Hypothesis ability_names : forall raw,
  e_exists (getAbility raw) = true -> e_name (getAbility raw) <> "count".

(** X3: a query that is accepted never holds more than four Move
    tokens, one Ability token or two Type tokens, and the counters of
    the three categories, when set, are within these limits. *)
Theorem accepted_query_within_limits (targets : list string) (q : Query) :
  ClassifyAll emptyQuery targets = inl q ->
  length (TokensOf KMove targets) <= 4
  /\ length (TokensOf KAbility targets) <= 1
  /\ length (TokensOf KType targets) <= 2
  /\ (forall n, countOf (moves q) = Some n -> n <= 4)
  /\ (forall n, countOf (ability q) = Some n -> n <= 1)
  /\ (forall n, countOf (qtypes q) = Some n -> n <= 2).
Proof.
  intros Hrun.
  pose proof (within_limit getMove getAbility inTypeChart broadcasting move_names
                           ability_names KMove 4 msgMoveLimit eq_refl ltac:(lia)
                           targets q Hrun) as Hm.
  pose proof (within_limit getMove getAbility inTypeChart broadcasting move_names
                           ability_names KAbility 1 msgAbilityLimit eq_refl ltac:(lia)
                           targets q Hrun) as Ha.
  pose proof (within_limit getMove getAbility inTypeChart broadcasting move_names
                           ability_names KType 2 msgTypeLimit eq_refl ltac:(lia)
                           targets q Hrun) as Ht.
  destruct (classifyAll_tokens getMove getAbility inTypeChart broadcasting
              move_names ability_names targets q Hrun) as [Hobj _].
  assert (Hcount : forall k n, countOf (category k q) = Some n ->
                               n = length (TokensOf k targets)).
  { intros k n Hn. specialize (Hobj k).
    destruct (length (TokensOf k targets)) as [|c]; simpl in Hobj.
    - rewrite Hobj in Hn. discriminate.
    - destruct Hobj as [Hc _]. congruence. }
  repeat split; try assumption.
  - intros n Hn. apply (Hcount KMove) in Hn. lia.
  - intros n Hn. apply (Hcount KAbility) in Hn. lia.
  - intros n Hn. apply (Hcount KType) in Hn. lia.
Qed.

(** X4: a broadcast search never shows the whole result.  When the
    command is broadcast, the first token that is [all], after tokens
    that were accepted, ends the query with the reply that such a
    search cannot be broadcast, and no accepted query has the flag. *)
Theorem broadcast_never_shows_all :
  broadcasting = true ->
  (forall pre t post q,
      ClassifyAll emptyQuery pre = inl q -> ClassOf t = Some AllFlag ->
      ClassifyAll emptyQuery (pre ++ t :: post) = inr (SendReply msgBroadcastAll))
  /\ (forall targets q, ClassifyAll emptyQuery targets = inl q -> showAll q = false).
Proof.
  intros Hb. split.
  - intros pre t post q Hpre Hc. rewrite classifyAll_app, Hpre. cbn [classifyAll].
    now rewrite classify_classOf, Hc, Hb.
  - intros targets. induction targets as [|t pre IH] using rev_ind; intros q Hrun.
    + injection Hrun as <-. reflexivity.
    + rewrite classifyAll_app in Hrun.
      destruct (ClassifyAll emptyQuery pre) as [q1|r] eqn:Hpre; [|discriminate].
      specialize (IH q1 eq_refl). cbn [classifyAll] in Hrun.
      destruct (Classify q1 t) as [q2|r] eqn:Hstep; [|discriminate].
      injection Hrun as <-. rewrite classify_classOf in Hstep.
      destruct (ClassOf t) as [[k|]|].
      * apply accumulate_inl in Hstep. subst q2. now rewrite showAll_setCategory.
      * rewrite Hb in Hstep. discriminate.
      * destruct (JS.indexOf " type" (normal t)); [|discriminate].
        now injection Hstep as <-.
Qed.

End SearchExtras.

(** On the data set of the examples: [foo type, ou] and [ ou]. *)
Lemma unknown_type_token_is_skipped_witness :
  Demo.dexsearch false "foo type, ou" = Demo.dexsearch false " ou".
Proof.
  apply (unknown_type_token_is_skipped Demo.getMove Demo.getAbility Demo.inTypeChart
           Demo.pokedex Demo.getTemplate Demo.Lset Demo.checkLearnset Demo.newLsetData
           false Demo.shuffle "foo type, ou" " ou" [] [" ou"] "foo type" 3);
    try reflexivity; discriminate.
Defined.

(** On the data set of the examples: [ou, ember] and [ ember,ou]. *)
Lemma neighbours_of_different_classes_swap_witness :
  Demo.dexsearch false "ou, ember" = Demo.dexsearch false " ember,ou".
Proof.
  apply (neighbours_of_different_classes_swap Demo.getMove Demo.getAbility
           Demo.inTypeChart Demo.pokedex Demo.getTemplate Demo.Lset Demo.checkLearnset
           Demo.newLsetData false Demo.shuffle "ou, ember" " ember,ou" [] [] "ou" " ember").
  - reflexivity.
  - reflexivity.
  - vm_compute. discriminate.
  - intros q ra rb Hq Ha. injection Hq as <-. vm_compute in Ha. discriminate Ha.
Defined.

(** On the data set of the examples: the query [ember, fly, blaze]. *)
Lemma accepted_query_within_limits_witness :
  length (tokensOf Demo.getMove Demo.getAbility Demo.inTypeChart KMove
                   ["ember"; " fly"; " blaze"]) <= 4
  /\ length (tokensOf Demo.getMove Demo.getAbility Demo.inTypeChart KAbility
                      ["ember"; " fly"; " blaze"]) <= 1
  /\ length (tokensOf Demo.getMove Demo.getAbility Demo.inTypeChart KType
                      ["ember"; " fly"; " blaze"]) <= 2.
Proof.
  pose proof (accepted_query_within_limits Demo.getMove Demo.getAbility Demo.inTypeChart
                false Demo_move_names Demo_ability_names ["ember"; " fly"; " blaze"]
                (mkQuery [("count", 2); ("Ember", 1); ("Fly", 1)]
                         [("count", 1); ("Blaze", 1)] [] [] [] [] 2 false) eq_refl)
    as (Hm & Ha & Ht & _).
  now repeat split.
Defined.

(** On the data set of the examples: the broadcast query [ou, all]. *)
Lemma broadcast_never_shows_all_witness :
  classifyAll Demo.getMove Demo.getAbility Demo.inTypeChart true emptyQuery
              (["ou"] ++ " all" :: [])
  = inr (SendReply msgBroadcastAll).
Proof.
  eapply (proj1 (broadcast_never_shows_all Demo.getMove Demo.getAbility Demo.inTypeChart
                   true eq_refl)); reflexivity.
Defined.

(** ** The learnset query: the order of the sources *)

(** the order of the strings is transitive *)
Lemma string_compare_trans (c : comparison) (s1 s2 s3 : string) :
  String.compare s1 s2 = c -> String.compare s2 s3 = c -> String.compare s1 s3 = c.
Proof.
  revert s2 s3. induction s1 as [|c1 s1 IH]; intros [|c2 s2] [|c3 s3]; simpl;
    try congruence.
  unfold Ascii.compare.
  destruct (N.compare_spec (N_of_ascii c1) (N_of_ascii c2)) as [E12 | L12 | G12];
    destruct (N.compare_spec (N_of_ascii c2) (N_of_ascii c3)) as [E23 | L23 | G23];
    try congruence.
  - rewrite E12, E23, N.compare_refl. apply IH.
  - intros H1 H2. rewrite E12, (proj2 (N.compare_lt_iff _ _) L23). assumption.
  - intros H1 H2. rewrite E12, (proj2 (N.compare_gt_iff _ _) G23). assumption.
  - intros H1 H2. rewrite <- E23, (proj2 (N.compare_lt_iff _ _) L12). assumption.
  - intros H1 H2.
    assert (L13 : (N_of_ascii c1 < N_of_ascii c3)%N) by lia.
    rewrite (proj2 (N.compare_lt_iff _ _) L13). assumption.
  - intros H1 H2. rewrite <- E23, (proj2 (N.compare_gt_iff _ _) G12). assumption.
  - intros H1 H2.
    assert (G13 : (N_of_ascii c3 < N_of_ascii c1)%N) by lia.
    rewrite (proj2 (N.compare_gt_iff _ _) G13). assumption.
Qed.

Lemma string_leb_trans (s1 s2 s3 : string) :
  String.leb s1 s2 = true -> String.leb s2 s3 = true -> String.leb s1 s3 = true.
Proof.
  unfold String.leb.
  destruct (String.compare s1 s2) eqn:E12; destruct (String.compare s2 s3) eqn:E23;
    try discriminate; intros _ _.
  - now rewrite (string_compare_trans Eq s1 s2 s3 E12 E23).
  - apply String.compare_eq_iff in E12. subst s2. now rewrite E23.
  - apply String.compare_eq_iff in E23. subst s3. now rewrite E12.
  - now rewrite (string_compare_trans Lt s1 s2 s3 E12 E23).
Qed.

Lemma insertSorted_In (x y : string) (l : list string) :
  In y (insertSorted x l) <-> y = x \/ In y l.
Proof.
  induction l as [|z r IH]; simpl; [intuition congruence|].
  destruct (String.leb x z); simpl; [intuition congruence|].
  rewrite IH. intuition congruence.
Qed.

Lemma insertSorted_ascending (x : string) (l : list string) :
  ascending l -> ascending (insertSorted x l).
Proof.
  induction l as [|z r IH]; simpl.
  - intros _. split; [intros y [] | exact I].
  - intros [Hz Hr]. destruct (String.leb x z) eqn:E; simpl.
    + split; [|now split].
      intros y [<- | Hy]; [assumption|].
      apply (string_leb_trans x z y E). now apply Hz.
    + split; [|now apply IH].
      intros y Hy. apply insertSorted_In in Hy. destruct Hy as [-> | Hy]; [|now apply Hz].
      destruct (String.leb_total x z) as [H | H]; congruence.
Qed.

Lemma sort_ascending (l : list string) : ascending (sort l).
Proof.
  induction l as [|x r IH]; simpl; [exact I|]. now apply insertSorted_ascending.
Qed.

(** on an ascending list it does not matter which of two strings is
    put in first *)
Lemma insertSorted_swap (x y : string) (l : list string) :
  ascending l ->
  insertSorted x (insertSorted y l) = insertSorted y (insertSorted x l).
Proof.
  induction l as [|z r IH]; simpl.
  - intros _. destruct (String.leb x y) eqn:Exy; destruct (String.leb y x) eqn:Eyx;
      try reflexivity.
    + now rewrite (String.leb_antisym x y Exy Eyx).
    + destruct (String.leb_total x y); congruence.
  - intros [Hz Hr].
    destruct (String.leb y z) eqn:Eyz; destruct (String.leb x z) eqn:Exz; simpl;
      rewrite ?Eyz, ?Exz.
    + destruct (String.leb x y) eqn:Exy; destruct (String.leb y x) eqn:Eyx;
        try reflexivity.
      * now rewrite (String.leb_antisym x y Exy Eyx).
      * destruct (String.leb_total x y); congruence.
    + assert (Exy : String.leb x y = false).
      { apply not_true_is_false. intros H.
        rewrite (string_leb_trans x y z H Eyz) in Exz. discriminate. }
      now rewrite Exy.
    + assert (Eyx : String.leb y x = false).
      { apply not_true_is_false. intros H.
        rewrite (string_leb_trans y x z H Exz) in Eyz. discriminate. }
      now rewrite Eyx.
    + now rewrite IH.
Qed.

Lemma sort_Permutation (l l' : list string) : Permutation l l' -> sort l = sort l'.
Proof.
  induction 1 as [| x l l' _ IH | x y l | l l' l'' _ IH1 _ IH2]; simpl.
  - reflexivity.
  - now rewrite IH.
  - apply insertSorted_swap, sort_ascending.
  - congruence.
Qed.

(** X5: the list of sources does not rest on the order in which the
    legality engine has recorded them: two engines whose sources are
    the same up to their order get the same reply. *)
Theorem sources_in_any_order
    (getMove : string -> Effect) (getTemplate : string -> Template) (LsetData : Type)
    (checkLearnset : Effect -> Template -> LsetData -> bool * LsetData)
    (newLsetData : LsetData) (setLevel : nat -> LsetData -> LsetData)
    (setNoPokebank : LsetData -> LsetData)
    (sources sources' : LsetData -> option (list string))
    (sourcesBefore : LsetData -> option nat) (target cmd : string) :
  (forall l, match sources l, sources' l with
             | Some a, Some b => Permutation a b
             | None, None => True
             | _, _ => False
             end) ->
  learn getMove getTemplate LsetData checkLearnset newLsetData setLevel setNoPokebank
        sources sourcesBefore target cmd
  = learn getMove getTemplate LsetData checkLearnset newLsetData setLevel setNoPokebank
          sources' sourcesBefore target cmd.
Proof.
  intros Hperm. unfold learn.
  destruct (String.eqb target ""); [reflexivity|].
  destruct (negb (t_exists _)); [reflexivity|].
  destruct (length _ <? 2); [reflexivity|].
  destruct (checkAll _ _ _ _ _ _ _) as [c|r]; [|reflexivity].
  destruct (problem c); [reflexivity|].
  unfold listLearnable, listSources. specialize (Hperm (lset c)).
  destruct (sources (lset c)) as [a|]; destruct (sources' (lset c)) as [b|];
    try contradiction; [|reflexivity].
  now rewrite (sort_Permutation a b Hperm).
Qed.

(** On the data set of the examples: the sources of Gastly for
    Growl, as they are and in reverse order. *)
Lemma sources_in_any_order_witness :
  Demo.learn "gastly,growl" "learn"
  = learn Demo.getMove Demo.getTemplate Demo.Lset Demo.checkLearnset Demo.newLsetData
          Demo.setLevel Demo.setNoPokebank
          (fun l => option_map (@rev string) (Demo.lsources l)) Demo.lbefore
          "gastly,growl" "learn".
Proof.
  apply (sources_in_any_order Demo.getMove Demo.getTemplate Demo.Lset Demo.checkLearnset
           Demo.newLsetData Demo.setLevel Demo.setNoPokebank Demo.lsources
           (fun l => option_map (@rev string) (Demo.lsources l)) Demo.lbefore
           "gastly,growl" "learn").
  intros l. destruct (Demo.lsources l) as [a|]; simpl; [apply Permutation_rev | exact I].
Defined.

(** ** The challenge queue of the league *)

Lemma indexOf_none (x : string) (a : list string) : indexOf x a = None <-> ~ In x a.
Proof.
  induction a as [|y r IH]; simpl; [tauto|].
  destruct (String.eqb_spec y x).
  - split; [discriminate | intros H; exfalso; apply H; now left].
  - destruct (indexOf x r); simpl.
    + split; [discriminate|]. intros H. exfalso. apply H. right.
      destruct (proj1 IH) as []; [| ]; try tauto.
      destruct (in_dec string_dec x r) as [Hin | Hout]; [exact Hin|].
      apply IH in Hout. discriminate.
    + split; [|reflexivity]. intros _ [H | H]; [congruence | now apply IH].
Qed.

Lemma indexOf_some (x : string) (a : list string) (i : nat) :
  indexOf x a = Some i -> i < length a /\ nth i a "" = x.
Proof.
  revert i. induction a as [|y r IH]; intros i; simpl; [discriminate|].
  destruct (String.eqb_spec y x).
  - intros H. injection H as <-. split; [lia | assumption].
  - destruct (indexOf x r) as [j|]; simpl; [|discriminate].
    intros H. injection H as <-. destruct (IH j eq_refl). split; [lia | assumption].
Qed.

Lemma indexOf_In (x : string) (a : list string) :
  In x a -> exists i, indexOf x a = Some i.
Proof.
  intros H. destruct (indexOf x a) as [i|] eqn:E; [now exists i|].
  apply indexOf_none in E. contradiction.
Qed.

Lemma indexOf_app_last (x : string) (a : list string) :
  ~ In x a -> indexOf x (a ++ [x]) = Some (length a).
Proof.
  induction a as [|y r IH]; simpl; intros H.
  - now rewrite String.eqb_refl.
  - destruct (String.eqb_spec y x); [exfalso; apply H; now left|].
    rewrite IH; [reflexivity | tauto].
Qed.

Lemma removeAt_app_last (x : string) (a : list string) :
  removeAt (length a) (a ++ [x]) = a.
Proof. induction a as [|y r IH]; simpl; [reflexivity | now rewrite IH]. Qed.

Lemma removeAt_split (i : nat) (a : list string) :
  removeAt i a = (firstn i a ++ skipn (S i) a)%list.
Proof.
  revert i. induction a as [|y r IH]; intros i.
  - destruct i; reflexivity.
  - destruct i as [|i]; simpl; [reflexivity | now rewrite IH].
Qed.

Lemma removeAt_incl (i : nat) (a : list string) : incl (removeAt i a) a.
Proof.
  rewrite removeAt_split. intros x Hx. apply in_app_or in Hx.
  rewrite <- (firstn_skipn i a). apply in_or_app.
  destruct Hx as [Hx | Hx]; [now left | right].
  rewrite <- (firstn_skipn 1 (skipn i a)), skipn_skipn. apply in_or_app. now right.
Qed.

Lemma removeAt_NoDup (i : nat) (a : list string) : NoDup a -> NoDup (removeAt i a).
Proof.
  revert i. induction a as [|y r IH]; intros i Hnd.
  - destruct i; constructor.
  - inversion Hnd as [|? ? Hy Hr]; subst. destruct i as [|i]; simpl; [assumption|].
    constructor; [|now apply IH].
    intros Hin. apply Hy. now apply (removeAt_incl i r).
Qed.

Lemma skipn_nth (i : nat) (a : list string) :
  i < length a -> skipn i a = nth i a "" :: skipn (S i) a.
Proof.
  revert i. induction a as [|y r IH]; intros i H; simpl in H; [lia|].
  destruct i as [|i]; [reflexivity|]. simpl. apply IH. lia.
Qed.

Section LeagueFacts.

Variable toId : string -> string.
Variable lideres : list string.
Variable who : string -> option string.
Variable canBroadcast : bool.

Local Abbreviation Disponibles := (disponibles lideres who).
Local Abbreviation Lideresdisponibles := (lideresdisponibles toId lideres who canBroadcast).
Local Abbreviation Cancelarreto := (cancelarreto toId who).
Local Abbreviation Clearlist := (clearlist who).
Local Abbreviation Unfound := (unfound who).

Lemma setChallengers_same (users : Users) (id : string) (c : option (list string)) :
  u_challengers (setChallengers users id c id) = c.
Proof. unfold setChallengers. now rewrite String.eqb_refl. Qed.

Lemma setChallengers_other (users : Users) (id x : string) (c : option (list string)) :
  x <> id -> setChallengers users id c x = users x.
Proof.
  intros H. unfold setChallengers. apply String.eqb_neq in H. now rewrite H.
Qed.

(** the queue commands leave the other fields of every user as they are *)
Lemma setChallengers_fields (users : Users) (id x : string) (c : option (list string)) :
  u_name (setChallengers users id c x) = u_name (users x)
  /\ u_connected (setChallengers users id c x) = u_connected (users x)
  /\ u_gymopen (setChallengers users id c x) = u_gymopen (users x)
  /\ u_noinscription (setChallengers users id c x) = u_noinscription (users x).
Proof.
  unfold setChallengers. destruct (String.eqb_spec x id) as [-> | _]; now repeat split.
Qed.

Lemma disponibles_setChallengers (users : Users) (id : string) (c : option (list string)) :
  Disponibles (setChallengers users id c) = Disponibles users.
Proof.
  unfold disponibles. induction lideres as [|l r IH]; simpl; [reflexivity|].
  rewrite IH. destruct (who l) as [x|]; [|reflexivity].
  destruct (setChallengers_fields users id x c) as (Hn & _ & Hg & _).
  now rewrite Hn, Hg.
Qed.

(** X6: a challenge to an available leader whose inscription is open,
    or on whose list the challenger already is, leaves the challenger
    on the list exactly once, at the place that the reply gives as the
    turn: at the end when the challenge is new.  The other users are
    untouched, and sending the challenge again changes nothing and
    gives the same turn. *)
Theorem challenge_enqueues_once (users : Users) (userid target rid : string) :
  target <> "" ->
  existsb (fun d => String.eqb (toId d) (toId target)) (Disponibles users) = true ->
  who (toId target) = Some rid ->
  NoDup (queueOf users rid) ->
  u_noinscription (users rid) = false \/ In userid (queueOf users rid) ->
  exists turno queue,
    u_challengers (fst (Lideresdisponibles users userid target) rid) = Some queue
    /\ NoDup queue
    /\ indexOf userid queue = Some turno
    /\ (In userid (queueOf users rid) -> queue = queueOf users rid)
    /\ (~ In userid (queueOf users rid) -> queue = (queueOf users rid ++ [userid])%list)
    /\ (snd (Lideresdisponibles users userid target)
        = Some (SendReply (msgDesafioEnviado (u_name (users rid)) (turno + 1)))
        \/ snd (Lideresdisponibles users userid target)
           = Some (SendReply (msgDesafioYaEnviado (u_name (users rid)) (turno + 1))))
    /\ (forall id, id <> rid -> fst (Lideresdisponibles users userid target) id = users id)
    /\ snd (Lideresdisponibles (fst (Lideresdisponibles users userid target)) userid target)
       = Some (SendReply (msgDesafioYaEnviado (u_name (users rid)) (turno + 1)))
    /\ (forall id,
          u_challengers
            (fst (Lideresdisponibles (fst (Lideresdisponibles users userid target))
                                     userid target) id)
          = u_challengers (fst (Lideresdisponibles users userid target) id)).
Proof.
  intros Hne Hmatch Hwho Hnd Hopen.
  apply String.eqb_neq in Hne.
  assert (Hagain : forall queue i,
             indexOf userid queue = Some i ->
             forall users1,
               u_challengers (users1 rid) = Some queue ->
               u_name (users1 rid) = u_name (users rid) ->
               Disponibles users1 = Disponibles users ->
               snd (Lideresdisponibles users1 userid target)
               = Some (SendReply (msgDesafioYaEnviado (u_name (users rid)) (i + 1)))
               /\ forall id,
                    u_challengers (fst (Lideresdisponibles users1 userid target) id)
                    = u_challengers (users1 id)).
  { intros queue i Hi users1 Hq Hname Hdisp. unfold lideresdisponibles.
    rewrite Hne, Hdisp, Hmatch, Hwho, Hq, Hi, Hname. cbn [negb fst snd].
    split; [reflexivity|]. intros id.
    destruct (String.eqb_spec id rid) as [-> | Hid].
    - now rewrite setChallengers_same.
    - now rewrite setChallengers_other. }
  unfold queueOf in *.
  destruct (indexOf userid (match u_challengers (users rid) with
                            | Some c => c | None => [] end)) as [i|] eqn:Hidx.
  - (* the challenger is on the list already *)
    assert (Hsome : exists c, u_challengers (users rid) = Some c).
    { destruct (u_challengers (users rid)) as [c|]; [now exists c | discriminate]. }
    destruct Hsome as [c Hc]. rewrite Hc in *.
    assert (Hin : In userid c).
    { destruct (in_dec string_dec userid c) as [H | H]; [exact H|].
      apply indexOf_none in H. congruence. }
    assert (Hres : Lideresdisponibles users userid target
                   = (setChallengers users rid (Some c),
                      Some (SendReply (msgDesafioYaEnviado (u_name (users rid)) (i + 1))))).
    { unfold lideresdisponibles. rewrite Hne, Hmatch, Hwho, Hc, Hidx. reflexivity. }
    rewrite Hres. cbn [fst snd].
    exists i, c. rewrite setChallengers_same.
    destruct (Hagain c i Hidx (setChallengers users rid (Some c)))
      as [Hreply Hstate].
    { apply setChallengers_same. }
    { apply setChallengers_fields. }
    { apply disponibles_setChallengers. }
    repeat split; try assumption; try tauto.
    intros id Hid. now apply setChallengers_other.
  - (* the challenge is new *)
    set (old := match u_challengers (users rid) with Some c => c | None => [] end) in *.
    assert (Hout : ~ In userid old) by now apply indexOf_none.
    assert (Hinsc : u_noinscription (users rid) = false) by tauto.
    assert (Hres : Lideresdisponibles users userid target
                   = (setChallengers users rid (Some (old ++ [userid])%list),
                      Some (SendReply (msgDesafioEnviado (u_name (users rid))
                                                         (length old + 1))))).
    { unfold lideresdisponibles. rewrite Hne, Hmatch, Hwho. cbn [negb]. fold old.
      now rewrite Hidx, Hinsc. }
    rewrite Hres. cbn [fst snd].
    exists (length old), (old ++ [userid])%list. rewrite setChallengers_same.
    destruct (Hagain (old ++ [userid])%list (length old) (indexOf_app_last userid old Hout)
                     (setChallengers users rid (Some (old ++ [userid])%list)))
      as [Hreply Hstate].
    { apply setChallengers_same. }
    { apply setChallengers_fields. }
    { apply disponibles_setChallengers. }
    repeat split; try assumption; try tauto.
    all: try (now apply indexOf_app_last).
    all: try (intros id Hid; now apply setChallengers_other).
    apply NoDup_app; [assumption | repeat constructor; intros [] |].
    intros x Hx [<- | []]. contradiction.
Qed.

(** X7: a new challenge followed by its cancellation gives the leader's
    list back as it was (as an empty list when there was none), with the
    reply that the challenge was cancelled, and changes nothing else. *)
Theorem challenge_then_cancel (users : Users) (userid target rid : string) :
  target <> "" ->
  existsb (fun d => String.eqb (toId d) (toId target)) (Disponibles users) = true ->
  who (toId target) = Some rid ->
  u_noinscription (users rid) = false ->
  ~ In userid (queueOf users rid) ->
  u_gymopen (users userid) = false ->
  snd (Cancelarreto (fst (Lideresdisponibles users userid target)) userid target)
  = SendReply (msgCancelado (u_name (users rid)))
  /\ u_challengers
       (fst (Cancelarreto (fst (Lideresdisponibles users userid target)) userid target) rid)
     = Some (queueOf users rid)
  /\ forall id, id <> rid ->
       fst (Cancelarreto (fst (Lideresdisponibles users userid target)) userid target) id
       = users id.
Proof.
  intros Hne Hmatch Hwho Hinsc Hout Hgym.
  apply String.eqb_neq in Hne. unfold queueOf in *.
  set (old := match u_challengers (users rid) with Some c => c | None => [] end) in *.
  assert (Hidx : indexOf userid old = None) by now apply indexOf_none.
  assert (Hres : Lideresdisponibles users userid target
                 = (setChallengers users rid (Some (old ++ [userid])%list),
                    Some (SendReply (msgDesafioEnviado (u_name (users rid))
                                                       (length old + 1))))).
  { unfold lideresdisponibles. rewrite Hne, Hmatch, Hwho. cbn [negb]. fold old.
    now rewrite Hidx, Hinsc. }
  rewrite Hres. cbn [fst]. unfold cancelarreto.
  destruct (setChallengers_fields users rid userid (Some (old ++ [userid])%list))
    as (_ & _ & Hg & _).
  rewrite Hg, Hgym, Hwho. cbn [negb].
  rewrite setChallengers_same, (indexOf_app_last userid old Hout), removeAt_app_last.
  destruct (setChallengers_fields users rid rid (Some (old ++ [userid])%list))
    as (Hn & _).
  rewrite Hn. cbn [fst snd]. rewrite setChallengers_same.
  repeat split. intros id Hid. now rewrite !setChallengers_other.
Qed.

(** the loop keeps the challengers that are still there, in their
    order, and collects the others *)
Lemma clearLoop_partition (users : Users) (fuel : nat) :
  forall i challengers cleared,
    i <= length challengers -> length challengers - i <= fuel ->
    clearLoop who fuel i users challengers cleared
    = ((firstn i challengers
        ++ filter (fun id => negb (Unfound users id)) (skipn i challengers))%list,
       (cleared ++ filter (Unfound users) (skipn i challengers))%list).
Proof.
  induction fuel as [|fuel IH]; intros i ch cleared Hi Hfuel.
  - assert (i = length ch) by lia. subst i. simpl.
    rewrite skipn_all, firstn_all. simpl. now rewrite !app_nil_r.
  - simpl. destruct (i <? length ch) eqn:E.
    + apply Nat.ltb_lt in E. rewrite (skipn_nth i ch E). simpl.
      destruct (Unfound users (nth i ch "")) eqn:Eu; simpl.
      * rewrite IH.
        -- rewrite removeAt_split.
           assert (Hlen : length (firstn i ch) = i) by (rewrite length_firstn; lia).
           rewrite firstn_app, Hlen, Nat.sub_diag, firstn_firstn, Nat.min_id. simpl.
           rewrite app_nil_r.
           rewrite skipn_app, Hlen, Nat.sub_diag. simpl.
           rewrite (skipn_all2 (firstn i ch)) by (rewrite Hlen; lia). simpl.
           now rewrite <- app_assoc.
        -- rewrite removeAt_split, length_app, length_firstn, length_skipn. lia.
        -- rewrite removeAt_split, length_app, length_firstn, length_skipn. lia.
      * rewrite IH by lia.
        replace (i + 1) with (S i) by lia.
        assert (Hf : firstn (S i) ch = (firstn i ch ++ [nth i ch ""])%list).
        { rewrite <- (firstn_skipn i ch) at 1.
          assert (Hlen : length (firstn i ch) = i) by (rewrite length_firstn; lia).
          rewrite firstn_app, Hlen.
          rewrite (firstn_all2 (firstn i ch)) by lia.
          replace (S i - i) with 1 by lia.
          now rewrite (skipn_nth i ch E). }
        rewrite Hf. now rewrite <- app_assoc.
    + apply Nat.ltb_ge in E. assert (i = length ch) by lia. subst i.
      rewrite skipn_all, firstn_all. simpl. now rewrite !app_nil_r.
Qed.

(** X8: clearing the list without a parameter keeps exactly the
    challengers that are found and connected, in their order, and names
    the removed ones in the reply, which is the same sentence even when
    no one was removed; the other users are untouched. *)
Theorem clearlist_keeps_the_active (users : Users) (userid : string)
    (challengers : list string) :
  u_challengers (users userid) = Some challengers ->
  snd (Clearlist users userid "")
  = SendReply (msgEliminados (arrayToString (filter (Unfound users) challengers)))
  /\ u_challengers (fst (Clearlist users userid "") userid)
     = Some (filter (fun id => negb (Unfound users id)) challengers)
  /\ forall id, id <> userid -> fst (Clearlist users userid "") id = users id.
Proof.
  intros Hc. unfold clearlist. rewrite Hc. cbn [String.eqb].
  rewrite (clearLoop_partition users (length challengers) 0 challengers [])
    by (simpl; lia).
  cbn [firstn skipn app fst snd]. rewrite setChallengers_same.
  repeat split. intros id Hid. now apply setChallengers_other.
Qed.

Local Abbreviation RunQueue := (runQueue toId lideres who canBroadcast).
Local Abbreviation RunQueues := (runQueues toId lideres who canBroadcast).

Lemma indexOf_filter (p : string -> bool) (x : string) (a : list string) (i j : nat) :
  indexOf x a = Some i -> indexOf x (filter p a) = Some j -> j <= i.
Proof.
  revert i j. induction a as [|y r IH]; intros i j; simpl; [discriminate|].
  destruct (String.eqb_spec y x) as [-> | Hne].
  - intros H. injection H as <-. destruct (p x) eqn:Ep; simpl.
    + rewrite String.eqb_refl. intros H. injection H as <-. lia.
    + intros H. apply indexOf_some in H. destruct H as [Hlt Hnth].
      assert (Hin : In x (filter p r)) by (rewrite <- Hnth; now apply nth_In).
      apply filter_In in Hin. destruct Hin as [_ Hp]. congruence.
  - destruct (indexOf x r) as [i'|]; simpl; [|discriminate].
    intros H. injection H as <-. destruct (p y); simpl.
    + apply String.eqb_neq in Hne. rewrite Hne.
      destruct (indexOf x (filter p r)) as [j'|]; simpl; [|discriminate].
      intros H. injection H as <-. specialize (IH i' j' eq_refl eq_refl). lia.
    + intros H. specialize (IH i' j eq_refl H). lia.
Qed.

Lemma indexOf_removeAt (x : string) (a : list string) (k i j : nat) :
  NoDup a -> indexOf x a = Some i -> indexOf x (removeAt k a) = Some j -> j <= i.
Proof.
  revert k i j. induction a as [|y r IH]; intros k i j Hnd; simpl; [discriminate|].
  inversion Hnd as [|? ? Hy Hr]; subst.
  destruct (String.eqb_spec y x) as [-> | Hne].
  - intros H. injection H as <-. destruct k as [|k]; simpl.
    + intros H. apply indexOf_some in H. destruct H as [Hlt Hnth].
      exfalso. apply Hy. rewrite <- Hnth. now apply nth_In.
    + rewrite String.eqb_refl. intros H. injection H as <-. lia.
  - destruct (indexOf x r) as [i'|] eqn:Ei; simpl; [|discriminate].
    intros H. injection H as <-. destruct k as [|k]; simpl.
    + rewrite Ei. intros H. injection H as <-. lia.
    + apply String.eqb_neq in Hne. rewrite Hne.
      destruct (indexOf x (removeAt k r)) as [j'|] eqn:Ej; simpl; [|discriminate].
      intros H. injection H as <-. specialize (IH k i' j' Hr eq_refl Ej). lia.
Qed.

Lemma indexOf_app (x : string) (a b : list string) (i : nat) :
  indexOf x a = Some i -> indexOf x (a ++ b) = Some i.
Proof.
  revert i. induction a as [|y r IH]; intros i; simpl; [discriminate|].
  destruct (String.eqb y x); [trivial|].
  destruct (indexOf x r) as [i'|]; simpl; [|discriminate].
  intros H. injection H as <-. now rewrite (IH i' eq_refl).
Qed.

Lemma runQueue_change (users : Users) (c : QueueCommand) (id : string) :
  QueueChange (queueOf users id) (queueOf (RunQueue users c) id).
Proof.
  destruct c as [userid target | userid target | userid target]; simpl.
  - unfold lideresdisponibles.
    destruct (String.eqb target "").
    { destruct (negb canBroadcast); [constructor|].
      destruct (_ =? 1); [constructor|]. destruct (negb _); constructor. }
    destruct (negb _); [constructor|].
    destruct (who (toId target)) as [rid|]; [|constructor].
    destruct (indexOf userid _) as [i|] eqn:Ei; cbn [fst].
    + unfold queueOf, setChallengers.
      destruct (String.eqb_spec id rid) as [-> | _]; simpl; constructor.
    + destruct (u_noinscription (users rid)); cbn [fst].
      * unfold queueOf, setChallengers.
        destruct (String.eqb_spec id rid) as [-> | _]; simpl; constructor.
      * apply indexOf_none in Ei. unfold queueOf, setChallengers.
        destruct (String.eqb_spec id rid) as [-> | _]; simpl; now constructor.
  - unfold cancelarreto. destruct (negb (u_gymopen (users userid))).
    + destruct (who (toId target)) as [tid|]; [|constructor].
      destruct (u_challengers (users tid)) as [ch|] eqn:Ec; [|constructor].
      destruct (indexOf userid ch) as [i|]; [|constructor]. cbn [fst].
      unfold queueOf, setChallengers.
      destruct (String.eqb_spec id tid) as [-> | _]; simpl; [|constructor].
      rewrite Ec. constructor.
    + destruct (u_challengers (users userid)) as [ch|] eqn:Ec; [|constructor].
      destruct (indexOf (toId target) ch) as [i|]; [|constructor].
      destruct (Unfound users (toId target)); [|constructor]. cbn [fst].
      unfold queueOf, setChallengers.
      destruct (String.eqb_spec id userid) as [-> | _]; simpl; [|constructor].
      rewrite Ec. constructor.
  - unfold clearlist.
    destruct (u_challengers (users userid)) as [ch|] eqn:Ec; [|constructor].
    destruct (String.eqb target "").
    + rewrite (clearLoop_partition users (length ch) 0 ch []) by (simpl; lia).
      cbn [firstn skipn app fst]. unfold queueOf, setChallengers.
      destruct (String.eqb_spec id userid) as [-> | _]; simpl; [|constructor].
      rewrite Ec. constructor.
    + destruct (String.eqb target "all"); [|constructor]. cbn [fst].
      unfold queueOf, setChallengers.
      destruct (String.eqb_spec id userid) as [-> | _]; simpl; [|constructor].
      rewrite Ec. replace (@nil string) with (filter (fun _ => false) ch).
      * constructor.
      * clear. induction ch; simpl; trivial.
Qed.

Lemma change_NoDup (old new : list string) :
  QueueChange old new -> NoDup old -> NoDup new.
Proof.
  intros [ | x Hx | i | p] Hnd; trivial.
  - apply NoDup_app; [assumption | repeat constructor; intros [] |].
    intros y Hy [<- | []]. contradiction.
  - now apply removeAt_NoDup.
  - now apply NoDup_filter.
Qed.

Lemma change_turn (old new : list string) (x : string) (i j : nat) :
  QueueChange old new -> NoDup old ->
  indexOf x old = Some i -> indexOf x new = Some j -> j <= i.
Proof.
  intros [ | y Hy | k | p] Hnd Hi Hj.
  - assert (i = j) by congruence. lia.
  - rewrite (indexOf_app x old [y] i Hi) in Hj. injection Hj as <-. lia.
  - exact (indexOf_removeAt x old k i j Hnd Hi Hj).
  - exact (indexOf_filter p x old i j Hi Hj).
Qed.

Lemma runQueue_made (users : Users) (c : QueueCommand) (id : string) :
  u_challengers (users id) <> None -> u_challengers (RunQueue users c id) <> None.
Proof.
  intros Hmade.
  assert (Hset : forall rid l, u_challengers (setChallengers users rid (Some l) id) <> None).
  { intros rid l. unfold setChallengers.
    destruct (String.eqb_spec id rid); [discriminate | assumption]. }
  destruct c as [userid target | userid target | userid target]; simpl.
  - unfold lideresdisponibles.
    destruct (String.eqb target "").
    { destruct (negb canBroadcast); [assumption|].
      destruct (_ =? 1); [assumption|]. destruct (negb _); assumption. }
    destruct (negb _); [assumption|].
    destruct (who (toId target)) as [rid|]; [|assumption].
    destruct (indexOf userid _); [apply Hset|].
    destruct (u_noinscription (users rid)); apply Hset.
  - unfold cancelarreto. destruct (negb (u_gymopen (users userid))).
    + destruct (who (toId target)) as [tid|]; [|assumption].
      destruct (u_challengers (users tid)) as [ch|]; [|assumption].
      destruct (indexOf userid ch); [apply Hset | assumption].
    + destruct (u_challengers (users userid)) as [ch|]; [|assumption].
      destruct (indexOf (toId target) ch); [|assumption].
      destruct (Unfound users (toId target)); [apply Hset | assumption].
  - unfold clearlist.
    destruct (u_challengers (users userid)) as [ch|]; [|assumption].
    destruct (String.eqb target "").
    + destruct (clearLoop _ _ _ _ _ _). apply Hset.
    + destruct (String.eqb target "all"); [apply Hset | assumption].
Qed.

(** X9: when no list of challengers names a user twice, no series of
    challenges, cancellations and clearings makes one that does. *)
Theorem queues_never_hold_a_user_twice (users : Users) (cs : list QueueCommand) :
  (forall id, NoDup (queueOf users id)) ->
  forall id, NoDup (queueOf (RunQueues users cs) id).
Proof.
  revert users. induction cs as [|c cs IH]; intros users Hnd id; [apply Hnd|].
  simpl. apply IH. intros id'.
  exact (change_NoDup _ _ (runQueue_change users c id') (Hnd id')).
Qed.

(** X10: a challenger who stays on a list through a series of commands
    never moves back: at the end of the series the place in the list,
    and so the turn, is the same as at its start or an earlier one. *)
Theorem turn_never_moves_back (users : Users) (cs : list QueueCommand)
    (id x : string) (i j : nat) :
  (forall id', NoDup (queueOf users id')) ->
  (forall n, n <= length cs -> In x (queueOf (RunQueues users (firstn n cs)) id)) ->
  indexOf x (queueOf users id) = Some i ->
  indexOf x (queueOf (RunQueues users cs) id) = Some j ->
  j <= i.
Proof.
  revert users i. induction cs as [|c cs IH]; intros users i Hnd Hstay Hi Hj.
  - simpl in Hj. assert (i = j) by congruence. lia.
  - simpl in Hj.
    assert (Hin : In x (queueOf (RunQueue users c) id)) by (apply (Hstay 1); simpl; lia).
    destruct (indexOf_In x _ Hin) as [k Hk].
    pose proof (change_turn _ _ x i k (runQueue_change users c id) (Hnd id) Hi Hk) as Hki.
    assert (Hjk : j <= k).
    { apply (IH (RunQueue users c) k); try assumption.
      - intros id'. exact (change_NoDup _ _ (runQueue_change users c id') (Hnd id')).
      - intros n Hn. apply (Hstay (S n)). simpl. lia. }
    lia.
Qed.

Variable username : string -> string.

(** X11: a list of challengers, once made, is never taken away again:
    after any series of commands the user still has a list, and [retos]
    answers with the names on it, also when the list has become empty
    (as after [clearlist all]), and not that nobody has challenged. *)
Theorem queue_once_made_stays (users : Users) (cs : list QueueCommand) (id : string) :
  u_challengers (users id) <> None ->
  (exists queue,
      u_challengers (RunQueues users cs id) = Some queue
      /\ retos username (RunQueues users cs) id
         = SendReply (msgRetos (arrayToString (map username queue))))
  /\ retos username (fst (Clearlist users id "all")) id = SendReply (msgRetos "").
Proof.
  intros Hmade. split.
  - assert (H : u_challengers (RunQueues users cs id) <> None).
    { revert users Hmade. induction cs as [|c cs IH]; intros users Hmade; [assumption|].
      simpl. apply IH. now apply runQueue_made. }
    unfold retos. destruct (u_challengers (RunQueues users cs id)) as [queue|];
      [|contradiction].
    now exists queue.
  - unfold clearlist, retos.
    destruct (u_challengers (users id)) as [ch|]; [|contradiction].
    cbn [String.eqb Ascii.eqb Bool.eqb fst]. now rewrite setChallengers_same.
Qed.

End LeagueFacts.

Lemma challenge_enqueues_once_witness :
  exists turno queue,
    u_challengers
      (fst (lideresdisponibles Demo.toId DemoLeague.lideres DemoLeague.who true
                               DemoLeague.users "ash" "Brock") "brock") = Some queue
    /\ indexOf "ash" queue = Some turno.
Proof.
  destruct (challenge_enqueues_once Demo.toId DemoLeague.lideres DemoLeague.who true
              DemoLeague.users "ash" "Brock" "brock")
    as (turno & queue & H1 & _ & H3 & _).
  - discriminate.
  - reflexivity.
  - reflexivity.
  - constructor.
  - left. reflexivity.
  - exists turno, queue. split; assumption.
Defined.

Lemma challenge_then_cancel_witness :
  u_challengers
    (fst (cancelarreto Demo.toId DemoLeague.who
            (fst (lideresdisponibles Demo.toId DemoLeague.lideres DemoLeague.who true
                                     DemoLeague.users "ash" "Brock"))
            "ash" "Brock") "brock")
  = Some [].
Proof.
  apply (challenge_then_cancel Demo.toId DemoLeague.lideres DemoLeague.who true
           DemoLeague.users "ash" "Brock" "brock").
  - discriminate.
  - reflexivity.
  - reflexivity.
  - reflexivity.
  - intros [].
  - reflexivity.
Defined.

Lemma clearlist_keeps_the_active_witness :
  snd (clearlist DemoLeague.who DemoLeague.users "misty" "")
  = SendReply (msgEliminados "gary")
  /\ u_challengers (fst (clearlist DemoLeague.who DemoLeague.users "misty" "") "misty")
     = Some ["ash"].
Proof.
  destruct (clearlist_keeps_the_active DemoLeague.who DemoLeague.users "misty"
              ["gary"; "ash"] eq_refl) as (H1 & H2 & _).
  split; [exact H1 | exact H2].
Defined.

Lemma DemoLeague_NoDup (id : string) : NoDup (queueOf DemoLeague.users id).
Proof.
  unfold queueOf, DemoLeague.users.
  repeat match goal with
         | |- context [if String.eqb id ?k then _ else _] => destruct (String.eqb id k)
         end; cbn [u_challengers]; try constructor.
  - simpl. intros [H | []]. discriminate H.
  - repeat constructor. intros [].
Qed.

Lemma queues_never_hold_a_user_twice_witness :
  NoDup (queueOf (runQueues Demo.toId DemoLeague.lideres DemoLeague.who true
                            DemoLeague.users
                            [Retar "ash" "Brock"; Retar "ash" "Brock"; Limpiar "misty" ""])
                 "brock").
Proof.
  apply (queues_never_hold_a_user_twice Demo.toId DemoLeague.lideres DemoLeague.who true
           DemoLeague.users _ DemoLeague_NoDup).
Defined.

Lemma turn_never_moves_back_witness : 0 <= 1.
Proof.
  apply (turn_never_moves_back Demo.toId DemoLeague.lideres DemoLeague.who true
           DemoLeague.users [Cancelar "gary" "Misty"] "misty" "ash" 1 0).
  - apply DemoLeague_NoDup.
  - intros [|[|n]] Hn; [vm_compute; tauto | vm_compute; tauto | simpl in Hn; lia].
  - reflexivity.
  - reflexivity.
Defined.

Lemma queue_once_made_stays_witness :
  retos DemoLeague.username
        (fst (clearlist DemoLeague.who DemoLeague.users "misty" "all")) "misty"
  = SendReply (msgRetos "").
Proof.
  apply (queue_once_made_stays Demo.toId DemoLeague.lideres DemoLeague.who true
           DemoLeague.username DemoLeague.users [] "misty").
  discriminate.
Defined.

(** ** Opening and closing a gym and its inscription *)

Section GymFacts.

Variable toId : string -> string.
Variable lideres altomando cargos : list string.
Variable lobby liga : bool.
Variable who : string -> option string.
Variable canBroadcast : bool.

Local Abbreviation Disponibles := (disponibles lideres who).
Local Abbreviation Lideresdisponibles := (lideresdisponibles toId lideres who canBroadcast).
Local Abbreviation Abrirliga := (abrirliga lideres altomando cargos lobby liga).
Local Abbreviation Cerrarliga := (cerrarliga lideres altomando cargos lobby liga).
Local Abbreviation Closereg := (closereg lideres altomando cargos lobby liga).
Local Abbreviation Openreg := (openreg lideres altomando cargos lobby liga).

Lemma setGymopen_same (users : Users) (id : string) (b : bool) :
  setGymopen users id b id
  = mkUser (u_name (users id)) (u_connected (users id)) b
           (u_noinscription (users id)) (u_challengers (users id)).
Proof. unfold setGymopen. now rewrite String.eqb_refl. Qed.

Lemma setGymopen_other (users : Users) (id x : string) (b : bool) :
  x <> id -> setGymopen users id b x = users x.
Proof. intros H. unfold setGymopen. apply String.eqb_neq in H. now rewrite H. Qed.

Lemma setNoinscription_same (users : Users) (id : string) (b : bool) :
  setNoinscription users id b id
  = mkUser (u_name (users id)) (u_connected (users id)) (u_gymopen (users id))
           b (u_challengers (users id)).
Proof. unfold setNoinscription. now rewrite String.eqb_refl. Qed.

Lemma setNoinscription_other (users : Users) (id x : string) (b : bool) :
  x <> id -> setNoinscription users id b x = users x.
Proof. intros H. unfold setNoinscription. apply String.eqb_neq in H. now rewrite H. Qed.

Lemma disponibles_setNoinscription (users : Users) (id : string) (b : bool) :
  Disponibles (setNoinscription users id b) = Disponibles users.
Proof.
  unfold disponibles. induction lideres as [|l r IH]; simpl; [reflexivity|].
  rewrite IH. destruct (who l) as [x|]; [|reflexivity].
  destruct (String.eqb_spec x id) as [-> | Hx].
  - now rewrite setNoinscription_same.
  - now rewrite setNoinscription_other.
Qed.

(** the answers to a challenge that reaches a leader *)
Lemma challenge_reaches (users : Users) (userid target rid : string) :
  target <> "" ->
  existsb (fun d => String.eqb (toId d) (toId target)) (Disponibles users) = true ->
  who (toId target) = Some rid ->
  snd (Lideresdisponibles users userid target) = Some (SendReply msgInscripcionCerrada)
  \/ exists turno,
       snd (Lideresdisponibles users userid target)
       = Some (SendReply (msgDesafioEnviado (u_name (users rid)) turno))
       \/ snd (Lideresdisponibles users userid target)
          = Some (SendReply (msgDesafioYaEnviado (u_name (users rid)) turno)).
Proof.
  intros Hne Hmatch Hwho. apply String.eqb_neq in Hne.
  unfold lideresdisponibles. rewrite Hne, Hmatch, Hwho. cbn [negb].
  destruct (indexOf userid _) as [i|].
  - right. exists (i + 1). now right.
  - destruct (u_noinscription (users rid)); [now left|].
    right. eexists. left. reflexivity.
Qed.

(** X12: a leader who is found under his own id and opens his gym is
    listed as available, and a challenge that names him reaches a user:
    it is answered with a turn or with the closed inscription, and not
    with the reply that the leader is not available. *)
Theorem opened_gym_takes_challenges (users : Users)
    (lider userid target rid : string) :
  In lider lideres ->
  who lider = Some lider ->
  target <> "" ->
  toId (u_name (users lider)) = toId target ->
  who (toId target) = Some rid ->
  In (u_name (users lider)) (Disponibles (fst (fst (Abrirliga users lider))))
  /\ (snd (Lideresdisponibles (fst (fst (Abrirliga users lider))) userid target)
      = Some (SendReply msgInscripcionCerrada)
      \/ exists turno,
           snd (Lideresdisponibles (fst (fst (Abrirliga users lider))) userid target)
           = Some (SendReply (msgDesafioEnviado (u_name (users rid)) turno))
           \/ snd (Lideresdisponibles (fst (fst (Abrirliga users lider))) userid target)
              = Some (SendReply (msgDesafioYaEnviado (u_name (users rid)) turno))).
Proof.
  intros Hin Hwho Hne Hname Hrid.
  destruct (indexOf_In lider lideres Hin) as [i Hi].
  assert (Hopen : fst (fst (Abrirliga users lider)) = setGymopen users lider true).
  { unfold abrirliga. now rewrite Hi. }
  rewrite Hopen.
  assert (Hdisp : In (u_name (users lider)) (Disponibles (setGymopen users lider true))).
  { unfold disponibles. apply in_flat_map. exists lider. split; [assumption|].
    rewrite Hwho, setGymopen_same. simpl. now left. }
  split; [assumption|].
  assert (Hrname : u_name (setGymopen users lider true rid) = u_name (users rid)).
  { destruct (String.eqb_spec rid lider) as [-> | Hr].
    - now rewrite setGymopen_same.
    - now rewrite setGymopen_other. }
  rewrite <- Hrname. apply challenge_reaches; try assumption.
  apply existsb_exists. exists (u_name (users lider)). split; [assumption|].
  now apply String.eqb_eq.
Qed.

(** X13: when a leader has closed his gym and no other open gym goes by
    the name that is challenged, the challenge is refused as not
    available and no list of challengers is touched. *)
Theorem closed_gym_refuses_challenges (users : Users)
    (lider userid target : string) :
  In lider lideres ->
  target <> "" ->
  (forall l id, In l lideres -> who l = Some id -> id <> lider ->
                u_gymopen (users id) = true ->
                toId (u_name (users id)) <> toId target) ->
  Lideresdisponibles (fst (fst (Cerrarliga users lider))) userid target
  = (fst (fst (Cerrarliga users lider)), Some (SendReply msgNoDisponible))
  /\ forall id, u_challengers (fst (fst (Cerrarliga users lider)) id)
                = u_challengers (users id).
Proof.
  intros Hin Hne Hothers.
  destruct (indexOf_In lider lideres Hin) as [i Hi].
  assert (Hclosed : fst (fst (Cerrarliga users lider)) = setGymopen users lider false).
  { unfold cerrarliga. now rewrite Hi. }
  rewrite Hclosed. split.
  - unfold lideresdisponibles. apply String.eqb_neq in Hne. rewrite Hne.
    assert (Hnone : existsb (fun d => String.eqb (toId d) (toId target))
                            (Disponibles (setGymopen users lider false)) = false).
    { apply not_true_is_false. intros H. apply existsb_exists in H.
      destruct H as (d & Hd & Heq). apply String.eqb_eq in Heq.
      unfold disponibles in Hd. apply in_flat_map in Hd. destruct Hd as (l & Hl & Hd).
      destruct (who l) as [id|] eqn:Hw; [|contradiction].
      destruct (String.eqb_spec id lider) as [-> | Hid].
      - rewrite setGymopen_same in Hd. simpl in Hd. contradiction.
      - rewrite setGymopen_other in Hd by assumption.
        destruct (u_gymopen (users id)) eqn:Hg; [|contradiction].
        destruct Hd as [<- | []]. exact (Hothers l id Hl Hw Hid Hg Heq). }
    rewrite Hnone. reflexivity.
  - intros id. destruct (String.eqb_spec id lider) as [-> | Hid].
    + now rewrite setGymopen_same.
    + now rewrite setGymopen_other.
Qed.

(** X14: after a leader or a member of the Alto Mando has closed the
    inscription, a new challenger who reaches him is refused and every
    list of challengers holds the same users as before; once the
    inscription is opened again, the same challenge is taken at the end
    of the list. *)
Theorem closed_inscription_refuses_new_challengers (users : Users)
    (lider userid target : string) :
  In lider lideres \/ In lider altomando ->
  target <> "" ->
  existsb (fun d => String.eqb (toId d) (toId target)) (Disponibles users) = true ->
  who (toId target) = Some lider ->
  ~ In userid (queueOf users lider) ->
  snd (Lideresdisponibles (fst (fst (Closereg users lider))) userid target)
  = Some (SendReply msgInscripcionCerrada)
  /\ (forall id,
        queueOf (fst (Lideresdisponibles (fst (fst (Closereg users lider))) userid target)) id
        = queueOf users id)
  /\ snd (Lideresdisponibles
            (fst (fst (Openreg (fst (fst (Closereg users lider))) lider))) userid target)
     = Some (SendReply (msgDesafioEnviado (u_name (users lider))
                                          (length (queueOf users lider) + 1)))
  /\ queueOf (fst (Lideresdisponibles
                     (fst (fst (Openreg (fst (fst (Closereg users lider))) lider)))
                     userid target)) lider
     = (queueOf users lider ++ [userid])%list.
Proof.
  intros Hin Hne Hmatch Hwho Hout. apply String.eqb_neq in Hne.
  assert (Hclose : fst (fst (Closereg users lider)) = setNoinscription users lider true).
  { unfold closereg.
    destruct Hin as [H | H]; destruct (indexOf_In _ _ H) as [i Hi]; rewrite Hi;
      [reflexivity | now destruct (indexOf lider lideres)]. }
  assert (Hopen : forall users0, fst (fst (Openreg users0 lider))
                                 = setNoinscription users0 lider false).
  { intros users0. unfold openreg.
    destruct Hin as [H | H]; destruct (indexOf_In _ _ H) as [i Hi]; rewrite Hi;
      [reflexivity | now destruct (indexOf lider lideres)]. }
  rewrite Hopen, Hclose. clear Hopen Hclose.
  apply indexOf_none in Hout. unfold queueOf in Hout.
  unfold lideresdisponibles.
  rewrite Hne, !disponibles_setNoinscription, Hmatch, Hwho. cbn [negb].
  rewrite !setNoinscription_same. cbn [u_challengers u_noinscription u_name].
  rewrite Hout. cbn [fst snd]. repeat split.
  - intros id. unfold queueOf, setChallengers.
    destruct (String.eqb_spec id lider) as [-> | Hid]; cbn [u_challengers].
    + reflexivity.
    + now rewrite setNoinscription_other.
  - unfold queueOf at 1. now rewrite setChallengers_same.
Qed.

(** X15: [closereg] and [openreg] never send the replies written for
    the Alto Mando.  Its members are answered as the leaders are, and
    for a member who is no leader the rooms are told what they would be
    told if no post were recorded at all: the post reads [undefined]. *)
Theorem inscription_replies_for_the_alto_mando (users : Users) (userid : string) :
  snd (Closereg users userid) <> Some (SendReply msgInscripcionCerradaElite)
  /\ snd (Openreg users userid) <> Some (SendReply msgInscripcionAbiertaElite)
  /\ (In userid altomando -> ~ In userid lideres ->
      snd (Closereg users userid) = Some (SendReply msgInscripcionCerradaGimnasio)
      /\ snd (Openreg users userid) = Some (SendReply msgInscripcionAbiertaGimnasio)
      /\ snd (fst (Closereg users userid))
         = snd (fst (closereg lideres altomando [] lobby liga users userid))
      /\ snd (fst (Openreg users userid))
         = snd (fst (openreg lideres altomando [] lobby liga users userid))).
Proof.
  unfold closereg, openreg. split; [|split].
  - destruct (found (indexOf userid lideres) || found (indexOf userid altomando)) eqn:E.
    + cbn [snd]. intros H. injection H as H. discriminate H.
    + apply orb_false_elim in E. destruct E as [_ E]. rewrite E.
      cbn [snd]. intros H. injection H as H. discriminate H.
  - destruct (found (indexOf userid lideres) || found (indexOf userid altomando)) eqn:E.
    + cbn [snd]. intros H. injection H as H. discriminate H.
    + apply orb_false_elim in E. destruct E as [_ E]. rewrite E.
      cbn [snd]. intros H. injection H as H. discriminate H.
  - intros Helite Hlider.
    destruct (indexOf_In _ _ Helite) as [i Hi]. apply indexOf_none in Hlider.
    rewrite Hlider, Hi. repeat split.
Qed.

End GymFacts.

Lemma opened_gym_takes_challenges_witness :
  In "Misty"
     (disponibles DemoLeague.lideres DemoLeague.who
        (fst (fst (abrirliga DemoLeague.lideres DemoLeague.altomando DemoLeague.cargos
                             true true DemoLeague.users "misty")))).
Proof.
  apply (opened_gym_takes_challenges Demo.toId DemoLeague.lideres DemoLeague.altomando
           DemoLeague.cargos true true DemoLeague.who true DemoLeague.users
           "misty" "ash" "Misty" "misty").
  - simpl. tauto.
  - reflexivity.
  - discriminate.
  - reflexivity.
  - reflexivity.
Defined.

Lemma closed_gym_refuses_challenges_witness :
  snd (lideresdisponibles Demo.toId DemoLeague.lideres DemoLeague.who true
         (fst (fst (cerrarliga DemoLeague.lideres DemoLeague.altomando DemoLeague.cargos
                               true true DemoLeague.users "brock")))
         "ash" "Brock")
  = Some (SendReply msgNoDisponible).
Proof.
  assert (H : In "brock" DemoLeague.lideres) by (simpl; tauto).
  assert (Hne : "Brock" <> "") by discriminate.
  refine (f_equal snd
            (proj1 (closed_gym_refuses_challenges Demo.toId DemoLeague.lideres
                      DemoLeague.altomando DemoLeague.cargos true true DemoLeague.who true
                      DemoLeague.users "brock" "ash" "Brock" H Hne _))).
  intros l id Hl Hw Hid _. simpl in Hl.
  destruct Hl as [<- | [<- | []]]; vm_compute in Hw; injection Hw as <-.
  - contradiction.
  - vm_compute. discriminate.
Defined.

Lemma closed_inscription_refuses_new_challengers_witness :
  snd (lideresdisponibles Demo.toId DemoLeague.lideres DemoLeague.who true
         (fst (fst (closereg DemoLeague.lideres DemoLeague.altomando DemoLeague.cargos
                             true true DemoLeague.users "brock")))
         "ash" "Brock")
  = Some (SendReply msgInscripcionCerrada).
Proof.
  apply (closed_inscription_refuses_new_challengers Demo.toId DemoLeague.lideres
           DemoLeague.altomando DemoLeague.cargos true true DemoLeague.who true
           DemoLeague.users "brock" "ash" "Brock").
  - left. simpl. tauto.
  - discriminate.
  - reflexivity.
  - reflexivity.
  - intros [].
Defined.

Lemma inscription_replies_for_the_alto_mando_witness :
  snd (closereg DemoLeague.lideres DemoLeague.altomando DemoLeague.cargos true true
                DemoLeague.users "lance")
  = Some (SendReply msgInscripcionCerradaGimnasio).
Proof.
  apply (proj2 (proj2 (inscription_replies_for_the_alto_mando DemoLeague.lideres
                         DemoLeague.altomando DemoLeague.cargos true true
                         DemoLeague.users "lance"))).
  - simpl. tauto.
  - simpl. intros [H | [H | []]]; discriminate H.
Defined.

(** ** Rolling dice *)

Section DiceFacts.

Variable canBroadcast : bool.
Variable random : nat -> nat -> nat.
Variable isNaN : string -> bool.
Variable randText : string -> string.

Local Abbreviation DiceLoop := (diceLoop random).
Local Abbreviation Dice := (dice canBroadcast random isNaN randText).

Lemma list_sum_snoc (l : list nat) (x : nat) : list_sum (l ++ [x]) = list_sum l + x.
Proof. rewrite list_sum_app. simpl. lia. Qed.

(** what the loop keeps true of the rolls made so far *)
Lemma diceLoop_bounds (faces : nat) :
  0 < faces ->
  (forall i, random i faces < faces) ->
  forall rounds i rolls total,
    total = list_sum rolls ->
    Forall (fun r => 1 <= r <= faces) rolls ->
    length rolls <= total <= length rolls * faces ->
    let out := DiceLoop rounds i faces rolls total in
    snd out = list_sum (fst out)
    /\ length (fst out) = length rolls + rounds
    /\ Forall (fun r => 1 <= r <= faces) (fst out)
    /\ length (fst out) <= snd out <= length (fst out) * faces.
Proof.
  intros Hfaces Hrandom. induction rounds as [|rounds IH]; intros i rolls total Ht Hall Hb.
  - simpl. repeat split; try assumption; lia.
  - cbn [diceLoop]. specialize (Hrandom i).
    destruct (IH (i + 1) (rolls ++ [random i faces + 1])%list (total + (random i faces + 1)))
      as (H1 & H2 & H3 & H4).
    + rewrite list_sum_snoc. lia.
    + apply Forall_app. split; [assumption|]. constructor; [lia | constructor].
    + rewrite length_app. simpl. nia.
    + cbv zeta. rewrite length_app in H2. simpl in H2.
      repeat split; try assumption; lia.
Qed.

(** X16: when the target holds a [d] and the answer is a box of rolls,
    the count read before the [d] is between 1 and 20 (one when no
    number is read there), the number of faces read after it is between
    1 and 1000, there are as many rolls as dice, every roll is between 1
    and the number of faces, and the total shown is their sum, between
    the count and the count times the faces. *)
Theorem dice_rolls_within_bounds (target : string) (d : nat) (html : string) :
  (forall i faces, 0 < faces -> random i faces < faces) ->
  JS.indexOf "d" target = Some d ->
  Dice target = Some (SendReplyBox html) ->
  exists num faces rolls,
    1 <= num <= 20 /\ 1 <= faces <= 1000
    /\ JS.parseInt (JS.substrFrom (d + 1) target) = Some (Z.of_nat faces)
    /\ (JS.parseInt (substring 0 d target) = Some (Z.of_nat num)
        \/ (JS.parseInt (substring 0 d target) = None /\ num = 1))
    /\ length rolls = num
    /\ Forall (fun r => 1 <= r <= faces) rolls
    /\ num <= list_sum rolls <= num * faces
    /\ html = msgDice num faces rolls (list_sum rolls).
Proof.
  intros Hrandom Hd. unfold dice. rewrite Hd.
  destruct (negb canBroadcast); [discriminate|].
  destruct (JS.parseInt (JS.substrFrom (d + 1) target)) as [faces|]; [|discriminate].
  destruct ((faces <? 1) || (faces >? 1000))%Z eqn:Ef; [discriminate|].
  set (num := match JS.parseInt (substring 0 d target) with
              | Some n => n | None => 1%Z end).
  destruct ((num <? 1) || (num >? 20))%Z eqn:En; [discriminate|].
  apply orb_false_elim in Ef. destruct Ef as [Ef1 Ef2].
  apply orb_false_elim in En. destruct En as [En1 En2].
  apply Z.ltb_ge in Ef1, En1.
  rewrite Z.gtb_ltb in Ef2, En2. apply Z.ltb_ge in Ef2, En2.
  assert (Hf : 0 < Z.to_nat faces) by lia.
  destruct (diceLoop_bounds (Z.to_nat faces) Hf (fun i => Hrandom i _ Hf)
              (Z.to_nat num) 0 [] 0 eq_refl (Forall_nil _))
    as (H1 & H2 & H3 & H4); [simpl; lia|].
  destruct (DiceLoop (Z.to_nat num) 0 (Z.to_nat faces) [] 0) as [rolls total].
  cbn [fst snd] in *. simpl in H2. intros H. injection H as <-.
  exists (Z.to_nat num), (Z.to_nat faces), rolls. subst total.
  rewrite H2 in H4.
  repeat split; try assumption; try lia.
  - f_equal. lia.
  - unfold num. destruct (JS.parseInt (substring 0 d target)) as [n|].
    + left. f_equal. subst num. lia.
    + right. split; reflexivity.
Qed.

End DiceFacts.

Lemma dice_rolls_within_bounds_witness :
  exists num faces rolls,
    1 <= num <= 20 /\ 1 <= faces <= 1000
    /\ Forall (fun r => 1 <= r <= faces) rolls
    /\ msgDice 2 6 [2; 5] 7 = msgDice num faces rolls (list_sum rolls).
Proof.
  destruct (dice_rolls_within_bounds true (fun i faces => (3 * i + 1) mod faces)
              (fun _ => false) (fun s => s) "2d6" 1 (msgDice 2 6 [2; 5] 7))
    as (num & faces & rolls & H1 & H2 & _ & _ & _ & H3 & _ & H4).
  - intros i faces H. apply Nat.mod_upper_bound. lia.
  - reflexivity.
  - reflexivity.
  - exists num, faces, rolls. repeat split; try assumption; lia.
Defined.

(** ** The links to the analyses *)

Lemma generationOf_cases (g : string) :
  In (generationOf g) [("bw", 5); ("dp", 4); ("rs", 3); ("gs", 2); ("rb", 1)].
Proof.
  unfold generationOf.
  repeat match goal with
         | |- context [if ?b then _ else _] => destruct b
         end; simpl; tauto.
Qed.

(** the texts that select a generation before the fifth are no doubles
    formats, not even inherited ones *)
Lemma old_generation_no_doubles (g : string) :
  snd (generationOf g) <> 5 -> JS.has g doublesFormats = false.
Proof.
  unfold generationOf.
  destruct (JS.mem g ["bw"; "bw2"; "5"; "five"]); [simpl; congruence|].
  repeat match goal with
         | |- context [if JS.mem g ?l then _ else _] =>
             let E := fresh "E" in
             destruct (JS.mem g l) eqn:E;
             [ intros _; apply mem_In in E; cbn [In] in E;
               decompose [or] E; try contradiction; subst g; reflexivity | ]
         end.
  simpl. congruence.
Qed.

Section SmogdexFacts.

Variable canBroadcast : bool.
Variable getTemplate : string -> Template.
Variable getItem getMove getAbility : string -> Effect.
Variable itemGen moveGen abilityGen : string -> nat.
Variable inheritedText : string -> string.

Local Abbreviation Format := (smogdexFormat inheritedText).
Local Abbreviation Smogdex :=
  (smogdex canBroadcast getTemplate getItem getMove getAbility
           itemGen moveGen abilityGen inheritedText).

Lemma smogdexFormat_generation (targets : list string) :
  exists doublesFormat doublesText,
    Format targets
    = (fst (generationOf (generationText targets)),
       snd (generationOf (generationText targets)), doublesFormat, doublesText).
Proof.
  unfold smogdexFormat. destruct (generationOf (generationText targets)) as [g n].
  cbn [fst snd].
  destruct (String.eqb _ ""); [now exists "", ""|].
  destruct (_ || _); [now exists "", ""|]. eauto.
Qed.

(** X17: with the right to broadcast the command is never silent and
    sends at most four replies. *)
Theorem smogdex_one_to_four_replies (target : string) :
  canBroadcast = true ->
  1 <= length (smogdex canBroadcast getTemplate getItem getMove getAbility
                       itemGen moveGen abilityGen inheritedText target) <= 4.
Proof.
  intros Hcb. unfold smogdex. rewrite Hcb. cbn [negb].
  destruct (Format (JS.split "," target)) as [[[generation genNumber] df] dt].
  destruct (t_exists _ && (genNumber <? _)); [simpl; lia|].
  destruct (t_exists (getTemplate _)); destruct (e_exists (getItem _) && _ && _);
    destruct (e_exists (getAbility _) && _ && _); destruct (e_exists (getMove _) && _);
    simpl; lia.
Qed.

(** X18: a doubles format is of no effect for the generations before
    the fifth: the third part of the target can be left out. *)
Theorem smogdex_doubles_only_in_bw (target target' : string)
    (name generation doubles : string) (rest : list string) :
  JS.split "," target = name :: generation :: doubles :: rest ->
  JS.split "," target' = [name; generation] ->
  snd (generationOf (generationText [name; generation])) <> 5 ->
  Smogdex target = Smogdex target'.
Proof.
  intros Ht Ht' Hold. unfold smogdex. rewrite Ht, Ht'.
  assert (E : Format (name :: generation :: doubles :: rest) = Format [name; generation]).
  { unfold smogdexFormat.
    change (generationText (name :: generation :: doubles :: rest))
      with (generationText [name; generation]).
    rewrite (old_generation_no_doubles _ Hold).
    destruct (generationOf (generationText [name; generation])) as [g n] eqn:Eg.
    assert (Hg : JS.has g [("bw", 1); ("xy", 1)] = false).
    { pose proof (generationOf_cases (generationText [name; generation])) as Hc.
      rewrite Eg in Hc. cbn [snd] in Hold. cbn [In] in Hc.
      decompose [or] Hc; try contradiction;
        match goal with H : _ = (g, n) |- _ => injection H as <- <- end;
        try reflexivity.
      congruence. }
    rewrite Hg. cbn [negb orb andb].
    rewrite andb_false_r.
    destruct (String.eqb (JS.toLowerCase (JS.trim (orElse _ 2 ""))) "");
      destruct (String.eqb (JS.toLowerCase (JS.trim (orElse [name; generation] 2 ""))) "");
      reflexivity. }
  rewrite E. reflexivity.
Qed.

End SmogdexFacts.

(** X19: for the first two generations the abilities of the data are
    not looked at, and for the first the items are not either: the
    replies are the same whatever [Tools.getAbility] and
    [Tools.getItem] hold. *)
Theorem smogdex_old_generations_ignore
    (canBroadcast : bool) (getTemplate : string -> Template)
    (getItem getItem' getMove getAbility getAbility' : string -> Effect)
    (itemGen itemGen' moveGen abilityGen abilityGen' : string -> nat)
    (inheritedText : string -> string) (target : string) :
  snd (generationOf (generationText (JS.split "," target))) <= 2 ->
  smogdex canBroadcast getTemplate getItem getMove getAbility
          itemGen moveGen abilityGen inheritedText target
  = smogdex canBroadcast getTemplate getItem getMove getAbility'
            itemGen moveGen abilityGen' inheritedText target
  /\ (snd (generationOf (generationText (JS.split "," target))) = 1 ->
      smogdex canBroadcast getTemplate getItem getMove getAbility
              itemGen moveGen abilityGen inheritedText target
      = smogdex canBroadcast getTemplate getItem' getMove getAbility'
                itemGen' moveGen abilityGen' inheritedText target).
Proof.
  intros Hold.
  assert (Hab : forall n, n <= 2 -> (2 <? n) = false)
    by (intros n Hn; apply Nat.ltb_ge; lia).
  split; [|intros Hone]; unfold smogdex;
    destruct (smogdexFormat_generation inheritedText (JS.split "," target))
      as (df & dt & ->);
    rewrite (Hab _ Hold); [|rewrite Hone; cbn [Nat.ltb Nat.leb]];
    rewrite ?andb_false_r; cbn [andb]; reflexivity.
Qed.

Lemma smogdex_one_to_four_replies_witness :
  1 <= length (DemoData.smogdex "charizard") <= 4.
Proof.
  apply (smogdex_one_to_four_replies true Demo.getTemplate DemoData.getItem Demo.getMove
           Demo.getAbility DemoData.itemGen DemoData.moveGen DemoData.abilityGen
           DemoData.inheritedText "charizard" eq_refl).
Defined.

Lemma smogdex_doubles_only_in_bw_witness :
  DemoData.smogdex "hooh,gs,doubles" = DemoData.smogdex "hooh,gs".
Proof.
  apply (smogdex_doubles_only_in_bw true Demo.getTemplate DemoData.getItem Demo.getMove
           Demo.getAbility DemoData.itemGen DemoData.moveGen DemoData.abilityGen
           DemoData.inheritedText "hooh,gs,doubles" "hooh,gs" "hooh" "gs" "doubles" []).
  - reflexivity.
  - reflexivity.
  - vm_compute. discriminate.
Defined.

Lemma smogdex_old_generations_ignore_witness :
  DemoData.smogdex "leftovers,rb"
  = smogdex true Demo.getTemplate (fun _ => mkEffect false "" "") Demo.getMove
            (fun _ => mkEffect false "" "") (fun _ => 0) DemoData.moveGen (fun _ => 0)
            DemoData.inheritedText "leftovers,rb".
Proof.
  apply (smogdex_old_generations_ignore true Demo.getTemplate DemoData.getItem
           (fun _ => mkEffect false "" "") Demo.getMove Demo.getAbility
           (fun _ => mkEffect false "" "") DemoData.itemGen (fun _ => 0) DemoData.moveGen
           DemoData.abilityGen (fun _ => 0) DemoData.inheritedText "leftovers,rb").
  - vm_compute. lia.
  - reflexivity.
Defined.

(** ** Type matchups *)

Section MatchupFacts.

Variable getTemplate : option string -> Template.
Variable getType : option string -> Effect.
Variable typeChart : list string.
Variable getImmunity : string -> list string -> bool.
Variable getEffectiveness : string -> list string -> Z.
Variable canBroadcast : bool.
Variable powText : Z -> string.

Local Abbreviation WeaknessOf := (weaknessOf getImmunity getEffectiveness).
Local Abbreviation Weakness :=
  (weakness getTemplate getType typeChart getImmunity getEffectiveness).
Local Abbreviation Effectiveness :=
  (effectiveness getTemplate getType getImmunity getEffectiveness canBroadcast powText).

Local Abbreviation isWeakness := (isWeakness getImmunity getEffectiveness).
Local Abbreviation shownWeakness := (shownWeakness getEffectiveness).

Lemma weaknesses_filter (types : list string) (chart : list string) :
  flat_map (WeaknessOf types) chart
  = map (shownWeakness types) (filter (isWeakness types) chart).
Proof.
  induction chart as [|type chart IH]; [reflexivity|].
  cbn [flat_map filter]. rewrite IH. unfold weaknessOf, isWeakness, shownWeakness.
  destruct (getImmunity type types); [|reflexivity].
  destruct (Z.eqb (getEffectiveness type types) 1) eqn:E1;
    destruct (Z.eqb (getEffectiveness type types) 2) eqn:E2;
    cbn [andb orb map app]; rewrite ?E2; try reflexivity.
  apply Z.eqb_eq in E1, E2. congruence.
Qed.

(** X20: a target that names a species is answered for the species,
    whatever types its words may name.  The answer lists, in the order
    of the type chart, exactly the types that the species is not immune
    to and takes with the modifier 1 or 2, the latter in bold, and says
    that there are no weaknesses exactly when the chart holds no such
    type. *)
Theorem weakness_of_a_species (target : string) :
  t_exists (getTemplate (Some target)) = true ->
  Weakness target
  = SendReplyBox
      (let pokemon := getTemplate (Some target) in
       if forallb (fun type => negb (isWeakness (types pokemon) type)) typeChart
       then msgNoWeaknesses (species pokemon)
       else msgWeakTo (species pokemon)
                      (map (shownWeakness (types pokemon))
                           (filter (isWeakness (types pokemon)) typeChart))).
Proof.
  intros Hexists. unfold weakness. rewrite Hexists. cbv zeta.
  rewrite weaknesses_filter, length_map.
  set (weak := isWeakness (types (getTemplate (Some target)))).
  assert (E : (length (filter weak typeChart) =? 0)
              = forallb (fun type => negb (weak type)) typeChart).
  { induction typeChart as [|type chart IH]; [reflexivity|].
    simpl. destruct (weak type); simpl; [reflexivity | exact IH]. }
  rewrite E. now destruct (forallb _ typeChart).
Qed.

(** X21: an existing species and an existing type can be given in
    either order, unless the two words can also be read the other way
    round. *)
Theorem effectiveness_in_either_order (target target' a b : string) :
  splitAny [","; "/"]%char target = [a; b] ->
  splitAny [","; "/"]%char target' = [b; a] ->
  t_exists (getTemplate (Some a)) = true ->
  e_exists (getType (Some b)) = true ->
  t_exists (getTemplate (Some b)) && e_exists (getType (Some a)) = false ->
  Effectiveness target = Effectiveness target'.
Proof.
  intros Ht Ht' Ha Hb Hother. unfold effectiveness, matchupOf. rewrite Ht, Ht'.
  cbn [nth_error]. rewrite Ha, Hb. cbn [negb orb].
  apply andb_false_iff in Hother. destruct Hother as [H | H]; rewrite H;
    cbn [negb orb]; rewrite ?orb_true_r; rewrite Ha, Hb; reflexivity.
Qed.

End MatchupFacts.

(** X22: the replies that refuse a target are sent whether or not the
    user may broadcast; without the right to broadcast no matchup is
    ever shown. *)
Theorem effectiveness_refusals_first
    (getTemplate : option string -> Template) (getType : option string -> Effect)
    (getImmunity : string -> list string -> bool)
    (getEffectiveness : string -> list string -> Z)
    (powText : Z -> string) (target : string) :
  (forall canBroadcast canBroadcast' text,
      effectiveness getTemplate getType getImmunity getEffectiveness
                    canBroadcast powText target = Some (SendReply text) ->
      effectiveness getTemplate getType getImmunity getEffectiveness
                    canBroadcast' powText target = Some (SendReply text))
  /\ (forall html,
         effectiveness getTemplate getType getImmunity getEffectiveness
                       false powText target <> Some (SendReplyBox html)).
Proof.
  split.
  - intros cb cb' text. unfold effectiveness.
    destruct (matchupOf getTemplate getType _) as [[[type defender] types] | reply];
      [|trivial].
    destruct (negb cb); intros H; discriminate H.
  - intros html. unfold effectiveness.
    destruct (matchupOf getTemplate getType _)
      as [[[type defender] types] | reply] eqn:E.
    + discriminate.
    + unfold matchupOf in E.
      repeat match type of E with
             | context [if ?c then _ else _] => destruct c
             end; try discriminate E; injection E as <-; discriminate.
Qed.

Lemma weakness_of_a_species_witness :
  DemoData.weakness "charizard"
  = SendReplyBox (msgWeakTo "Charizard" ["Water"]).
Proof.
  unfold DemoData.weakness.
  rewrite (weakness_of_a_species DemoData.getTemplate DemoData.getType DemoData.typeChart
             DemoData.getImmunity DemoData.getEffectiveness "charizard" eq_refl).
  reflexivity.
Defined.

Lemma effectiveness_in_either_order_witness :
  DemoData.effectiveness true "charizard,water"
  = DemoData.effectiveness true "water,charizard".
Proof.
  apply (effectiveness_in_either_order DemoData.getTemplate DemoData.getType
           DemoData.getImmunity DemoData.getEffectiveness true DemoData.powText
           "charizard,water" "water,charizard" "charizard" "water");
    reflexivity.
Defined.

Lemma effectiveness_refusals_first_witness :
  DemoData.effectiveness false "foo" = Some (SendReply msgSeparated).
Proof.
  apply (proj1 (effectiveness_refusals_first DemoData.getTemplate DemoData.getType
                  DemoData.getImmunity DemoData.getEffectiveness DemoData.powText "foo")
               true false msgSeparated).
  reflexivity.
Defined.

(** ** The lists of links *)

Lemma lowerChar_idempotent (c : ascii) : JS.lowerChar (JS.lowerChar c) = JS.lowerChar c.
Proof. destruct c as [[] [] [] [] [] [] [] []]; vm_compute; reflexivity. Qed.

Lemma toLowerCase_idempotent (s : string) :
  JS.toLowerCase (JS.toLowerCase s) = JS.toLowerCase s.
Proof.
  induction s as [|c r IH]; [reflexivity|].
  simpl. now rewrite lowerChar_idempotent, IH.
Qed.

(** splits the goal by the keyword that [t] is, if it is one *)
Ltac by_keyword t :=
  repeat match goal with
         | |- context [String.eqb t ?k] =>
             destruct (String.eqb_spec t k) as [-> | ?]
         end.

Section LinkFacts.

Variable canBroadcast : bool.

Local Abbreviation Faq := (Links.faq canBroadcast).

(** X23: for a target of ASCII characters, [faq] does not tell upper
    from lower case; it answers that the entry was not found exactly
    when the target, in lower case, is none of its keywords; and every
    list of links that it answers with is a part of the list that it
    gives for [all]. *)
Theorem faq_answers (target : string) :
  canBroadcast = true ->
  JS.isAscii target = true ->
  Faq target = Faq (JS.toLowerCase target)
  /\ (Faq target = Some (SendReply (Links.msgFaqNotFound (JS.toLowerCase target)))
      <-> ~ In (JS.toLowerCase target) Links.faqKeywords)
  /\ (forall html,
         Faq target = Some (SendReplyBox html) ->
         exists before after,
           Faq "all" = Some (SendReplyBox (before ++ html ++ after))).
Proof.
  intros Hcb _. split; [|split].
  - unfold Links.faq. now rewrite toLowerCase_idempotent.
  - unfold Links.faq. rewrite Hcb. cbn [negb].
    generalize (JS.toLowerCase target). intros t. unfold Links.faqKeywords.
    split.
    + intros H Hin. cbn [In] in Hin.
      decompose [or] Hin; try contradiction; subst t; vm_compute in H; discriminate H.
    + intros Hout.
      by_keyword t; try (exfalso; apply Hout; cbn [In]; tauto).
      reflexivity.
  - intros html. unfold Links.faq. rewrite Hcb. cbn [negb].
    change (JS.toLowerCase "all") with "all".
    generalize (JS.toLowerCase target). intros t.
    by_keyword t; cbn [orb Links.entry fst snd negb]; intros H;
      try discriminate H; injection H as <-;
      first [ exists "", ""; reflexivity
            | exists "", (Links.faqDeviation ++ Links.faqDoubles ++ Links.faqRandomcap ++ Links.faqRestarts
                          ++ Links.faqStaff ++ Links.faqAutoconfirmed); reflexivity
            | exists Links.faqGeneral, (Links.faqDoubles ++ Links.faqRandomcap ++ Links.faqRestarts
                                  ++ Links.faqStaff ++ Links.faqAutoconfirmed); reflexivity
            | exists (Links.faqGeneral ++ Links.faqDeviation),
                (Links.faqRandomcap ++ Links.faqRestarts ++ Links.faqStaff ++ Links.faqAutoconfirmed);
              reflexivity
            | exists (Links.faqGeneral ++ Links.faqDeviation ++ Links.faqDoubles),
                (Links.faqRestarts ++ Links.faqStaff ++ Links.faqAutoconfirmed); reflexivity
            | exists (Links.faqGeneral ++ Links.faqDeviation ++ Links.faqDoubles ++ Links.faqRandomcap),
                (Links.faqStaff ++ Links.faqAutoconfirmed); reflexivity
            | exists (Links.faqGeneral ++ Links.faqDeviation ++ Links.faqDoubles ++ Links.faqRandomcap
                      ++ Links.faqRestarts), Links.faqAutoconfirmed; reflexivity
            | exists (Links.faqGeneral ++ Links.faqDeviation ++ Links.faqDoubles ++ Links.faqRandomcap
                      ++ Links.faqRestarts ++ Links.faqStaff), ""; reflexivity ].
Qed.

Variable toId : string -> string.

Local Abbreviation Tiers := (Links.tiers canBroadcast toId).

(** X24: [tiers] answers that the entry was not found exactly for the
    targets whose id is none of its keywords, and every list of links
    that it answers with is a part of the list that it gives for a
    target with the id [all]. *)
Theorem tiers_answers (target everything : string) :
  canBroadcast = true ->
  toId everything = "all" ->
  (Tiers target = Some (SendReply (Links.msgTiersNotFound (toId target)))
   <-> ~ In (toId target) Links.tiersKeywords)
  /\ (forall html,
         Tiers target = Some (SendReplyBox html) ->
         exists before after,
           Tiers everything = Some (SendReplyBox (before ++ html ++ after))).
Proof.
  intros Hcb Hall. split.
  - unfold Links.tiers. rewrite Hcb. cbn [negb].
    generalize (toId target). intros t. unfold Links.tiersKeywords.
    split.
    + intros H Hin. cbn [In] in Hin.
      decompose [or] Hin; try contradiction; subst t; vm_compute in H; discriminate H.
    + intros Hout.
      by_keyword t; try (exfalso; apply Hout; cbn [In]; tauto).
      reflexivity.
  - intros html. unfold Links.tiers. rewrite Hcb, Hall. cbn [negb].
    generalize (toId target). intros t.
    by_keyword t; cbn [orb Links.entry fst snd negb]; intros H;
      try discriminate H; injection H as <-;
      first [ exists "", ""; reflexivity
            | exists "", (Links.tiersUber ++ Links.tiersOu ++ Links.tiersUu ++ Links.tiersRu ++ Links.tiersNu
                          ++ Links.tiersLc ++ Links.tiersDoubles); reflexivity
            | exists Links.tiersGeneral, (Links.tiersOu ++ Links.tiersUu ++ Links.tiersRu ++ Links.tiersNu
                                    ++ Links.tiersLc ++ Links.tiersDoubles); reflexivity
            | exists (Links.tiersGeneral ++ Links.tiersUber),
                (Links.tiersUu ++ Links.tiersRu ++ Links.tiersNu ++ Links.tiersLc ++ Links.tiersDoubles); reflexivity
            | exists (Links.tiersGeneral ++ Links.tiersUber ++ Links.tiersOu),
                (Links.tiersRu ++ Links.tiersNu ++ Links.tiersLc ++ Links.tiersDoubles); reflexivity
            | exists (Links.tiersGeneral ++ Links.tiersUber ++ Links.tiersOu ++ Links.tiersUu),
                (Links.tiersNu ++ Links.tiersLc ++ Links.tiersDoubles); reflexivity
            | exists (Links.tiersGeneral ++ Links.tiersUber ++ Links.tiersOu ++ Links.tiersUu ++ Links.tiersRu),
                (Links.tiersLc ++ Links.tiersDoubles); reflexivity
            | exists (Links.tiersGeneral ++ Links.tiersUber ++ Links.tiersOu ++ Links.tiersUu ++ Links.tiersRu
                      ++ Links.tiersNu), Links.tiersDoubles; reflexivity
            | exists (Links.tiersGeneral ++ Links.tiersUber ++ Links.tiersOu ++ Links.tiersUu ++ Links.tiersRu
                      ++ Links.tiersNu ++ Links.tiersLc), ""; reflexivity ].
Qed.

End LinkFacts.

Lemma faq_answers_witness : Links.faq true "STAFF" = Links.faq true "staff".
Proof. apply (faq_answers true "STAFF" eq_refl eq_refl). Defined.

Lemma tiers_answers_witness :
  exists before after,
    Links.tiers true Demo.toId "All" = Some (SendReplyBox (before ++ Links.tiersOu ++ after)).
Proof.
  apply (proj2 (tiers_answers true Demo.toId "O U" "All" eq_refl eq_refl)).
  reflexivity.
Defined.
